(** * route-match-bot: the analysis pipeline, embedded and verified

    The development follows the two source files that carry the logic:
    [src/hooks/useAnalyzer.ts] (prompt derivation, response matching,
    embedding provider, cosine similarity, export) and
    [src/components/AnalysisResults.tsx] (intent classification and the
    priority score).

    Conventions of the embedding.
    - A JavaScript string is the sequence of its code units, here a
      [string] of 8-bit characters: the text the program handles is taken
      to hold no code unit above 255.
    - [toLowerCase] and [toUpperCase] follow the case tables of the host,
      not of the program.  They are the two operations of the class
      [Js.CaseFolding], and every statement is proved for every instance
      of it.  The instance [Js.asciiFolding], which moves the letters A-Z
      and a-z only, serves to run the program on ASCII text.
    - A JavaScript number is an extended real ([number]): a real, one of
      the two infinities, or NaN, with exact operators.  Where rounding,
      underflow or overflow decides a statement, the function is
      transcribed a second time over binary64 floating-point numbers
      ([Module Double]), the numbers the program runs on. *)

From Stdlib Require Import String Ascii List Bool Arith Lia Reals Lra DecimalString.
From Stdlib Require Floats.
Import ListNotations.

Open Scope list_scope.
Open Scope string_scope.

(** ** JavaScript string primitives *)

Module Js.

(** [s.toLowerCase()] and [s.toUpperCase()], the case mappings of the
    host. *)
Class CaseFolding : Type := mkCaseFolding {
  toLowerCase : string -> string;
  toUpperCase : string -> string
}.

(** The case mappings on ASCII text. *)
Definition lower_ascii (c : ascii) : ascii :=
  let n := nat_of_ascii c in
  if ((65 <=? n) && (n <=? 90))%nat then ascii_of_nat (n + 32) else c.

Definition upper_ascii (c : ascii) : ascii :=
  let n := nat_of_ascii c in
  if ((97 <=? n) && (n <=? 122))%nat then ascii_of_nat (n - 32) else c.

Fixpoint lowerAscii (s : string) : string :=
  match s with
  | EmptyString => EmptyString
  | String c t => String (lower_ascii c) (lowerAscii t)
  end.

Fixpoint upperAscii (s : string) : string :=
  match s with
  | EmptyString => EmptyString
  | String c t => String (upper_ascii c) (upperAscii t)
  end.

Definition asciiFolding : CaseFolding := mkCaseFolding lowerAscii upperAscii.

(** [s.startsWith(p)] *)
Fixpoint startsWith (s p : string) {struct p} : bool :=
  match p with
  | EmptyString => true
  | String a p' =>
      match s with
      | EmptyString => false
      | String b s' => Ascii.eqb a b && startsWith s' p'
      end
  end.

(** [s.includes(t)]: [t] occurs in [s] at some position. *)
Fixpoint includes (s t : string) : bool :=
  startsWith s t ||
  match s with
  | EmptyString => false
  | String _ s' => includes s' t
  end.

(** [s.substring(0, n)] *)
Fixpoint take (n : nat) (s : string) : string :=
  match n, s with
  | S k, String c t => String c (take k t)
  | _, _ => EmptyString
  end.

Fixpoint drop (n : nat) (s : string) : string :=
  match n, s with
  | S k, String _ t => drop k t
  | _, _ => s
  end.

(** [s.replace(/c/g, rep)] for a one-character pattern. *)
Fixpoint replaceChar (c : ascii) (rep : string) (s : string) : string :=
  match s with
  | EmptyString => EmptyString
  | String a t =>
      (if Ascii.eqb a c then rep else String a EmptyString)
        ++ replaceChar c rep t
  end.

(** [s.split(sep)] for a non-empty separator.  [skip] counts the
    characters of a separator just matched that are still to be passed
    over; [cur] is the piece being accumulated. *)
Fixpoint split_go (sep s : string) (skip : nat) (cur : string)
  : list string :=
  match s with
  | EmptyString => [cur]
  | String c t =>
      match skip with
      | S k => split_go sep t k cur
      | O =>
          if startsWith s sep
          then cur :: split_go sep t (String.length sep - 1) EmptyString
          else split_go sep t 0 (cur ++ String c EmptyString)
      end
  end.

Definition split (s sep : string) : list string := split_go sep s 0 EmptyString.

(** [pieces.join(sep)] *)
Fixpoint join (sep : string) (pieces : list string) : string :=
  match pieces with
  | [] => EmptyString
  | [p] => p
  | p :: rest => p ++ sep ++ join sep rest
  end.

(** [v || ''] on an optional string: [undefined] and the empty string are
    both falsy. *)
Definition orEmpty (v : option string) : string :=
  match v with
  | Some s => s
  | None => EmptyString
  end.

(** [t] occurs in [s]. *)
Definition Substring (t s : string) : Prop :=
  exists pre post, s = pre ++ t ++ post.

End Js.

(** ** useAnalyzer.ts: the response matcher *)

(** One entry of the uploaded answer corpus.  The file is parsed with
    [JSON.parse] and never validated, so either field may be missing. *)
Record CorpusItem : Type := mkItem {
  item_prompt : option string;
  item_response : option string
}.

Section CaseInsensitive.

Context {folding : Js.CaseFolding}.

(** The test of the loop body of [findMatchingGPTResponse]. *)
Definition itemMatches (lowerPrompt : string) (item : CorpusItem) : bool :=
  let itemPrompt := Js.toLowerCase (Js.orEmpty (item_prompt item)) in
  Js.includes itemPrompt lowerPrompt || Js.includes lowerPrompt itemPrompt.

Fixpoint findMatching_loop (lowerPrompt : string) (jsonData : list CorpusItem)
  : string :=
  match jsonData with
  | [] => EmptyString
  | item :: rest =>
      if itemMatches lowerPrompt item
      then Js.orEmpty (item_response item)
      else findMatching_loop lowerPrompt rest
  end.

Definition findMatchingGPTResponse (prompt : string) (jsonData : list CorpusItem)
  : string :=
  let lowerPrompt := Js.toLowerCase prompt in
  findMatching_loop lowerPrompt jsonData.

(** The symmetric, case-insensitive substring test in the words of the
    specification: the recorded query occurs in the prompt, or the prompt
    occurs in the recorded query, both taken in lower case. *)
Definition SymmetricMatch (prompt : string) (item : CorpusItem) : Prop :=
  let query := Js.toLowerCase (Js.orEmpty (item_prompt item)) in
  Js.Substring query (Js.toLowerCase prompt)
  \/ Js.Substring (Js.toLowerCase prompt) query.

(** ** AnalysisResults.tsx: intent classification *)

Inductive IntentType : Type :=
  | Informational | Transactional | Navigational | Mixed.

Definition transactionalKeywords : list string :=
  ["buy"; "book"; "cheap"; "price"; "ticket"; "online"; "purchase"].
Definition informationalKeywords : list string :=
  ["how"; "what"; "when"; "schedule"; "duration"; "route"; "info"].
Definition navigationalKeywords : list string :=
  ["trainline"; "website"; "official"; "login"; "account"].

(** [keywords.filter(kw => text.includes(kw)).length] *)
Definition keywordCount (keywords : list string) (text : string) : nat :=
  List.length (filter (fun kw => Js.includes text kw) keywords).

Definition intentText (prompt pageText : string) : string :=
  Js.toLowerCase (prompt ++ " " ++ pageText).

Definition classifyIntent (prompt pageText : string) : IntentType :=
  let text := intentText prompt pageText in
  let transactionalCount := keywordCount transactionalKeywords text in
  let informationalCount := keywordCount informationalKeywords text in
  let navigationalCount := keywordCount navigationalKeywords text in
  if ((0 <? transactionalCount) && (0 <? informationalCount))%nat then Mixed
  else if ((informationalCount <? transactionalCount)
           && (navigationalCount <? transactionalCount))%nat then Transactional
  else if (navigationalCount <? informationalCount)%nat then Informational
  else Navigational.

End CaseInsensitive.

(** ** JavaScript numbers *)

Module JsNum.

Local Open Scope R_scope.

(** A number is NaN, plus or minus infinity, or a real. *)
Inductive number : Type :=
  | NaN
  | Infinity (negative : bool)
  | Num (r : R).

Definition neg (x : number) : number :=
  match x with
  | NaN => NaN
  | Infinity s => Infinity (negb s)
  | Num a => Num (- a)
  end.

(** [x + y]: opposite infinities cancel to NaN. *)
Definition add (x y : number) : number :=
  match x, y with
  | NaN, _ | _, NaN => NaN
  | Infinity s, Infinity u => if Bool.eqb s u then Infinity s else NaN
  | Infinity s, Num _ | Num _, Infinity s => Infinity s
  | Num a, Num b => Num (a + b)
  end.

Definition sub (x y : number) : number := add x (neg y).

(** An infinity of sign [s] times the real [r]. *)
Definition scaleInfinity (s : bool) (r : R) : number :=
  if Req_dec_T r 0 then NaN
  else if Rlt_dec r 0 then Infinity (negb s) else Infinity s.

Definition mul (x y : number) : number :=
  match x, y with
  | NaN, _ | _, NaN => NaN
  | Infinity s, Infinity u => Infinity (xorb s u)
  | Infinity s, Num r | Num r, Infinity s => scaleInfinity s r
  | Num a, Num b => Num (a * b)
  end.

(** [x / y]: [0 / 0] is NaN, any other real over zero is an infinity. *)
Definition div (x y : number) : number :=
  match x, y with
  | NaN, _ | _, NaN => NaN
  | Infinity _, Infinity _ => NaN
  | Infinity s, Num r => if Rlt_dec r 0 then Infinity (negb s) else Infinity s
  | Num _, Infinity _ => Num 0
  | Num a, Num b =>
      if Req_dec_T b 0
      then if Req_dec_T a 0 then NaN
           else Infinity (if Rlt_dec a 0 then true else false)
      else Num (a / b)
  end.

(** [Math.sqrt] *)
Definition sqrt (x : number) : number :=
  match x with
  | NaN => NaN
  | Infinity true => NaN
  | Infinity false => Infinity false
  | Num a => if Rlt_dec a 0 then NaN else Num (R_sqrt.sqrt a)
  end.

(** [Math.min] of two arguments: NaN as soon as one argument is. *)
Definition min (x y : number) : number :=
  match x, y with
  | NaN, _ | _, NaN => NaN
  | Infinity true, _ | _, Infinity true => Infinity true
  | Infinity false, z | z, Infinity false => z
  | Num a, Num b => Num (Rmin a b)
  end.

(** [x <= y] and [x < y]: false as soon as one side is NaN. *)
Definition le (x y : number) : Prop :=
  match x, y with
  | NaN, _ | _, NaN => False
  | Infinity true, _ | _, Infinity false => True
  | Infinity false, _ | _, Infinity true => False
  | Num a, Num b => a <= b
  end.

Definition lt (x y : number) : Prop :=
  match x, y with
  | NaN, _ | _, NaN => False
  | Infinity s, Infinity u => s = true /\ u = false
  | Infinity s, Num _ => s = true
  | Num _, Infinity u => u = false
  | Num a, Num b => a < b
  end.

(** The array length [n] as a number. *)
Definition ofNat (n : nat) : number := Num (INR n).

End JsNum.

Abbreviation number := JsNum.number.
Abbreviation NaN := JsNum.NaN.
Abbreviation Infinity := JsNum.Infinity.
Abbreviation Num := JsNum.Num.

Declare Scope js_scope.
Delimit Scope js_scope with js.
Infix "+" := JsNum.add : js_scope.
Infix "-" := JsNum.sub : js_scope.
Infix "*" := JsNum.mul : js_scope.
Infix "/" := JsNum.div : js_scope.
Infix "<=" := JsNum.le : js_scope.
Infix "<" := JsNum.lt : js_scope.

(** ** AnalysisResults.tsx: the result record and the priority score *)

Record AnalysisResult : Type := mkResult {
  url : string;
  prompt : string;
  pageText : string;
  gptAnswer : string;
  similarity : number;
  urlPattern : option string;
  matchFound : option bool;
  idealPrompt : option string;
  intentType : option IntentType;
  priorityScore : option number;
  keywordGaps : option (list string);
  entityMismatch : option bool;
  sentenceStructureIssue : option bool
}.

(** Truthiness of an optional boolean field. *)
Definition truthy (b : option bool) : bool :=
  match b with
  | Some true => true
  | _ => false
  end.

Definition isIntent (i : IntentType) (v : option IntentType) : bool :=
  match v, i with
  | Some Informational, Informational
  | Some Transactional, Transactional
  | Some Navigational, Navigational
  | Some Mixed, Mixed => true
  | _, _ => false
  end.

(** The body of [calculatePriorityScore], one [let] for each statement
    that updates [score]. *)
Definition calculatePriorityScore (result : AnalysisResult) : number :=
  let score := Num 50 in
  let score := (score + (Num 1 - similarity result) * Num 40)%js in
  let score :=
    if isIntent Transactional (intentType result) then (score + Num 20)%js else score in
  let score :=
    if isIntent Mixed (intentType result) then (score + Num 15)%js else score in
  let score :=
    match keywordGaps result with
    | Some gaps =>
        if (0 <? List.length gaps)%nat
        then (score + JsNum.ofNat (List.length gaps) * Num 5)%js
        else score
    | None => score
    end in
  let score := if truthy (entityMismatch result) then (score + Num 15)%js else score in
  let score :=
    if truthy (sentenceStructureIssue result) then (score + Num 10)%js else score in
  JsNum.min score (Num 100).

(** The priority score in the words of the specification: the minimum of
    100 and the sum of the base, the similarity term and the five
    increments, an increment that does not apply counting as zero. *)
Definition gapCount (result : AnalysisResult) : nat :=
  match keywordGaps result with
  | Some gaps => List.length gaps
  | None => 0
  end.

Definition increment (applies : bool) (points : R) : number :=
  if applies then Num points else Num 0.

Definition priorityFormula (result : AnalysisResult) : number :=
  JsNum.min (Num 100)
    (Num 50
     + (Num 1 - similarity result) * Num 40
     + increment (isIntent Transactional (intentType result)) 20
     + increment (isIntent Mixed (intentType result)) 15
     + Num 5 * JsNum.ofNat (gapCount result)
     + increment (truthy (entityMismatch result)) 15
     + increment (truthy (sentenceStructureIssue result)) 10)%js.

(** The result [r] with its similarity replaced, everything else kept. *)
Definition withSimilarity (r : AnalysisResult) (s : number) : AnalysisResult :=
  mkResult (url r) (prompt r) (pageText r) (gptAnswer r) s (urlPattern r)
    (matchFound r) (idealPrompt r) (intentType r) (priorityScore r)
    (keywordGaps r) (entityMismatch r) (sentenceStructureIssue r).

(** The sum of the increments that do not depend on the similarity. *)
Definition fixedIncrements (r : AnalysisResult) : R :=
  ((if isIntent Transactional (intentType r) then 20 else 0)
   + (if isIntent Mixed (intentType r) then 15 else 0)
   + 5 * INR (gapCount r)
   + (if truthy (entityMismatch r) then 15 else 0)
   + (if truthy (sentenceStructureIssue r) then 10 else 0))%R.

(** Two results used as concrete inputs below. *)
Definition sampleResult : AnalysisResult :=
  mkResult "https://example.com/train-times/london-to-paris/"
    "cheapest london to paris train tickets online" "page" "answer"
    (Num 0) None None None (Some Transactional) None (Some []) (Some true)
    (Some false).


(** ** useAnalyzer.ts: the similarity engine *)

(** An embedding vector: an array of finite numbers. *)
Definition vector : Type := list R.

(** [b[i]] used as a number: reading past the end gives [undefined],
    which arithmetic turns into NaN. *)
Definition at_index (b : vector) (i : nat) : number :=
  match nth_error b i with
  | Some v => Num v
  | None => NaN
  end.

(** [a.reduce((sum, val, i) => f(sum, val, i), init)], the callback
    receiving the index of the element. *)
Fixpoint reduce_from (f : number -> R -> nat -> number) (a : vector)
  (i : nat) (sum : number) : number :=
  match a with
  | [] => sum
  | val :: rest => reduce_from f rest (S i) (f sum val i)
  end.

Definition reduce (f : number -> R -> nat -> number) (a : vector)
  (init : number) : number :=
  reduce_from f a 0 init.

Definition dotProduct (a b : vector) : number :=
  reduce (fun sum val i => (sum + Num val * at_index b i)%js) a (Num 0).

Definition sumOfSquares (a : vector) : number :=
  reduce (fun sum val _ => (sum + Num val * Num val)%js) a (Num 0).

Definition magnitude (a : vector) : number := JsNum.sqrt (sumOfSquares a).

Definition cosineSimilarity (a b : vector) : number :=
  let dotProduct := dotProduct a b in
  let magnitudeA := magnitude a in
  let magnitudeB := magnitude b in
  (dotProduct / (magnitudeA * magnitudeB))%js.

(** The real dot product of two vectors, used to state what the
    reductions compute on vectors of equal length. *)
Fixpoint dot (a b : vector) : R :=
  match a, b with
  | x :: a', y :: b' => (x * y + dot a' b')%R
  | _, _ => 0%R
  end.

(** ** The same functions on binary64 numbers *)

(** A number of the program is an IEEE 754 binary64 value.  The priority
    score and the similarity engine are transcribed here over the
    primitive floats, operator for operator, for the statements that
    rounding, underflow or overflow decide. *)
Module Double.

Import Floats.
Local Open Scope float_scope.

(** The array length [n] as a number. *)
Definition ofNat (n : nat) : float := PrimFloat.of_uint63 (Uint63.of_Z (Z.of_nat n)).

(** [Math.min] of two arguments: NaN as soon as one argument is, and the
    negative zero below the positive one. *)
Definition min (x y : float) : float :=
  if PrimFloat.is_nan x || PrimFloat.is_nan y then nan
  else if PrimFloat.ltb x y then x
  else if PrimFloat.ltb y x then y
  else if PrimFloat.get_sign x then x else y.

(** The body of [calculatePriorityScore]; the similarity is passed beside
    the record, whose other fields hold no number that enters the
    score. *)
Definition calculatePriorityScore (similarity : float) (result : AnalysisResult)
  : float :=
  let score := 50 in
  let score := score + (1 - similarity) * 40 in
  let score :=
    if isIntent Transactional (intentType result) then score + 20 else score in
  let score :=
    if isIntent Mixed (intentType result) then score + 15 else score in
  let score :=
    match keywordGaps result with
    | Some gaps =>
        if (0 <? List.length gaps)%nat
        then score + ofNat (List.length gaps) * 5
        else score
    | None => score
    end in
  let score := if truthy (entityMismatch result) then score + 15 else score in
  let score :=
    if truthy (sentenceStructureIssue result) then score + 10 else score in
  min score 100.

Definition vector : Type := list float.

(** [b[i]] used as a number: [undefined], read past the end, is NaN in
    arithmetic. *)
Definition at_index (b : vector) (i : nat) : float := nth i b nan.

Fixpoint reduce_from (f : float -> float -> nat -> float) (a : vector)
  (i : nat) (sum : float) : float :=
  match a with
  | [] => sum
  | val :: rest => reduce_from f rest (S i) (f sum val i)
  end.

Definition reduce (f : float -> float -> nat -> float) (a : vector)
  (init : float) : float :=
  reduce_from f a 0 init.

Definition dotProduct (a b : vector) : float :=
  reduce (fun sum val i => sum + val * at_index b i) a 0.

Definition sumOfSquares (a : vector) : float :=
  reduce (fun sum val _ => sum + val * val) a 0.

Definition magnitude (a : vector) : float := PrimFloat.sqrt (sumOfSquares a).

Definition cosineSimilarity (a b : vector) : float :=
  let dotProduct := dotProduct a b in
  let magnitudeA := magnitude a in
  let magnitudeB := magnitude b in
  dotProduct / (magnitudeA * magnitudeB).

(** The similarity as the specification words it, for two vectors of
    one length: the dot product, that is the sum of the products of the
    components taken pairwise and added from left to right, over the
    product of the two magnitudes, the magnitude of a vector being the
    square root of its dot product with itself. *)
Definition products (a b : vector) : list float :=
  map (fun pair => fst pair * snd pair) (combine a b).

Definition inner (a b : vector) : float :=
  fold_left PrimFloat.add (products a b) 0.

Definition norm (a : vector) : float := PrimFloat.sqrt (inner a a).

Definition cosine (a b : vector) : float := inner a b / (norm a * norm b).

(** A zero of either sign; a zero or NaN. *)
Definition IsZero (x : float) : Prop := exists s, Prim2SF x = S754_zero s.

Definition ZeroOrNaN (x : float) : Prop :=
  match Prim2SF x with
  | S754_zero _ | S754_nan => True
  | _ => False
  end.

Definition tiny : float := 0x1p-600.
Definition huge : float := 0x1p600.

End Double.

(** ** useAnalyzer.ts: the prompt deriver *)

Definition routeMarker : string := "train-times/".
Definition routeSeparator : string := "-to-".

(** [[^\/]+] read greedily: the longest prefix without a slash. *)
Fixpoint takeSegment (s : string) : string :=
  match s with
  | EmptyString => EmptyString
  | String c t => if Ascii.eqb c "/" then EmptyString else String c (takeSegment t)
  end.

(** The regular expression [/train-times\/([^\/]+)/] tried at the start
    of [s]: the capture group when it matches there. *)
Definition matchAt (s : string) : option string :=
  if Js.startsWith s routeMarker
  then match takeSegment (Js.drop (String.length routeMarker) s) with
       | EmptyString => None
       | String c t => Some (String c t)
       end
  else None.

(** [url.match(/train-times\/([^\/]+)/)]: the capture group of the
    leftmost match, [None] for the [null] of a failed match. *)
Fixpoint matchRoute (url : string) : option string :=
  match matchAt url with
  | Some capture => Some capture
  | None =>
      match url with
      | EmptyString => None
      | String _ t => matchRoute t
      end
  end.

(** A destructured array element inside a template literal: a missing
    element prints as [undefined]. *)
Definition interpolate (v : option string) : string :=
  match v with
  | Some s => s
  | None => "undefined"
  end.

Section PromptDeriver.

Context {folding : Js.CaseFolding}.

Definition extractRoutePrompt (url : string) : string :=
  match matchRoute url with
  | None => EmptyString
  | Some capture =>
      let route := Js.toLowerCase (Js.replaceChar "/" EmptyString capture) in
      if negb (Js.includes route routeSeparator) then EmptyString
      else
        let parts := Js.split route routeSeparator in
        let origin := nth_error parts 0 in
        let dest := nth_error parts 1 in
        "cheapest " ++ interpolate origin ++ " to " ++ interpolate dest
          ++ " train tickets online"
  end.

End PromptDeriver.

(** The vocabulary of the specification.  [SegmentAt url pre slug post]:
    the URL reads [pre], the marker, a non-empty slug without a slash, and
    [post], which is empty or starts with a slash. *)
Definition SegmentAt (url pre slug post : string) : Prop :=
  url = pre ++ routeMarker ++ slug ++ post
  /\ slug <> EmptyString
  /\ ~ Js.Substring "/" slug
  /\ (post = EmptyString \/ exists post', post = String "/" post').

(** [slug] is the slug of the first [train-times/<slug>] segment. *)
Definition FirstSegment (url slug : string) : Prop :=
  exists pre post,
    SegmentAt url pre slug post
    /\ forall pre' slug' post',
         SegmentAt url pre' slug' post' -> String.length pre <= String.length pre'.

(** [s] reads [token], the separator, [rest], and the separator does not
    occur earlier in [s]. *)
Definition FirstSplit (sep s token rest : string) : Prop :=
  s = token ++ sep ++ rest
  /\ forall p q, s = p ++ sep ++ q -> String.length token <= String.length p.

(** [token] is the first piece of [s] cut at the separator: all of [s]
    when the separator does not occur in it. *)
Definition FirstToken (sep s token : string) : Prop :=
  (~ Js.Substring sep s /\ token = s)
  \/ exists rest, FirstSplit sep s token rest.

(** ** useAnalyzer.ts: the result exporter *)

Definition dquote : ascii := "034"%char.
Definition newline : ascii := "010"%char.

(** What [exportResults] hands to the browser: the blob and the name of
    the file offered for download. *)
Record Download : Type := mkDownload {
  download_name : string;
  download_type : string;
  download_content : string
}.

Section Exporter.

(** [x.toFixed(4)], the decimal rendering of a number, is a browser
    builtin; [today] stands for [new Date().toISOString().split('T')[0]]. *)
Variable toFixed4 : number -> string.
Variable today : string.

Definition csvHeader : list string :=
  ["URL"; "Prompt"; "Page Text (truncated)"; "GPT Answer (truncated)";
   "Cosine Similarity"].

(** The global replacement of the double-quote character by two of
    them. *)
Definition doubleQuotes (text : string) : string :=
  Js.replaceChar dquote (String dquote (String dquote EmptyString)) text.

Definition csvCells (r : AnalysisResult) : list string :=
  [url r; prompt r; doubleQuotes (pageText r); doubleQuotes (gptAnswer r);
   toFixed4 (similarity r)].

(** The template literal that wraps a cell in double quotes. *)
Definition quoteCell (cell : string) : string :=
  String dquote (cell ++ String dquote EmptyString).

Definition csvRow (row : list string) : string :=
  Js.join "," (map quoteCell row).

Definition csvRows (results : list AnalysisResult) : list string :=
  map csvRow (csvHeader :: map csvCells results).

Definition csvContent (results : list AnalysisResult) : string :=
  Js.join (String newline EmptyString) (csvRows results).

(** [None]: the early return, nothing is created or downloaded. *)
Definition exportResults (results : list AnalysisResult) : option Download :=
  if (List.length results =? 0)%nat then None
  else Some (mkDownload ("similarity_analysis_" ++ today ++ ".csv")
                        "text/csv" (csvContent results)).

End Exporter.

(** [QuotesDoubled text out]: [out] is [text] with every double-quote
    character written twice and every other character kept. *)
Inductive QuotesDoubled : string -> string -> Prop :=
  | QuotesDoubled_end : QuotesDoubled EmptyString EmptyString
  | QuotesDoubled_quote text out :
      QuotesDoubled text out ->
      QuotesDoubled (String dquote text) (String dquote (String dquote out))
  | QuotesDoubled_other c text out :
      c <> dquote ->
      QuotesDoubled text out ->
      QuotesDoubled (String c text) (String c out).

(** The records of a quoted delimited text: a line break ends a record
    unless it stands inside a quoted field.  [inQuotes] is flipped by
    every double-quote character, [cur] is the record being read. *)
Fixpoint records_go (text : string) (inQuotes : bool) (cur : string)
  : list string :=
  match text with
  | EmptyString => [cur]
  | String c rest =>
      if Ascii.eqb c dquote
      then records_go rest (negb inQuotes) (cur ++ String c EmptyString)
      else if Ascii.eqb c newline && negb inQuotes
      then cur :: records_go rest false EmptyString
      else records_go rest inQuotes (cur ++ String c EmptyString)
  end.

Definition records (text : string) : list string :=
  records_go text false EmptyString.

(** The quoting state after reading [text] from state [inQuotes], or
    [None] when a line break outside quotes ends a record on the way. *)
Fixpoint quoteState (text : string) (inQuotes : bool) : option bool :=
  match text with
  | EmptyString => Some inQuotes
  | String c rest =>
      if Ascii.eqb c dquote then quoteState rest (negb inQuotes)
      else if Ascii.eqb c newline && negb inQuotes then None
      else quoteState rest inQuotes
  end.

(** A cell body that leaves a reader inside the quoted field it is in. *)
Definition StaysQuoted (cell : string) : Prop := quoteState cell true = Some true.

Definition NoQuote (s : string) : Prop :=
  ~ Js.Substring (String dquote EmptyString) s.

(** A result whose unescaped cells hold no double quote: the URL (the
    input normaliser strips quotes), the prompt and the rendered
    similarity. *)
Definition PlainCells (toFixed4 : number -> string) (r : AnalysisResult) : Prop :=
  NoQuote (url r) /\ NoQuote (prompt r) /\ NoQuote (toFixed4 (similarity r)).

(** The exported text in the words of the specification.  A cell is
    written between two double quotes; the header line is fixed; the
    line of a result holds its URL, its prompt, its page text and its
    answer with every double quote doubled, and its similarity with four
    decimals. *)
Definition inQuotes (cell : string) : string :=
  String dquote cell ++ String dquote EmptyString.

Definition headerLine : string :=
  inQuotes "URL" ++ "," ++ inQuotes "Prompt" ++ ","
    ++ inQuotes "Page Text (truncated)" ++ ","
    ++ inQuotes "GPT Answer (truncated)" ++ "," ++ inQuotes "Cosine Similarity".

Definition ResultLine (toFixed4 : number -> string) (r : AnalysisResult)
  (line : string) : Prop :=
  exists page answer,
    QuotesDoubled (pageText r) page
    /\ QuotesDoubled (gptAnswer r) answer
    /\ line = inQuotes (url r) ++ "," ++ inQuotes (prompt r) ++ ","
                ++ inQuotes page ++ "," ++ inQuotes answer ++ ","
                ++ inQuotes (toFixed4 (similarity r)).

(** ** More JavaScript string primitives *)

Module JsText.

(** White space as [trim] and the class [\s] see it, among 8-bit
    characters: tab, line feed, vertical tab, form feed, carriage return,
    space and the no-break space. *)
Definition isWhitespace (c : ascii) : bool :=
  let n := nat_of_ascii c in
  ((9 <=? n) && (n <=? 13) || (n =? 32) || (n =? 160))%nat.

Definition isEmpty (s : string) : bool :=
  match s with
  | EmptyString => true
  | String _ _ => false
  end.

Fixpoint trimStart (s : string) : string :=
  match s with
  | EmptyString => EmptyString
  | String c t => if isWhitespace c then trimStart t else s
  end.

Fixpoint trimEnd (s : string) : string :=
  match s with
  | EmptyString => EmptyString
  | String c t =>
      let t' := trimEnd t in
      if isWhitespace c && isEmpty t' then EmptyString else String c t'
  end.

(** [s.trim()] *)
Definition trim (s : string) : string := trimStart (trimEnd s).

(** [s.split(/\s+/)]: the pieces between maximal runs of white space.
    [inRun] tells that the previous character was white space. *)
Fixpoint splitWhitespace_go (s : string) (inRun : bool) (cur : string)
  : list string :=
  match s with
  | EmptyString => [cur]
  | String c t =>
      if isWhitespace c
      then if inRun then splitWhitespace_go t true cur
           else cur :: splitWhitespace_go t true EmptyString
      else splitWhitespace_go t false (cur ++ String c EmptyString)
  end.

Definition splitWhitespace (s : string) : list string :=
  splitWhitespace_go s false EmptyString.

(** [s.charAt(0)]: the first code unit as a string, the empty string
    when there is none. *)
Definition charAt0 (s : string) : string :=
  match s with
  | EmptyString => EmptyString
  | String c _ => String c EmptyString
  end.

(** [s.charAt(0).toUpperCase() + s.slice(1)] *)
Definition capitalize {folding : Js.CaseFolding} (s : string) : string :=
  Js.toUpperCase (charAt0 s) ++ Js.drop 1 s.

(** [s.replace(pattern, rep)] for a string pattern: the first occurrence
    only. *)
Fixpoint replaceFirst (s pattern rep : string) : string :=
  if Js.startsWith s pattern
  then rep ++ Js.drop (String.length pattern) s
  else match s with
       | EmptyString => EmptyString
       | String c t => String c (replaceFirst t pattern rep)
       end.

(** [words.includes(word)] on an array of strings. *)
Definition includesWord (words : list string) (word : string) : bool :=
  existsb (String.eqb word) words.

End JsText.

(** ** useAnalyzer.ts: the input normaliser *)

(** [lines.slice(1, 6)] *)
Definition slice_1_6 {A : Type} (lines : list A) : list A := firstn 5 (skipn 1 lines).

(** The first field of a row, trimmed, with its quotes removed.
    [split] never returns an empty array, so [[0]] is always there. *)
Definition firstField (line : string) : string :=
  Js.replaceChar dquote EmptyString
    (JsText.trim (hd EmptyString (Js.split line ","))).

(** [parseCSV], applied to the text of the file. *)
Definition parseCSV (text : string) : list string :=
  let lines :=
    filter (fun line => negb (JsText.isEmpty (JsText.trim line)))
      (Js.split text (String newline EmptyString)) in
  map firstField (slice_1_6 lines).

(** [c] occurs in [s]. *)
Definition hasChar (c : ascii) (s : string) : bool :=
  Js.includes s (String c EmptyString).


(** ** AnalysisResults.tsx: the rest of the diagnostics *)

(** Comparisons of numbers as the dashboard writes them: false as soon
    as one side is NaN. *)
Module JsOrder.

Definition geb (x y : number) : bool :=
  match x, y with
  | JsNum.NaN, _ | _, JsNum.NaN => false
  | JsNum.Infinity false, _ | _, JsNum.Infinity true => true
  | JsNum.Infinity true, _ | _, JsNum.Infinity false => false
  | JsNum.Num a, JsNum.Num b => if Rle_dec b a then true else false
  end.

Definition ltb (x y : number) : bool :=
  match x, y with
  | JsNum.NaN, _ | _, JsNum.NaN => false
  | JsNum.Infinity s, JsNum.Infinity u => s && negb u
  | JsNum.Infinity s, JsNum.Num _ => s
  | JsNum.Num _, JsNum.Infinity u => negb u
  | JsNum.Num a, JsNum.Num b => if Rlt_dec a b then true else false
  end.

(** [Number.isNaN] *)
Definition isNaN (x : number) : bool :=
  match x with
  | JsNum.NaN => true
  | _ => false
  end.

End JsOrder.

Record SimilarityLabel : Type := mkLabel {
  label : string;
  color : string;
  icon : string
}.

Definition getSimilarityLabel (score : number) : SimilarityLabel :=
  if JsOrder.geb score (Num 0.8) then mkLabel "Excellent" "success" "CheckCircle"
  else if JsOrder.geb score (Num 0.7) then mkLabel "Good" "info" "TrendingUp"
  else if JsOrder.geb score (Num 0.6) then mkLabel "Fair" "warning" "AlertTriangle"
  else mkLabel "Poor" "destructive" "AlertTriangle".

Section Diagnostics.

Context {folding : Js.CaseFolding}.

Record RouteData : Type := mkRouteData {
  rd_origin : string;
  rd_destination : string;
  rd_route : string
}.

(** [extractRouteData]; [None] stands for the [TypeError] that reading
    [charAt] of a missing array element would raise. *)
Definition extractRouteData_checked (url : string) : option RouteData :=
  match matchRoute url with
  | None => Some (mkRouteData "Unknown" "Unknown" "unknown")
  | Some capture =>
      let route := Js.toLowerCase (Js.replaceChar "/" EmptyString capture) in
      if negb (Js.includes route routeSeparator)
      then Some (mkRouteData "Unknown" "Unknown" route)
      else
        let parts := Js.split route routeSeparator in
        match nth_error parts 0, nth_error parts 1 with
        | Some origin, Some destination =>
            Some (mkRouteData (JsText.capitalize origin)
                    (JsText.capitalize destination) route)
        | _, _ => None
        end
  end.

(** The route data: the check above never fails, since a route that
    holds the separator splits into two pieces at least. *)
Definition extractRouteData (url : string) : RouteData :=
  match extractRouteData_checked url with
  | Some data => data
  | None => mkRouteData "Unknown" "Unknown" "unknown"
  end.

Definition northernCities : list string :=
  ["manchester"; "birmingham"; "liverpool"; "leeds"; "sheffield"; "newcastle"].
Definition scottishCities : list string :=
  ["glasgow"; "edinburgh"; "aberdeen"; "dundee"].

Definition getRegion (location : string) : string :=
  if Js.includes (Js.toLowerCase location) "london" then "London"
  else if existsb (fun city => Js.includes (Js.toLowerCase location) city)
            scottishCities then "Scotland"
  else if existsb (fun city => Js.includes (Js.toLowerCase location) city)
            northernCities then "Northern England"
  else "Other".

Definition criticalKeywords : list string :=
  ["book"; "cheap"; "price"; "ticket"; "eurostar"; "omio"; "trainline";
   "schedule"; "journey"].

(** The pound sign, as one 8-bit character. *)
Definition pound : string := String "163"%char EmptyString.

(** [/price|cost|£|\$|fare|cheap|expensive/.test(text)] *)
Definition hasPricing (text : string) : bool :=
  existsb (Js.includes text)
    ["price"; "cost"; pound; "$"; "fare"; "cheap"; "expensive"].

(** [/you can travel|journey from|route between/.test(text)] *)
Definition hasVague (text : string) : bool :=
  existsb (Js.includes text) ["you can travel"; "journey from"; "route between"].

Record SemanticGaps : Type := mkGaps {
  sg_keywordGaps : list string;
  sg_entityMismatch : bool;
  sg_sentenceStructureIssue : bool
}.

Definition analyzeSemanticGaps (pageText gptAnswer : string) : SemanticGaps :=
  let pageWords := JsText.splitWhitespace (Js.toLowerCase pageText) in
  let gptWords := JsText.splitWhitespace (Js.toLowerCase gptAnswer) in
  let keywordGaps :=
    filter (fun keyword => JsText.includesWord gptWords keyword
                           && negb (JsText.includesWord pageWords keyword))
      criticalKeywords in
  let pageHasTrainline := Js.includes (Js.toLowerCase pageText) "trainline" in
  let pageHasEurostar := Js.includes (Js.toLowerCase pageText) "eurostar" in
  let pageHasOmio := Js.includes (Js.toLowerCase pageText) "omio" in
  let gptHasTrainline := Js.includes (Js.toLowerCase gptAnswer) "trainline" in
  let gptHasEurostar := Js.includes (Js.toLowerCase gptAnswer) "eurostar" in
  let gptHasOmio := Js.includes (Js.toLowerCase gptAnswer) "omio" in
  let entityMismatch :=
    (gptHasEurostar && pageHasTrainline)
    || (gptHasOmio && pageHasTrainline)
    || (gptHasTrainline && (pageHasEurostar || pageHasOmio)) in
  let pageHasPricing := hasPricing (Js.toLowerCase pageText) in
  let gptHasPricing := hasPricing (Js.toLowerCase gptAnswer) in
  let pageHasVague := hasVague (Js.toLowerCase pageText) in
  let sentenceStructureIssue :=
    negb pageHasPricing && gptHasPricing && pageHasVague in
  mkGaps keywordGaps entityMismatch sentenceStructureIssue.

(** [v || fallback] on an optional string. *)
Definition orElse (v : option string) (fallback : string) : string :=
  match v with
  | Some (String c t) => String c t
  | _ => fallback
  end.

(** [enhanced.priorityScore = score] *)
Definition setPriorityScore (r : AnalysisResult) (score : number) : AnalysisResult :=
  mkResult (url r) (prompt r) (pageText r) (gptAnswer r) (similarity r)
    (urlPattern r) (matchFound r) (idealPrompt r) (intentType r) (Some score)
    (keywordGaps r) (entityMismatch r) (sentenceStructureIssue r).

(** The callback of [results.map] that builds [enhancedResults]. *)
Definition enhanceResult (result : AnalysisResult) : AnalysisResult :=
  let semanticAnalysis := analyzeSemanticGaps (pageText result) (gptAnswer result) in
  let intent := classifyIntent (prompt result) (pageText result) in
  let found :=
    negb (JsText.isEmpty (prompt result)) && negb (JsText.isEmpty (gptAnswer result)) in
  let ideal :=
    orElse (urlPattern result)
      (JsText.replaceFirst (rd_route (extractRouteData (url result))) "-" " ") in
  let enhanced :=
    mkResult (url result) (prompt result) (pageText result) (gptAnswer result)
      (similarity result) (urlPattern result) (Some found) (Some ideal)
      (Some intent) (Some (Num 0))
      (Some (sg_keywordGaps semanticAnalysis))
      (Some (sg_entityMismatch semanticAnalysis))
      (Some (sg_sentenceStructureIssue semanticAnalysis)) in
  setPriorityScore enhanced (calculatePriorityScore enhanced).

(** [r.priorityScore!] read as a number: a missing score compares as NaN. *)
Definition scoreOf (r : AnalysisResult) : number :=
  match priorityScore r with
  | Some score => score
  | None => NaN
  end.

(** [list.filter(test).length] *)
Definition countIf {A : Type} (test : A -> bool) (l : list A) : nat :=
  List.length (filter test l).

Record PriorityBuckets : Type := mkBuckets {
  fixNow : nat;
  fixLater : nat;
  monitor : nat
}.

Definition priorityBuckets (enhancedResults : list AnalysisResult) : PriorityBuckets :=
  mkBuckets
    (countIf (fun r => JsOrder.geb (scoreOf r) (Num 80)) enhancedResults)
    (countIf (fun r => JsOrder.geb (scoreOf r) (Num 60)
                       && JsOrder.ltb (scoreOf r) (Num 80)) enhancedResults)
    (countIf (fun r => JsOrder.ltb (scoreOf r) (Num 60)) enhancedResults).

Definition excellent (rs : list AnalysisResult) : nat :=
  countIf (fun r => JsOrder.geb (similarity r) (Num 0.8)) rs.
Definition good (rs : list AnalysisResult) : nat :=
  countIf (fun r => JsOrder.geb (similarity r) (Num 0.7)
                    && JsOrder.ltb (similarity r) (Num 0.8)) rs.
Definition fair (rs : list AnalysisResult) : nat :=
  countIf (fun r => JsOrder.geb (similarity r) (Num 0.6)
                    && JsOrder.ltb (similarity r) (Num 0.7)) rs.
Definition poor (rs : list AnalysisResult) : nat :=
  countIf (fun r => JsOrder.ltb (similarity r) (Num 0.6)) rs.

(** The results whose similarity is NaN. *)
Definition undefinedSimilarity (rs : list AnalysisResult) : nat :=
  countIf (fun r => JsOrder.isNaN (similarity r)) rs.

(** [criticalIssues]: the results listed under Critical Issues. *)
Definition criticalIssues (rs : list AnalysisResult) : list AnalysisResult :=
  filter (fun r => JsOrder.ltb (similarity r) (Num 0.7)) rs.

End Diagnostics.

(** ** AnalysisResults.tsx: the grouped statistics *)

(** A plain object used as a map from strings: its own properties in
    insertion order, one entry per key. *)
Module JsObject.

(** [obj[key]], [None] for [undefined]. *)
Fixpoint get {V : Type} (key : string) (obj : list (string * V)) : option V :=
  match obj with
  | [] => None
  | (k, v) :: rest => if String.eqb k key then Some v else get key rest
  end.

(** [obj[key] = v]: an existing property keeps its place, a new one is
    added last. *)
Fixpoint set {V : Type} (key : string) (v : V) (obj : list (string * V))
  : list (string * V) :=
  match obj with
  | [] => [(key, v)]
  | (k, old) :: rest =>
      if String.eqb k key then (k, v) :: rest else (k, old) :: set key v rest
  end.

End JsObject.

Section GroupedStatistics.

Context {folding : Js.CaseFolding}.

(** The value of the string union [intentType]; a missing field prints
    as [undefined] when used as a key. *)
Definition intentKey (v : option IntentType) : string :=
  match v with
  | Some Informational => "Informational"
  | Some Transactional => "Transactional"
  | Some Navigational => "Navigational"
  | Some Mixed => "Mixed"
  | None => "undefined"
  end.

(** The reducer of [intentDistribution]:
    [acc[r.intentType] = (acc[r.intentType] || 0) + 1]. *)
Definition countIntent (acc : list (string * nat)) (r : AnalysisResult)
  : list (string * nat) :=
  let key := intentKey (intentType r) in
  let seen := match JsObject.get key acc with
              | Some n => n
              | None => 0
              end in
  JsObject.set key (seen + 1) acc.

Definition intentDistribution (enhancedResults : list AnalysisResult)
  : list (string * nat) :=
  fold_left countIntent enhancedResults [].

Record RouteStats : Type := mkRouteStats {
  rs_routes : list AnalysisResult;
  rs_totalScore : number;
  rs_count : nat
}.

(** The key of a result in [routeAnalysis]. *)
Definition routeKey (result : AnalysisResult) : string :=
  let data := extractRouteData (url result) in
  rd_origin data ++ " to " ++ rd_destination data.

(** The reducer of [routeAnalysis]. *)
Definition addRoute (acc : list (string * RouteStats)) (result : AnalysisResult)
  : list (string * RouteStats) :=
  let key := routeKey result in
  let entry := match JsObject.get key acc with
               | Some entry => entry
               | None => mkRouteStats [] (Num 0) 0
               end in
  JsObject.set key
    (mkRouteStats (rs_routes entry ++ [result])%list
       (rs_totalScore entry + similarity result)%js
       (rs_count entry + 1))
    acc.

Definition routeAnalysis (enhancedResults : list AnalysisResult)
  : list (string * RouteStats) :=
  fold_left addRoute enhancedResults [].

Record RegionStats : Type := mkRegionStats {
  rg_count : number;
  rg_totalScore : number;
  rg_urls : list AnalysisResult
}.

(** The callback of [regions.forEach] in [regionAnalysis]: half a count
    for the region of one end of the route. *)
Definition addRegion (result : AnalysisResult) (acc : list (string * RegionStats))
  (region : string) : list (string * RegionStats) :=
  let entry := match JsObject.get region acc with
               | Some entry => entry
               | None => mkRegionStats (Num 0) (Num 0) []
               end in
  JsObject.set region
    (mkRegionStats (rg_count entry + Num 0.5)%js
       (rg_totalScore entry + similarity result * Num 0.5)%js
       (rg_urls entry ++ [result])%list)
    acc.

(** The regions of the two ends of the route of a result. *)
Definition regionsOf (result : AnalysisResult) : list string :=
  let data := extractRouteData (url result) in
  [getRegion (rd_origin data); getRegion (rd_destination data)].

(** The reducer of [regionAnalysis]. *)
Definition addRegions (acc : list (string * RegionStats)) (result : AnalysisResult)
  : list (string * RegionStats) :=
  fold_left (addRegion result) (regionsOf result) acc.

Definition regionAnalysis (enhancedResults : list AnalysisResult)
  : list (string * RegionStats) :=
  fold_left addRegions enhancedResults [].

(** The results with the key [key], and the route ends that lie in the
    region [region], each with its result, in the order of the list. *)
Definition withRouteKey (key : string) (rs : list AnalysisResult)
  : list AnalysisResult :=
  filter (fun r => String.eqb (routeKey r) key) rs.

Definition endsIn (region : string) (rs : list AnalysisResult)
  : list AnalysisResult :=
  flat_map (fun r => map (fun _ => r)
                       (filter (fun found => String.eqb found region) (regionsOf r)))
    rs.

(** [totalScore] after the results [rs], starting from [start]: in
    [routeAnalysis], and with the halves of [regionAnalysis]. *)
Definition addScores (start : number) (rs : list AnalysisResult) : number :=
  fold_left (fun total r => (total + similarity r)%js) rs start.

Definition addHalfScores (start : number) (rs : list AnalysisResult) : number :=
  fold_left (fun total r => (total + similarity r * Num 0.5)%js) rs start.

End GroupedStatistics.

(** Grouping by a key with a reducer that reads the entry of the key,
    or a default, and writes it back updated: the shape that the
    reducers of the grouped statistics share. *)
Section Grouping.

Context {A V : Type}.
Variable keyOf : A -> string.
Variable empty : V.
Variable update : V -> A -> V.

Definition group (acc : list (string * V)) (a : A) : list (string * V) :=
  JsObject.set (keyOf a)
    (update (match JsObject.get (keyOf a) acc with
             | Some entry => entry
             | None => empty
             end) a)
    acc.

End Grouping.

(** Every character of [s] passes the test [P]. *)
Fixpoint allChars (P : ascii -> bool) (s : string) : bool :=
  match s with
  | EmptyString => true
  | String c t => P c && allChars P t
  end.

(** A lower-case ASCII letter. *)
Definition isLowerLetter (c : ascii) : bool :=
  let n := nat_of_ascii c in ((97 <=? n) && (n <=? 122))%nat.

(** Two facts about the host's [toLowerCase] that a few statements
    assume, each time as a hypothesis: a word of lower-case ASCII
    letters that occurs in a text still occurs in the text in lower
    case, and lower-casing brings no double quote into a text that has
    none.  Both hold of [String.prototype.toLowerCase], which maps an
    ASCII letter to an ASCII letter and no character to a double
    quote. *)
Section FoldingLaws.

Context {folding : Js.CaseFolding}.

Definition LowerKeepsWords : Prop :=
  forall text word,
    allChars isLowerLetter word = true ->
    Js.includes text word = true ->
    Js.includes (Js.toLowerCase text) word = true.


End FoldingLaws.

(** ** useAnalyzer.ts: the embedding provider *)

(** A decoded JSON document. *)
#[warnings="-register-all"]
Inductive json : Type :=
  | JNull
  | JBool (b : bool)
  | JNumber (n : number)
  | JString (s : string)
  | JArray (items : list json)
  | JObject (fields : list (string * json)).

(** A JavaScript value as far as the provider handles one: a JSON value,
    or [None] for [undefined]. *)
Definition value : Type := option json.

(** The request built by [generateEmbedding]. *)
Record Request : Type := mkRequest {
  req_url : string;
  req_method : string;
  req_authorization : string;
  req_contentType : string;
  req_model : string;
  req_input : string
}.

(** What [fetch] resolves to; [resp_body] is [None] when the body is not
    JSON, so that [response.json()] rejects. *)
Record Response : Type := mkResponse {
  resp_ok : bool;
  resp_statusText : string;
  resp_body : option json
}.

Inductive Error : Type :=
  | NetworkError
  | ApiError (message : string)
  | SyntaxError
  | TypeError.

(** The state the provider touches: the requests sent so far, the
    warnings logged so far, and how many draws of [Math.random] were
    made. *)
Record World : Type := mkWorld {
  sent : list Request;
  warnings : list string;
  draws : nat
}.

Inductive Outcome (A : Type) : Type :=
  | Returned (a : A)
  | Thrown (e : Error).
Arguments Returned {A} a.
Arguments Thrown {A} e.

(** Effectful code: a state monad over [World] with exceptions. *)
Definition Eff (A : Type) : Type := World -> Outcome A * World.

Definition ret {A : Type} (a : A) : Eff A := fun w => (Returned a, w).

Definition throw {A : Type} (e : Error) : Eff A := fun w => (Thrown e, w).

Definition bind {A B : Type} (c : Eff A) (k : A -> Eff B) : Eff B :=
  fun w =>
    match c w with
    | (Returned a, w') => k a w'
    | (Thrown e, w') => (Thrown e, w')
    end.

Definition tryCatch {A : Type} (body : Eff A) (handler : Error -> Eff A) : Eff A :=
  fun w =>
    match body w with
    | (Returned a, w') => (Returned a, w')
    | (Thrown e, w') => handler e w'
    end.

Notation "x <- c ;; k" := (bind c (fun x => k))
  (at level 61, c at next level, right associativity).
Notation "c ;;; k" := (bind c (fun _ => k))
  (at level 61, right associativity).

(** The last binding of [key] in an object, as [JSON.parse] keeps it. *)
Fixpoint lookup (key : string) (fields : list (string * json)) : value :=
  match fields with
  | [] => None
  | (k, v) :: rest =>
      match lookup key rest with
      | Some later => Some later
      | None => if String.eqb k key then Some v else None
      end
  end.

(** [undefined] and [null], the two values no property can be read from. *)
Definition nullish (v : value) : bool :=
  match v with
  | None | Some JNull => true
  | Some _ => false
  end.

(** The property [key] of a value that is not nullish, for a key that is
    no builtin property: [undefined] unless the value is an object that
    has it. *)
Definition member (key : string) (v : value) : value :=
  match v with
  | Some (JObject fields) => lookup key fields
  | _ => None
  end.

(** The element at index 0 of a value that is not nullish. *)
Definition first (v : value) : value :=
  match v with
  | Some (JArray items) => nth_error items 0
  | Some (JString (String c _)) => Some (JString (String c EmptyString))
  | Some (JObject fields) => lookup "0" fields
  | _ => None
  end.

(** [v.key]: reading a property of [undefined] or [null] throws a
    [TypeError]. *)
Definition getProperty (v : value) (key : string) : Eff value :=
  if nullish v then throw TypeError else ret (member key v).

(** [v[0]] *)
Definition getFirst (v : value) : Eff value :=
  if nullish v then throw TypeError else ret (first v).

#[warnings="-abstract-large-number"]
Definition maxInputChars : nat := 8000.
Definition embeddingDimension : nat := 1536.

Section EmbeddingProvider.

(** The outside world: what the embedding service answers to a request
    ([None] when [fetch] rejects), and the sequence of numbers
    [Math.random] returns. *)
Variable network : Request -> option Response.
Variable random : nat -> R.

Definition fetch (request : Request) : Eff Response :=
  fun w =>
    let w' := mkWorld (sent w ++ [request])%list (warnings w) (draws w) in
    match network request with
    | Some response => (Returned response, w')
    | None => (Thrown NetworkError, w')
    end.

(** [response.json()] *)
Definition responseJson (response : Response) : Eff value :=
  match resp_body response with
  | Some document => ret (Some document)
  | None => throw SyntaxError
  end.

Definition consoleWarn (message : string) : Eff unit :=
  fun w => (Returned tt, mkWorld (sent w) (warnings w ++ [message])%list (draws w)).

Definition mathRandom : Eff R :=
  fun w => (Returned (random (draws w)), mkWorld (sent w) (warnings w) (S (draws w))).

(** [Array.from({ length: n }, () => item)]: [n] calls, in order. *)
Fixpoint arrayFrom {A : Type} (n : nat) (item : Eff A) : Eff (list A) :=
  match n with
  | O => ret []
  | S k => x <- item ;; xs <- arrayFrom k item ;; ret (x :: xs)
  end.

Definition embeddingRequest (text apiKey : string) : Request :=
  mkRequest "https://api.openai.com/v1/embeddings" "POST"
    ("Bearer " ++ apiKey) "application/json" "text-embedding-3-small"
    (Js.take maxInputChars text).

(** The [try] block from the test of [response.ok] on:
    [data.data[0].embedding] is read one property at a time. *)
Definition decodeResponse (response : Response) : Eff value :=
  if negb (resp_ok response)
  then throw (ApiError ("OpenAI API error: " ++ resp_statusText response))
  else
    data <- responseJson response ;;
    entries <- getProperty data "data" ;;
    entry <- getFirst entries ;;
    getProperty entry "embedding".

(** The body of the [try] block. *)
Definition requestEmbedding (text apiKey : string) : Eff value :=
  response <- fetch (embeddingRequest text apiKey) ;;
  decodeResponse response.

(** The body of the [catch] block. *)
Definition mockEmbedding : Eff value :=
  consoleWarn "Failed to generate embedding:" ;;;
  components <- arrayFrom embeddingDimension
                  (r <- mathRandom ;; ret (Num (r - 0.5))) ;;
  ret (Some (JArray (map JNumber components))).

Definition generateEmbedding (text apiKey : string) : Eff value :=
  tryCatch (requestEmbedding text apiKey) (fun _ => mockEmbedding).

(** The synthetic vector built from the draws that follow draw [k]. *)
Definition syntheticVector (k : nat) : list number :=
  map (fun i => Num (random (k + i) - 0.5)) (seq 0 embeddingDimension).

(** The mock embedding as the caller receives it. *)
Definition mockValue (k : nat) : value :=
  Some (JArray (map JNumber (syntheticVector k))).

End EmbeddingProvider.

(** A computation that leaves the world as it found it. *)
Definition Pure {A : Type} (c : Eff A) : Prop := forall w, snd (c w) = w.

(** The answers of the service on which the [try] block throws: the
    request is rejected, the response is not ok, the body is not JSON, or
    the document has no first entry to read an embedding from. *)
Inductive Throws : option Response -> Prop :=
  | Throws_network : Throws None
  | Throws_status status body : Throws (Some (mkResponse false status body))
  | Throws_syntax status : Throws (Some (mkResponse true status None))
  | Throws_shape status document :
      nullish (Some document) = true
      \/ nullish (member "data" (Some document)) = true
      \/ nullish (first (member "data" (Some document))) = true ->
      Throws (Some (mkResponse true status (Some document))).

(** An embedding as the caller needs it: an array of numbers, as many as
    the model has dimensions. *)
Definition isVector (v : value) : bool :=
  match v with
  | Some (JArray items) =>
      forallb (fun item => match item with JNumber _ => true | _ => false end)
        items
  | _ => false
  end.

Definition isEmbedding (v : value) : bool :=
  match v with
  | Some (JArray items) =>
      isVector v && (List.length items =? embeddingDimension)%nat
  | _ => false
  end.

(** What the document holds at [data[0].embedding], [undefined] when
    there is nothing to read on the way. *)
Definition embeddingOf (document : json) : value :=
  member "embedding" (first (member "data" (Some document))).

(** The failures in the words of the specification, read off the answer
    of the service: the request is rejected (network), the response is
    not ok (authentication, rate limit), or the response is malformed:
    its body is not JSON, or the document holds no vector of the
    expected dimension at [data[0].embedding]. *)
Inductive Failure : option Response -> Prop :=
  | Failure_network : Failure None
  | Failure_status status body : Failure (Some (mkResponse false status body))
  | Failure_syntax status : Failure (Some (mkResponse true status None))
  | Failure_malformed status document :
      isEmbedding (embeddingOf document) = false ->
      Failure (Some (mkResponse true status (Some document))).

(** The service delivered [v]: an ok response whose document has a first
    entry, [v] being that entry's [embedding] property. *)
Definition Delivered (answer : option Response) (v : value) : Prop :=
  exists status document,
    answer = Some (mkResponse true status (Some document))
    /\ nullish (Some document) = false
    /\ nullish (member "data" (Some document)) = false
    /\ nullish (first (member "data" (Some document))) = false
    /\ v = member "embedding" (first (member "data" (Some document))).

(** An ok response whose body is [{"data": [{}]}]: a first entry, and no
    embedding in it. *)
Definition emptyEntryResponse : Response :=
  mkResponse true "OK" (Some (JObject [("data", JArray [JObject []])])).

(** ** useAnalyzer.ts: the pipeline orchestrator *)

Inductive StepStatus : Type := Pending | Running | Completed | Failed.

Record AnalysisStep : Type := mkStep {
  step_id : string;
  step_title : string;
  step_status : StepStatus;
  step_description : option string
}.

(** The initial value of the [steps] state. *)
Definition initialSteps : list AnalysisStep :=
  [mkStep "parse" "Parsing uploaded files" Pending None;
   mkStep "extract" "Extracting URLs and responses" Pending None;
   mkStep "scrape" "Scraping page content" Pending None;
   mkStep "embed" "Generating embeddings" Pending None;
   mkStep "calculate" "Calculating similarity scores" Pending None].

(** The updater that [updateStep] hands to [setSteps]. *)
Definition updateStep (stepId : string) (status : StepStatus)
  (description : option string) (steps : list AnalysisStep) : list AnalysisStep :=
  map (fun step =>
         if String.eqb (step_id step) stepId
         then mkStep (step_id step) (step_title step) status description
         else step)
    steps.

(** The updater of the [catch] block: every running step becomes an
    error. *)
Definition failRunning (steps : list AnalysisStep) : list AnalysisStep :=
  map (fun step =>
         match step_status step with
         | Running =>
             mkStep (step_id step) (step_title step) Failed (step_description step)
         | _ => step
         end)
    steps.

(** The state of the hook, with two records of what happened: the values
    [setProgress] received and the lines written to the console, oldest
    first. *)
Record Ui : Type := mkUi {
  ui_isAnalyzing : bool;
  ui_progress : R;
  ui_results : list AnalysisResult;
  ui_steps : list AnalysisStep;
  ui_progressLog : list R;
  ui_console : list string
}.

Definition initialUi : Ui := mkUi false 0 [] initialSteps [] [].

Definition setIsAnalyzing (b : bool) (ui : Ui) : Ui :=
  mkUi b (ui_progress ui) (ui_results ui) (ui_steps ui) (ui_progressLog ui)
    (ui_console ui).

Definition setProgress (v : R) (ui : Ui) : Ui :=
  mkUi (ui_isAnalyzing ui) v (ui_results ui) (ui_steps ui)
    (ui_progressLog ui ++ [v])%list (ui_console ui).

Definition setResults (rs : list AnalysisResult) (ui : Ui) : Ui :=
  mkUi (ui_isAnalyzing ui) (ui_progress ui) rs (ui_steps ui) (ui_progressLog ui)
    (ui_console ui).

Definition setSteps (f : list AnalysisStep -> list AnalysisStep) (ui : Ui) : Ui :=
  mkUi (ui_isAnalyzing ui) (ui_progress ui) (ui_results ui) (f (ui_steps ui))
    (ui_progressLog ui) (ui_console ui).

Definition consoleWrite (line : string) (ui : Ui) : Ui :=
  mkUi (ui_isAnalyzing ui) (ui_progress ui) (ui_results ui) (ui_steps ui)
    (ui_progressLog ui) (ui_console ui ++ [line])%list.

(** A number of the loop written in a template literal. *)
Definition natToString (n : nat) : string :=
  NilEmpty.string_of_uint (Nat.to_uint n).

Section Orchestrator.

Context {folding : Js.CaseFolding}.

(** The outside world of a run.  [proxy url] is the text extracted from
    the page the proxy returned, [None] when fetching or parsing failed.
    [corpus] is the parsed answer file, [None] when [JSON.parse] raised.
    [similarityOf page answer] stands for the two embedding requests and
    the cosine of what they returned, which raises when an embedding
    came back as something else than an array. *)
Variable proxy : string -> option string.
Variable corpus : option (list CorpusItem).
Variable similarityOf : string -> string -> Outcome number.

(** [scrapePageContent]: the text of the page, or the placeholder of the
    [catch] block. *)
Definition scrapePageContent (url : string) : string :=
  match proxy url with
  | Some text => text
  | None =>
      "Sample content for " ++ url
        ++ " - This would be the actual page content in production."
  end.

(** The record pushed for a URL with a matching answer. *)
Definition newResult (url routePrompt pageContent gptResponse : string)
  (similarity : number) : AnalysisResult :=
  mkResult url routePrompt (Js.take 300 pageContent) (Js.take 300 gptResponse)
    similarity (Some routePrompt) None None None None None None None.

(** The [for] loop from index [i] on, [urls] being the URLs still to
    process and [total] the value of [urls.length].  The first component
    is [None] when an exception left the loop. *)
Fixpoint processUrls (jsonData : list CorpusItem) (total : nat)
  (urls : list string) (i : nat) (analysisResults : list AnalysisResult)
  (ui : Ui) : option (list AnalysisResult) * Ui :=
  match urls with
  | [] => (Some analysisResults, ui)
  | url :: rest =>
      let ui := setSteps (updateStep "scrape" Running
                  (Some ("Processing URL " ++ natToString (i + 1) ++ "/"
                         ++ natToString total ++ ": " ++ url))) ui in
      let pageContent := scrapePageContent url in
      let routePrompt := extractRoutePrompt url in
      let gptResponse := findMatchingGPTResponse routePrompt jsonData in
      if JsText.isEmpty gptResponse
      then
        let ui := consoleWrite ("No matching GPT response for: " ++ routePrompt) ui in
        processUrls jsonData total rest (S i) analysisResults ui
      else
        let ui := setSteps (updateStep "embed" Running
                    (Some ("Generating embeddings for URL " ++ natToString (i + 1)))) ui in
        let ui := setSteps (updateStep "calculate" Running
                    (Some ("Calculating similarity for URL " ++ natToString (i + 1)))) ui in
        match similarityOf pageContent gptResponse with
        | Thrown _ => (None, ui)
        | Returned similarity =>
            let analysisResults :=
              (analysisResults
               ++ [newResult url routePrompt pageContent gptResponse similarity])%list in
            let ui := setProgress (40 + INR (i + 1) / INR total * 50) ui in
            processUrls jsonData total rest (S i) analysisResults ui
        end
  end.

(** The [try] block of [startAnalysis], applied to the text of the URL
    file. *)
Definition analysisBody (csvText : string) (ui : Ui) : option unit * Ui :=
  let ui := setSteps (updateStep "parse" Running
              (Some "Reading CSV and JSON files...")) ui in
  let ui := setProgress 10 ui in
  let urls := parseCSV csvText in
  match corpus with
  | None => (None, ui)
  | Some jsonData =>
      let ui := setSteps (updateStep "parse" Completed None) ui in
      let ui := setProgress 20 ui in
      let ui := setSteps (updateStep "extract" Running
                  (Some ("Found " ++ natToString (List.length urls)
                         ++ " URLs to analyze"))) ui in
      let ui := setProgress 30 ui in
      let ui := setSteps (updateStep "extract" Completed None) ui in
      let ui := setProgress 40 ui in
      let ui := setSteps (updateStep "scrape" Running None) ui in
      match processUrls jsonData (List.length urls) urls 0 [] ui with
      | (None, ui) => (None, ui)
      | (Some analysisResults, ui) =>
          let ui := setSteps (updateStep "scrape" Completed None) ui in
          let ui := setSteps (updateStep "embed" Completed None) ui in
          let ui := setSteps (updateStep "calculate" Completed None) ui in
          let ui := setResults analysisResults ui in
          let ui := setProgress 100 ui in
          (Some tt, ui)
      end
  end.

Definition startAnalysis (csvText : string) (ui : Ui) : Ui :=
  let ui := setIsAnalyzing true ui in
  let ui := setProgress 0 ui in
  let ui := setResults [] ui in
  let ui :=
    match analysisBody csvText ui with
    | (Some _, ui) => ui
    | (None, ui) =>
        let ui := consoleWrite "Analysis failed:" ui in
        setSteps failRunning ui
    end in
  setIsAnalyzing false ui.

(** What a run is expected to collect for one URL: nothing when no
    answer matches, one record otherwise. *)
Definition resultsFor (jsonData : list CorpusItem) (url : string)
  : list AnalysisResult :=
  let gptResponse := findMatchingGPTResponse (extractRoutePrompt url) jsonData in
  if JsText.isEmpty gptResponse then []
  else
    match similarityOf (scrapePageContent url) gptResponse with
    | Returned similarity =>
        [newResult url (extractRoutePrompt url) (scrapePageContent url)
           gptResponse similarity]
    | Thrown _ => []
    end.

(** No similarity computation of the run raises. *)
Definition NoneRaises (jsonData : list CorpusItem) (urls : list string) : Prop :=
  forall url,
    In url urls ->
    let gptResponse := findMatchingGPTResponse (extractRoutePrompt url) jsonData in
    JsText.isEmpty gptResponse = false ->
    exists similarity,
      similarityOf (scrapePageContent url) gptResponse = Returned similarity.

End Orchestrator.

(** A list of reals that never decreases. *)
Fixpoint NonDecreasing (l : list R) : Prop :=
  match l with
  | [] => True
  | x :: rest =>
      match rest with
      | [] => True
      | y :: _ => (x <= y)%R /\ NonDecreasing rest
      end
  end.

(** [l] never decreases and stays between [lo] and [hi]. *)
Definition Chain (lo hi : R) (l : list R) : Prop :=
  NonDecreasing l /\ Forall (fun v => (lo <= v <= hi)%R) l.

(** The five stages, in order. *)
Definition stepIds : list string :=
  ["parse"; "extract"; "scrape"; "embed"; "calculate"].

Definition HasSteps (ui : Ui) : Prop := map step_id (ui_steps ui) = stepIds.

(** A change of the step list that keeps the identifiers and titles and
    only touches the steps named in [touched]. *)
Definition StepsChange (touched : list string) (before after : list AnalysisStep)
  : Prop :=
  exists g,
    after = map g before
    /\ forall step,
         step_id (g step) = step_id step
         /\ step_title (g step) = step_title step
         /\ (~ In (step_id step) touched -> g step = step).

(** The steps the loop updates. *)
Definition loopTouched : list string := ["scrape"; "embed"; "calculate"].

(** The step updates of one turn of the loop: on entering it, and before
    the embeddings are requested and compared. *)
Definition markScraping (i total : nat) (url : string) (ui : Ui) : Ui :=
  setSteps (updateStep "scrape" Running
              (Some ("Processing URL " ++ natToString (i + 1) ++ "/"
                     ++ natToString total ++ ": " ++ url))) ui.

Definition markComputing (i : nat) (ui : Ui) : Ui :=
  setSteps (updateStep "calculate" Running
              (Some ("Calculating similarity for URL " ++ natToString (i + 1))))
    (setSteps (updateStep "embed" Running
                 (Some ("Generating embeddings for URL " ++ natToString (i + 1)))) ui).

(** The value the loop hands to [setProgress] after the item of index
    [i]. *)
Definition progressAfter (i total : nat) : R := (40 + INR (i + 1) / INR total * 50)%R.

(** The state in which the [try] block of [startAnalysis] starts. *)
Definition resetUi (ui : Ui) : Ui :=
  setResults [] (setProgress 0 (setIsAnalyzing true ui)).

(** A result as a run builds it from one of the URLs [urls]. *)
Definition BuiltFrom {folding : Js.CaseFolding} (urls : list string)
  (r : AnalysisResult) : Prop :=
  In (url r) urls
  /\ prompt r = extractRoutePrompt (url r)
  /\ urlPattern r = Some (prompt r)
  /\ gptAnswer r <> EmptyString
  /\ String.length (gptAnswer r) <= 300
  /\ String.length (pageText r) <= 300.

(** The states of a run around the loop: after a failed parse, on
    entering the loop over [n] URLs, and after a loop that collected
    [rs]. *)
Definition afterParseFailure (ui : Ui) : Ui :=
  setProgress 10
    (setSteps (updateStep "parse" Running (Some "Reading CSV and JSON files...")) ui).

Definition beforeLoop (n : nat) (ui : Ui) : Ui :=
  setSteps (updateStep "scrape" Running None)
    (setProgress 40
       (setSteps (updateStep "extract" Completed None)
          (setProgress 30
             (setSteps (updateStep "extract" Running
                          (Some ("Found " ++ natToString n ++ " URLs to analyze")))
                (setProgress 20
                   (setSteps (updateStep "parse" Completed None)
                      (afterParseFailure ui))))))).

Definition afterLoop (rs : list AnalysisResult) (ui : Ui) : Ui :=
  setProgress 100
    (setResults rs
       (setSteps (updateStep "calculate" Completed None)
          (setSteps (updateStep "embed" Completed None)
             (setSteps (updateStep "scrape" Completed None) ui)))).

(** The [catch] and [finally] blocks. *)
Definition afterFailure (ui : Ui) : Ui :=
  setIsAnalyzing false (setSteps failRunning (consoleWrite "Analysis failed:" ui)).

(** A small run, used to instantiate the facts about the orchestrator: a
    URL file with a header and two URLs, the second without a route; an
    answer file with one entry; a proxy that fails, so that the
    placeholder stands for the page. *)
Definition sampleCsv : string :=
  "url,clicks" ++ String newline
    ("https://a.example/train-times/leeds-to-york/,12" ++ String newline
       "https://a.example/about,3").

Definition sampleCorpus : list CorpusItem :=
  [mkItem (Some "Cheapest Leeds to York train tickets online")
          (Some "Book cheap tickets with Trainline")].

Definition sampleProxy (url : string) : option string := None.

Definition steadySimilarity (pageContent gptResponse : string) : Outcome number :=
  Returned (Num 1).

Definition brokenSimilarity (pageContent gptResponse : string) : Outcome number :=
  Thrown TypeError.

(** * Proofs *)

(** ** Zero vectors on binary64 numbers *)

Module DoubleFacts.

Import ZArith.
Import Floats.
Import Double.
Local Open Scope float_scope.

Lemma IsZero_ZeroOrNaN (x : float) : IsZero x -> ZeroOrNaN x.
Proof. intros [s H]. unfold ZeroOrNaN. now rewrite H. Qed.

Lemma zero_IsZero : IsZero 0.
Proof. now exists false. Qed.

Lemma nan_ZeroOrNaN : ZeroOrNaN nan.
Proof. exact I. Qed.

Lemma mul_ZeroOrNaN_l (x y : float) : ZeroOrNaN x -> ZeroOrNaN (x * y).
Proof.
  unfold ZeroOrNaN. rewrite mul_spec. unfold SF64mul, SFmul.
  destruct (Prim2SF x), (Prim2SF y); simpl; tauto.
Qed.

Lemma mul_ZeroOrNaN_r (x y : float) : ZeroOrNaN y -> ZeroOrNaN (x * y).
Proof.
  unfold ZeroOrNaN. rewrite mul_spec. unfold SF64mul, SFmul.
  destruct (Prim2SF x), (Prim2SF y); simpl; tauto.
Qed.

Lemma add_ZeroOrNaN (x y : float) : ZeroOrNaN x -> ZeroOrNaN y -> ZeroOrNaN (x + y).
Proof.
  unfold ZeroOrNaN. rewrite add_spec. unfold SF64add, SFadd.
  destruct (Prim2SF x) as [[]| | |], (Prim2SF y) as [[]| | |]; simpl; tauto.
Qed.

Lemma mul_IsZero (x y : float) : IsZero x -> IsZero y -> IsZero (x * y).
Proof.
  intros [s Hx] [u Hy]. unfold IsZero. rewrite mul_spec, Hx, Hy.
  now eexists.
Qed.

Lemma add_IsZero (x y : float) : IsZero x -> IsZero y -> IsZero (x + y).
Proof.
  intros [s Hx] [u Hy]. unfold IsZero. rewrite add_spec, Hx, Hy.
  destruct s, u; now eexists.
Qed.

Lemma sqrt_IsZero (x : float) : IsZero x -> IsZero (PrimFloat.sqrt x).
Proof.
  intros [s Hx]. unfold IsZero. rewrite sqrt_spec, Hx. now eexists.
Qed.

Lemma div_ZeroOrNaN (x y : float) :
  ZeroOrNaN x -> ZeroOrNaN y -> PrimFloat.is_nan (x / y) = true.
Proof.
  unfold ZeroOrNaN, PrimFloat.is_nan. rewrite eqb_spec, div_spec.
  unfold SF64div, SFdiv.
  destruct (Prim2SF x), (Prim2SF y); simpl; tauto || reflexivity.
Qed.

Lemma at_index_ZeroOrNaN (b : vector) (i : nat) :
  Forall IsZero b -> ZeroOrNaN (at_index b i).
Proof.
  intros Hb. unfold at_index. revert i.
  induction Hb as [|y b Hy _ IH]; intros [|i]; cbn [nth];
    try exact nan_ZeroOrNaN; [now apply IsZero_ZeroOrNaN | apply IH].
Qed.

(** The dot product when one of the vectors holds zeros only. *)
Lemma dotProduct_zero_l (a b : vector) :
  Forall IsZero a -> ZeroOrNaN (dotProduct a b).
Proof.
  intros Ha. unfold dotProduct, reduce.
  assert (H : forall i sum, ZeroOrNaN sum ->
            ZeroOrNaN (reduce_from (fun sum val i => sum + val * at_index b i)
                         a i sum)).
  { induction Ha as [|x a Hx _ IH]; intros i sum Hsum; [exact Hsum|].
    cbn [reduce_from]. apply IH, add_ZeroOrNaN; [exact Hsum|].
    now apply mul_ZeroOrNaN_l, IsZero_ZeroOrNaN. }
  apply H, IsZero_ZeroOrNaN, zero_IsZero.
Qed.

Lemma dotProduct_zero_r (a b : vector) :
  Forall IsZero b -> ZeroOrNaN (dotProduct a b).
Proof.
  intros Hb. unfold dotProduct, reduce.
  assert (H : forall i sum, ZeroOrNaN sum ->
            ZeroOrNaN (reduce_from (fun sum val i => sum + val * at_index b i)
                         a i sum)).
  { induction a as [|x a IH]; intros i sum Hsum; [exact Hsum|].
    cbn [reduce_from]. apply IH, add_ZeroOrNaN; [exact Hsum|].
    now apply mul_ZeroOrNaN_r, at_index_ZeroOrNaN. }
  apply H, IsZero_ZeroOrNaN, zero_IsZero.
Qed.

Lemma magnitude_zero (a : vector) : Forall IsZero a -> IsZero (magnitude a).
Proof.
  intros Ha. unfold magnitude, sumOfSquares, reduce. apply sqrt_IsZero.
  assert (H : forall i sum, IsZero sum ->
            IsZero (reduce_from (fun sum val _ => sum + val * val) a i sum)).
  { induction Ha as [|x a Hx _ IH]; intros i sum Hsum; [exact Hsum|].
    cbn [reduce_from]. apply IH, add_IsZero; [exact Hsum|].
    now apply mul_IsZero. }
  apply H, zero_IsZero.
Qed.

(** On binary64 numbers the similarity of a vector of zeros, of either
    sign, with any vector of any length is NaN. *)
Lemma cosineSimilarity_zero (a b : vector) :
  Forall IsZero a \/ Forall IsZero b ->
  PrimFloat.is_nan (cosineSimilarity a b) = true.
Proof.
  intros Hzero. unfold cosineSimilarity. cbv zeta. apply div_ZeroOrNaN.
  - destruct Hzero; [now apply dotProduct_zero_l | now apply dotProduct_zero_r].
  - destruct Hzero as [Ha|Hb].
    + now apply mul_ZeroOrNaN_l, IsZero_ZeroOrNaN, magnitude_zero.
    + now apply mul_ZeroOrNaN_r, IsZero_ZeroOrNaN, magnitude_zero.
Qed.

(** *** Division of a number by a finite number that is not zero *)

Section NotNaN.

Local Open Scope Z_scope.

Lemma shr_1_nonneg (mrs : shr_record) : 0 <= shr_m mrs -> 0 <= shr_m (shr_1 mrs).
Proof.
  destruct mrs as [m r s]. cbn [shr_m]. intros Hm.
  destruct m as [|[p|p|]|p]; cbn; lia.
Qed.

Lemma iter_shr_1_nonneg (p : positive) :
  forall mrs, 0 <= shr_m mrs -> 0 <= shr_m (iter_pos shr_1 p mrs).
Proof.
  induction p as [p IH|p IH|]; intros mrs Hm; cbn [iter_pos].
  - apply IH, IH, shr_1_nonneg, Hm.
  - apply IH, IH, Hm.
  - apply shr_1_nonneg, Hm.
Qed.

Lemma shr_fexp_nonneg (prec emax m e : Z) (l : location) :
  0 <= m -> 0 <= shr_m (fst (shr_fexp prec emax m e l)).
Proof.
  intros Hm. unfold shr_fexp, shr.
  assert (H0 : 0 <= shr_m (shr_record_of_loc m l)) by (destruct l as [|[]]; exact Hm).
  destruct (_ - e)%Z; cbn [fst]; try exact H0.
  now apply iter_shr_1_nonneg.
Qed.

Lemma round_nearest_even_nonneg (m : Z) (l : location) :
  0 <= m -> 0 <= round_nearest_even m l.
Proof.
  intros Hm. unfold round_nearest_even. destruct l as [|[]]; try lia.
  destruct (Z.even m); lia.
Qed.

Lemma binary_round_aux_not_nan (prec emax : Z) (s : bool) (m e : Z) (l : location) :
  0 <= m -> binary_round_aux prec emax s m e l <> S754_nan.
Proof.
  intros Hm. unfold binary_round_aux.
  pose proof (shr_fexp_nonneg prec emax m e l Hm) as H1.
  destruct (shr_fexp prec emax m e l) as [mrs' e']. cbn [fst] in H1.
  pose proof (shr_fexp_nonneg prec emax
                (round_nearest_even (shr_m mrs') (loc_of_shr_record mrs')) e'
                loc_Exact (round_nearest_even_nonneg _ _ H1)) as H2.
  destruct (shr_fexp prec emax _ e' loc_Exact) as [mrs'' e'']. cbn [fst] in H2.
  destruct (shr_m mrs'') as [|p|p]; try discriminate; [|lia].
  destruct (_ <=? _)%Z; discriminate.
Qed.

Lemma SFdiv_finite_not_nan (prec emax : Z) (sx sy : bool) (mx my : positive) (ex ey : Z) :
  SFdiv prec emax (S754_finite sx mx ex) (S754_finite sy my ey) <> S754_nan.
Proof.
  unfold SFdiv, SFdiv_core_binary. cbv zeta.
  set (m' := match _ with Z0 => _ | Zpos _ => _ | Zneg _ => _ end).
  assert (Hm' : 0 <= m').
  { unfold m'. destruct (_ - _ - _)%Z; try lia. apply Z.shiftl_nonneg. lia. }
  pose proof (Z.div_pos m' (Z.pos my) Hm' ltac:(lia)) as Hq.
  unfold Z.div in Hq.
  destruct (Z.div_eucl m' (Z.pos my)) as [q r]. cbn [fst] in Hq.
  now apply binary_round_aux_not_nan.
Qed.

End NotNaN.

Lemma is_nan_spec (x : float) :
  PrimFloat.is_nan x = true <-> Prim2SF x = S754_nan.
Proof.
  unfold PrimFloat.is_nan. rewrite eqb_spec.
  destruct (Prim2SF x) as [[]|[]| |s m e] eqn:E; cbn; try (split; congruence).
  all: unfold SFeqb, SFcompare;
    rewrite ?Z.compare_refl, ?Pos.compare_cont_refl, ?Pos.compare_refl;
    destruct s; cbn; rewrite ?Z.compare_refl, ?Pos.compare_refl;
    cbn; split; congruence.
Qed.

Lemma is_zero_spec (x : float) :
  PrimFloat.is_zero x = true <-> exists s, Prim2SF x = S754_zero s.
Proof.
  unfold PrimFloat.is_zero. rewrite eqb_spec.
  change (Prim2SF 0) with (S754_zero false).
  destruct (Prim2SF x) as [s|s| |s m e]; cbn.
  - split; [now exists s | reflexivity].
  - split; [destruct s; discriminate | now intros [z Hz]].
  - split; [discriminate | now intros [z Hz]].
  - split; [destruct s; discriminate | now intros [z Hz]].
Qed.

Lemma is_infinity_spec (x : float) :
  PrimFloat.is_infinity x = true <-> exists s, Prim2SF x = S754_infinity s.
Proof.
  unfold PrimFloat.is_infinity. rewrite eqb_spec, abs_spec.
  change (Prim2SF infinity) with (S754_infinity false).
  destruct (Prim2SF x) as [s|s| |s m e]; cbn.
  - split; [discriminate | now intros [z Hz]].
  - split; [now exists s | reflexivity].
  - split; [discriminate | now intros [z Hz]].
  - split; [discriminate | now intros [z Hz]].
Qed.

(** When a quotient of binary64 numbers is NaN: an operand is NaN, or
    both are zero, or both are infinite. *)
Lemma div_nan_iff (x y : float) :
  PrimFloat.is_nan (x / y) = true
  <-> PrimFloat.is_nan x = true
      \/ PrimFloat.is_nan y = true
      \/ (PrimFloat.is_zero x = true /\ PrimFloat.is_zero y = true)
      \/ (PrimFloat.is_infinity x = true /\ PrimFloat.is_infinity y = true).
Proof.
  rewrite !is_nan_spec, !is_zero_spec, !is_infinity_spec, div_spec.
  unfold SF64div.
  destruct (Prim2SF x) as [sx|sx| |sx mx ex], (Prim2SF y) as [sy|sy| |sy my ey].
  all: try (split; [intros _ | reflexivity];
            first [ left; reflexivity
                  | right; left; reflexivity
                  | right; right; left; split; eexists; reflexivity
                  | right; right; right; split; eexists; reflexivity ]).
  all: split; [| intros [H|[H|[[[? H] [? H']]|[[? H] [? H']]]]]; congruence].
  all: try (cbn [SFdiv]; congruence).
  intros H. now apply SFdiv_finite_not_nan in H.
Qed.

(** The reductions of the code are the sums of the specification. *)
Lemma reduce_from_products (pre : vector) (a b : vector) (sum : float) :
  List.length a = List.length b ->
  reduce_from (fun sum val i => sum + val * at_index (pre ++ b)%list i) a
    (List.length pre) sum
  = fold_left PrimFloat.add (products a b) sum.
Proof.
  revert pre b sum.
  induction a as [|val a IH]; intros pre [|y b] sum Hlen;
    try discriminate; [reflexivity|].
  cbn [reduce_from products combine map fold_left fst snd].
  replace (at_index (pre ++ y :: b)%list (List.length pre)) with y
    by (unfold at_index; now rewrite nth_middle).
  replace (pre ++ y :: b)%list with ((pre ++ [y]) ++ b)%list
    by now rewrite <- app_assoc.
  replace (S (List.length pre)) with (List.length (pre ++ [y])%list)
    by (rewrite length_app; cbn; lia).
  apply IH. now injection Hlen.
Qed.

Lemma dotProduct_inner (a b : vector) :
  List.length a = List.length b -> dotProduct a b = inner a b.
Proof. intros Hlen. exact (reduce_from_products [] a b 0 Hlen). Qed.

Lemma reduce_from_self_products (a : vector) (i : nat) (sum : float) :
  reduce_from (fun sum val _ => sum + val * val) a i sum
  = fold_left PrimFloat.add (products a a) sum.
Proof.
  revert i sum. induction a as [|val a IH]; intros i sum; [reflexivity|].
  cbn [reduce_from products combine map fold_left fst snd]. apply IH.
Qed.

Lemma magnitude_is_norm (a : vector) : magnitude a = norm a.
Proof. unfold magnitude, norm, sumOfSquares, reduce, inner. now rewrite reduce_from_self_products. Qed.

Lemma cosineSimilarity_cosine (a b : vector) :
  List.length a = List.length b -> cosineSimilarity a b = cosine a b.
Proof.
  intros Hlen. unfold cosineSimilarity, cosine. cbv zeta.
  now rewrite dotProduct_inner, !magnitude_is_norm.
Qed.

(** Multiplication of binary64 numbers commutes, bit for bit. *)
Lemma mul_comm (x y : float) : x * y = y * x.
Proof.
  apply Prim2SF_inj. rewrite !mul_spec. unfold SF64mul, SFmul.
  destruct (Prim2SF x) as [sx|sx| |sx mx ex], (Prim2SF y) as [sy|sy| |sy my ey];
    try reflexivity; rewrite (xorb_comm sx sy); try reflexivity.
  now rewrite (Pos.mul_comm mx my), (Z.add_comm ex ey).
Qed.

Lemma products_comm (a : vector) : forall b, products a b = products b a.
Proof.
  unfold products. induction a as [|x a IH]; intros [|y b]; try reflexivity.
  cbn [combine map fst snd]. now rewrite IH, mul_comm.
Qed.

Lemma cosine_comm (a b : vector) : cosine a b = cosine b a.
Proof.
  unfold cosine, inner. now rewrite (products_comm a b), (mul_comm (norm a)).
Qed.

End DoubleFacts.

Section Facts.

Context {folding : Js.CaseFolding}.

(** ** Strings *)

Lemma append_assoc (a b c : string) : (a ++ b) ++ c = a ++ (b ++ c).
Proof. induction a as [|x a IH]; simpl; [reflexivity | now rewrite IH]. Qed.

Lemma append_nil_r (a : string) : a ++ EmptyString = a.
Proof. induction a as [|x a IH]; simpl; [reflexivity | now rewrite IH]. Qed.

Lemma startsWith_iff (s p : string) :
  Js.startsWith s p = true <-> exists post, s = p ++ post.
Proof.
  revert s; induction p as [|a p IH]; intros s; simpl.
  - split; [intros _; now exists s | reflexivity].
  - destruct s as [|b s].
    + split; [discriminate | intros [post H]; discriminate].
    + rewrite andb_true_iff, Ascii.eqb_eq, IH. split.
      * intros [-> [post ->]]. now exists post.
      * intros [post H]. injection H as -> ->. split; [reflexivity | now exists post].
Qed.

Lemma includes_iff (s t : string) :
  Js.includes s t = true <-> Js.Substring t s.
Proof.
  unfold Js.Substring. induction s as [|c s IH].
  - simpl. rewrite orb_false_r, startsWith_iff. split.
    + intros [post H]. exists EmptyString, post. exact H.
    + intros [[|x pre] [post H]]; [now exists post | discriminate].
  - cbn [Js.includes]. rewrite orb_true_iff, startsWith_iff, IH. split.
    + intros [[post H] | [pre [post H]]].
      * exists EmptyString, post. exact H.
      * exists (String c pre), post. simpl. now rewrite H.
    + intros [[|x pre] [post H]].
      * left. now exists post.
      * right. simpl in H. injection H as _ H. now exists pre, post.
Qed.

Lemma includes_empty (s : string) : Js.includes s EmptyString = true.
Proof. destruct s; reflexivity. Qed.

(** ** The response matcher *)

Lemma itemMatches_iff (prompt : string) (item : CorpusItem) :
  itemMatches (Js.toLowerCase prompt) item = true <-> SymmetricMatch prompt item.
Proof.
  unfold itemMatches, SymmetricMatch. cbv zeta.
  rewrite orb_true_iff, !includes_iff. tauto.
Qed.

Lemma findMatching_loop_skip (prompt : string) (before rest : list CorpusItem) :
  Forall (fun it => ~ SymmetricMatch prompt it) before ->
  findMatching_loop (Js.toLowerCase prompt) (before ++ rest)%list
  = findMatching_loop (Js.toLowerCase prompt) rest.
Proof.
  induction 1 as [|it before Hit _ IH]; simpl; [reflexivity|].
  destruct (itemMatches (Js.toLowerCase prompt) it) eqn:E; [|exact IH].
  apply itemMatches_iff in E. contradiction.
Qed.

(** X11: the matcher returns the response (the empty string when the
    entry has none) of the first corpus entry that passes the symmetric
    case-insensitive substring test, and the empty string when no entry
    passes. *)
Theorem findMatchingGPTResponse_first_match (prompt : string)
  (jsonData : list CorpusItem) :
  (forall before item after,
      jsonData = (before ++ item :: after)%list ->
      Forall (fun it => ~ SymmetricMatch prompt it) before ->
      SymmetricMatch prompt item ->
      findMatchingGPTResponse prompt jsonData = Js.orEmpty (item_response item))
  /\ (Forall (fun it => ~ SymmetricMatch prompt it) jsonData ->
      findMatchingGPTResponse prompt jsonData = EmptyString).
Proof.
  unfold findMatchingGPTResponse. cbv zeta. split.
  - intros before item after -> Hbefore Hitem.
    rewrite findMatching_loop_skip by assumption. simpl.
    apply itemMatches_iff in Hitem. now rewrite Hitem.
  - intros Hnone.
    rewrite <- (app_nil_r jsonData), findMatching_loop_skip by assumption.
    reflexivity.
Qed.

(** A prompt that is empty in lower case occurs in every recorded
    query: the first entry of the corpus answers it. *)
Lemma findMatching_first_entry (prompt : string) (item : CorpusItem)
  (rest : list CorpusItem) :
  Js.toLowerCase prompt = EmptyString ->
  itemMatches (Js.toLowerCase prompt) item = true
  /\ findMatchingGPTResponse prompt (item :: rest) = Js.orEmpty (item_response item).
Proof.
  intros Hempty.
  assert (Hmatch : itemMatches (Js.toLowerCase prompt) item = true).
  { unfold itemMatches. cbv zeta. now rewrite Hempty, includes_empty. }
  split; [exact Hmatch|].
  unfold findMatchingGPTResponse. cbv zeta. cbn [findMatching_loop].
  now rewrite Hmatch.
Qed.

(** C1: the loop has no guard for a prompt that is empty once in lower
    case.  The empty string occurs in every string, so the first entry
    of the corpus passes the test whatever its query, and its response
    is returned where an empty prompt should find no match. *)
Theorem findMatchingGPTResponse_empty_prompt (prompt : string)
  (item : CorpusItem) (rest : list CorpusItem) :
  Js.toLowerCase prompt = EmptyString ->
  SymmetricMatch prompt item
  /\ findMatchingGPTResponse prompt (item :: rest) = Js.orEmpty (item_response item).
Proof.
  intros Hempty.
  destruct (findMatching_first_entry prompt item rest Hempty) as [Hmatch Hfound].
  split; [now apply itemMatches_iff | exact Hfound].
Qed.

(** ** Intent classification *)

Section ClassifyIntent.

Variables prompt pageText : string.

Let t := keywordCount transactionalKeywords (intentText prompt pageText).
Let i := keywordCount informationalKeywords (intentText prompt pageText).
Let n := keywordCount navigationalKeywords (intentText prompt pageText).

(** C2 (amended): [Mixed] when the transactional and the informational
    count are both non-zero.  Otherwise the strictly highest count wins,
    and a tie for the highest count goes to [Navigational]: the
    comparisons of the code are strict, so neither [Transactional] nor
    [Informational] ever wins a tie.  In particular the answer is
    [Navigational] when the three counts are zero. *)
Theorem classifyIntent_strict_precedence :
  (0 < t /\ 0 < i -> classifyIntent prompt pageText = Mixed)
  /\ (~ (0 < t /\ 0 < i) -> n < t ->
      i < t /\ classifyIntent prompt pageText = Transactional)
  /\ (~ (0 < t /\ 0 < i) -> n < i ->
      t < i /\ classifyIntent prompt pageText = Informational)
  /\ (~ (0 < t /\ 0 < i) -> t <= n -> i <= n ->
      classifyIntent prompt pageText = Navigational)
  /\ (t = 0 -> i = 0 -> n = 0 -> classifyIntent prompt pageText = Navigational).
Proof.
  unfold classifyIntent. cbv zeta. fold t i n.
  destruct (Nat.ltb_spec 0 t), (Nat.ltb_spec 0 i), (Nat.ltb_spec i t),
    (Nat.ltb_spec n t), (Nat.ltb_spec n i); cbn [andb];
    repeat split; intros; try reflexivity; lia.
Qed.

End ClassifyIntent.




(** ** The priority score *)

Ltac split_result_fields r :=
  destruct (intentType r) as [[]|], (keywordGaps r) as [[|gap gaps]|],
    (entityMismatch r) as [[]|], (sentenceStructureIssue r) as [[]|].

Lemma scaleInfinity_40 (s : bool) : JsNum.scaleInfinity s 40 = Infinity s.
Proof.
  unfold JsNum.scaleInfinity.
  destruct (Req_dec_T 40 0) as [E|_]; [lra|].
  destruct (Rlt_dec 40 0) as [E|_]; [lra | reflexivity].
Qed.

Lemma fixedIncrements_nonneg (r : AnalysisResult) : (0 <= fixedIncrements r)%R.
Proof.
  unfold fixedIncrements. pose proof (pos_INR (gapCount r)).
  destruct (isIntent Transactional (intentType r)), (isIntent Mixed (intentType r)),
    (truthy (entityMismatch r)), (truthy (sentenceStructureIssue r)); lra.
Qed.

(** On a finite similarity the score is a real: the capped sum. *)
Lemma calculatePriorityScore_finite (r : AnalysisResult) (s : R) :
  similarity r = Num s ->
  calculatePriorityScore r
  = Num (Rmin (50 + (1 - s) * 40 + fixedIncrements r) 100).
Proof.
  intros Hs. unfold calculatePriorityScore, fixedIncrements, gapCount.
  rewrite Hs. split_result_fields r;
    cbn -[INR Rmin]; do 2 f_equal; cbn [INR]; lra.
Qed.


(** C4: [calculatePriorityScore] is the minimum of 100 and the sum
    50 + (1 - similarity) * 40 + 20 (Transactional) + 15 (Mixed)
    + 5 * number of keyword gaps + 15 (entity mismatch)
    + 10 (sentence structure issue), whatever the similarity. *)
Theorem calculatePriorityScore_formula (result : AnalysisResult) :
  calculatePriorityScore result = priorityFormula result.
Proof.
  unfold calculatePriorityScore, priorityFormula, gapCount, increment, JsNum.ofNat.
  destruct (similarity result) as [|s|s].
  - split_result_fields result; reflexivity.
  - cbn [JsNum.sub JsNum.neg JsNum.add JsNum.mul]. rewrite scaleInfinity_40.
    split_result_fields result; destruct s; reflexivity.
  - split_result_fields result;
      cbn -[INR Rmin]; rewrite Rmin_comm; do 2 f_equal; cbn [INR]; lra.
Qed.


Section PriorityBySimilarity.

Variable r : AnalysisResult.

Let score (s : number) : number := calculatePriorityScore (withSimilarity r s).


End PriorityBySimilarity.



(** C10: whenever the similarity is at most 1, the priority score is at
    least 50. *)
Theorem calculatePriorityScore_at_least_50 (result : AnalysisResult) :
  (similarity result <= Num 1)%js ->
  (Num 50 <= calculatePriorityScore result)%js.
Proof.
  destruct (similarity result) as [|s|s] eqn:Hs; cbn [JsNum.le].
  - intros [].
  - destruct s; [intros _ | intros []].
    unfold calculatePriorityScore. rewrite Hs.
    cbn [JsNum.sub JsNum.neg JsNum.add JsNum.mul negb]. rewrite scaleInfinity_40.
    split_result_fields result; cbn; lra.
  - intros Hle. rewrite (calculatePriorityScore_finite _ s Hs). cbn [JsNum.le].
    pose proof (fixedIncrements_nonneg result).
    apply Rmin_glb; lra.
Qed.

Lemma calculatePriorityScore_at_least_50_witness :
  (similarity sampleResult <= Num 1)%js
  /\ (Num 50 <= calculatePriorityScore sampleResult)%js.
Proof.
  assert (H : (similarity sampleResult <= Num 1)%js) by (cbn; lra).
  split; [exact H | exact (calculatePriorityScore_at_least_50 sampleResult H)].
Defined.

(** ** Cosine similarity *)

Lemma at_index_middle (pre : vector) (y : R) (post : vector) :
  at_index (pre ++ y :: post)%list (List.length pre) = Num y.
Proof.
  unfold at_index. rewrite nth_error_app2 by lia.
  now rewrite Nat.sub_diag.
Qed.

Lemma reduce_from_dot (a : vector) :
  forall (pre b : vector) (acc : R),
    List.length a = List.length b ->
    reduce_from (fun sum val i => (sum + Num val * at_index (pre ++ b)%list i)%js)
      a (List.length pre) (Num acc)
    = Num (acc + dot a b).
Proof.
  induction a as [|x a IH]; intros pre b acc Hlen.
  - simpl. f_equal. lra.
  - destruct b as [|y b]; [discriminate|]. cbn [reduce_from].
    rewrite at_index_middle.
    change (Num acc + Num x * Num y)%js with (Num (acc + x * y)).
    replace (pre ++ y :: b)%list with ((pre ++ [y]) ++ b)%list
      by (now rewrite <- app_assoc).
    replace (S (List.length pre)) with (List.length (pre ++ [y])%list)
      by (rewrite length_app; simpl; lia).
    rewrite IH by (simpl in Hlen; lia). simpl. f_equal. lra.
Qed.

Lemma dotProduct_dot (a b : vector) :
  List.length a = List.length b -> dotProduct a b = Num (dot a b).
Proof.
  intros Hlen. unfold dotProduct, reduce.
  etransitivity; [exact (reduce_from_dot a [] b 0 Hlen)|]. f_equal. lra.
Qed.

Lemma reduce_from_squares (a : vector) :
  forall (i : nat) (acc : R),
    reduce_from (fun sum val _ => (sum + Num val * Num val)%js) a i (Num acc)
    = Num (acc + dot a a).
Proof.
  induction a as [|x a IH]; intros i acc; simpl.
  - f_equal. lra.
  - rewrite IH. f_equal. lra.
Qed.

Lemma sumOfSquares_dot (a : vector) : sumOfSquares a = Num (dot a a).
Proof.
  unfold sumOfSquares, reduce. rewrite reduce_from_squares. f_equal. lra.
Qed.

Lemma dot_self_nonneg (a : vector) : (0 <= dot a a)%R.
Proof.
  induction a as [|x a IH]; simpl; [lra|].
  pose proof (Rle_0_sqr x) as Hx. unfold Rsqr in Hx. lra.
Qed.

Lemma dot_comm (a : vector) : forall b, dot a b = dot b a.
Proof.
  induction a as [|x a IH]; intros [|y b]; simpl; try reflexivity.
  rewrite IH. lra.
Qed.

Lemma magnitude_norm (a : vector) : magnitude a = Num (sqrt (dot a a)).
Proof.
  unfold magnitude. rewrite sumOfSquares_dot. cbn [JsNum.sqrt].
  destruct (Rlt_dec (dot a a) 0) as [Hneg|_]; [|reflexivity].
  pose proof (dot_self_nonneg a). lra.
Qed.

(** On vectors of equal length the code computes the quotient of the dot
    product by the product of the two norms. *)
Lemma cosineSimilarity_quotient (a b : vector) :
  List.length a = List.length b ->
  cosineSimilarity a b
  = (Num (dot a b) / Num (sqrt (dot a a) * sqrt (dot b b)))%js.
Proof.
  intros Hlen. unfold cosineSimilarity. cbv zeta.
  now rewrite dotProduct_dot, !magnitude_norm.
Qed.

(** C5 (amended): on vectors of equal length cosine similarity is
    symmetric (the two calls return the same number, NaN included). *)
Theorem cosineSimilarity_symmetric (a b : vector) :
  List.length a = List.length b ->
  cosineSimilarity a b = cosineSimilarity b a.
Proof.
  intros Hlen.
  rewrite (cosineSimilarity_quotient a b), (cosineSimilarity_quotient b a)
    by congruence.
  now rewrite (dot_comm a b), Rmult_comm.
Qed.

Lemma cosineSimilarity_symmetric_witness :
  List.length [1%R; 2%R] = List.length [3%R; 4%R]
  /\ cosineSimilarity [1%R; 2%R] [3%R; 4%R] = cosineSimilarity [3%R; 4%R] [1%R; 2%R].
Proof.
  split; [reflexivity|].
  apply (cosineSimilarity_symmetric [1%R; 2%R] [3%R; 4%R]). reflexivity.
Defined.

(** C5, as stated, fails on vectors of different lengths: the reduction
    runs over the first argument, so the longer vector first reads past
    the end of the shorter one and yields NaN, while the shorter vector
    first yields a real. *)
Lemma cosineSimilarity_asymmetric_counterexample :
  cosineSimilarity [1%R; 1%R] [1%R] = NaN
  /\ cosineSimilarity [1%R] [1%R; 1%R] = Num (1 / sqrt 2).
Proof.
  split; [reflexivity|].
  unfold cosineSimilarity. cbv zeta. rewrite !magnitude_norm.
  assert (H1 : dot [1%R] [1%R] = 1%R) by (simpl; lra).
  assert (H2 : dot [1%R; 1%R] [1%R; 1%R] = 2%R) by (simpl; lra).
  rewrite H1, H2, sqrt_1.
  change (dotProduct [1%R] [1%R; 1%R]) with (Num (0 + 1 * 1)).
  cbn [JsNum.mul JsNum.div].
  pose proof (sqrt_lt_R0 2 ltac:(lra)) as Hpos.
  destruct (Req_dec_T (1 * sqrt 2) 0) as [E|_]; [lra|].
  f_equal. field. lra.
Qed.

(** C6 (amended): on the binary64 numbers of the program and for two
    vectors of one length, cosine similarity is the dot product over the
    product of the two magnitudes.  It is NaN as soon as one of the
    vectors holds zeros only (zero magnitude).  It is NaN in these cases
    and no other: the dot product or the product of the magnitudes is
    NaN, or both are zero, or both are infinite; in every other case it
    is a number. *)
Theorem cosineSimilarity_nan_on_zero_vector (a b : Double.vector) :
  List.length a = List.length b ->
  Double.cosineSimilarity a b = Double.cosine a b
  /\ (Forall Double.IsZero a \/ Forall Double.IsZero b ->
      PrimFloat.is_nan (Double.cosineSimilarity a b) = true)
  /\ (PrimFloat.is_nan (Double.cosineSimilarity a b) = true
      <-> PrimFloat.is_nan (Double.inner a b) = true
          \/ PrimFloat.is_nan (PrimFloat.mul (Double.norm a) (Double.norm b)) = true
          \/ (PrimFloat.is_zero (Double.inner a b) = true
              /\ PrimFloat.is_zero (PrimFloat.mul (Double.norm a) (Double.norm b))
                 = true)
          \/ (PrimFloat.is_infinity (Double.inner a b) = true
              /\ PrimFloat.is_infinity
                   (PrimFloat.mul (Double.norm a) (Double.norm b)) = true)).
Proof.
  intros Hlen.
  pose proof (DoubleFacts.cosineSimilarity_cosine a b Hlen) as Hcosine.
  split; [exact Hcosine|].
  split; [apply DoubleFacts.cosineSimilarity_zero|].
  rewrite Hcosine. unfold Double.cosine. apply DoubleFacts.div_nan_iff.
Qed.

Lemma cosineSimilarity_nan_on_zero_vector_witness :
  List.length [Double.ofNat 3; Double.ofNat 4]
  = List.length [Double.ofNat 4; Double.ofNat 3]
  /\ Double.cosineSimilarity [Double.ofNat 3; Double.ofNat 4]
       [Double.ofNat 4; Double.ofNat 3]
     = Double.cosine [Double.ofNat 3; Double.ofNat 4]
         [Double.ofNat 4; Double.ofNat 3]
  /\ PrimFloat.is_nan
       (Double.cosineSimilarity [Double.ofNat 3; Double.ofNat 4]
          [Double.ofNat 4; Double.ofNat 3]) = false
  /\ PrimFloat.is_nan
       (Double.cosineSimilarity [Double.ofNat 0; Double.ofNat 0]
          [Double.ofNat 4; Double.ofNat 3]) = true.
Proof.
  split; [reflexivity|].
  destruct (cosineSimilarity_nan_on_zero_vector
              [Double.ofNat 3; Double.ofNat 4] [Double.ofNat 4; Double.ofNat 3]
              eq_refl) as (Hcosine & _ & Hnan).
  destruct (cosineSimilarity_nan_on_zero_vector
              [Double.ofNat 0; Double.ofNat 0] [Double.ofNat 4; Double.ofNat 3]
              eq_refl) as (_ & Hzero & _).
  split; [exact Hcosine|]. split.
  - apply Bool.not_true_is_false. intros Hcase. apply Hnan in Hcase.
    destruct Hcase as [H|[H|[[H _]|[H _]]]]; vm_compute in H; discriminate H.
  - apply Hzero. left. repeat constructor; now exists false.
Defined.

(** C6, as stated, fails on the numbers the program computes with: a
    vector whose only component is 2^-600 has a magnitude that is not
    zero, but the square of the component underflows to zero, so the
    similarity of the vector with itself is NaN, not defined; with 2^600
    the square overflows and the similarity is NaN again.  On vectors in
    range the program does return a number. *)
Lemma cosineSimilarity_underflow_counterexample :
  PrimFloat.ltb (Double.ofNat 0) Double.tiny = true
  /\ PrimFloat.is_nan (Double.cosineSimilarity [Double.tiny] [Double.tiny]) = true
  /\ PrimFloat.ltb (Double.ofNat 0) Double.huge = true
  /\ PrimFloat.is_finite Double.huge = true
  /\ PrimFloat.is_nan (Double.cosineSimilarity [Double.huge] [Double.huge]) = true
  /\ Double.cosineSimilarity [Double.ofNat 3; Double.ofNat 4]
       [Double.ofNat 3; Double.ofNat 4] = Double.ofNat 1.
Proof. repeat split. Qed.

(** X26: on the binary64 numbers of the program too, cosine similarity
    is symmetric on vectors of equal length: the two calls return the
    same number bit for bit, NaN included. *)
Theorem cosineSimilarity_symmetric_binary64 (a b : Double.vector) :
  List.length a = List.length b ->
  Double.cosineSimilarity a b = Double.cosineSimilarity b a.
Proof.
  intros Hlen.
  rewrite (DoubleFacts.cosineSimilarity_cosine a b Hlen).
  rewrite (DoubleFacts.cosineSimilarity_cosine b a (eq_sym Hlen)).
  apply DoubleFacts.cosine_comm.
Qed.

Lemma cosineSimilarity_symmetric_binary64_witness :
  List.length [Double.ofNat 1; Double.ofNat 2]
  = List.length [Double.ofNat 3; Double.ofNat 4]
  /\ Double.cosineSimilarity [Double.ofNat 1; Double.ofNat 2]
       [Double.ofNat 3; Double.ofNat 4]
     = Double.cosineSimilarity [Double.ofNat 3; Double.ofNat 4]
         [Double.ofNat 1; Double.ofNat 2].
Proof.
  split; [reflexivity|].
  apply (cosineSimilarity_symmetric_binary64 [Double.ofNat 1; Double.ofNat 2]
           [Double.ofNat 3; Double.ofNat 4]).
  reflexivity.
Defined.

(** ** The prompt deriver *)







Lemma length_append (a b : string) :
  String.length (a ++ b) = String.length a + String.length b.
Proof. induction a as [|x a IH]; simpl; [reflexivity | now rewrite IH]. Qed.

Lemma not_Substring_iff (s t : string) :
  ~ Js.Substring t s <-> Js.includes s t = false.
Proof.
  rewrite <- includes_iff. destruct (Js.includes s t); split; congruence.
Qed.

Lemma matchRoute_eq (url : string) :
  matchRoute url
  = match matchAt url with
    | Some capture => Some capture
    | None => match url with
              | EmptyString => None
              | String _ t => matchRoute t
              end
    end.
Proof. destruct url; reflexivity. Qed.

Lemma no_slash_cons (c : ascii) (s : string) :
  ~ Js.Substring "/" (String c s) <-> c <> "/"%char /\ ~ Js.Substring "/" s.
Proof.
  rewrite !not_Substring_iff. cbn [Js.includes Js.startsWith].
  rewrite andb_true_r, orb_false_iff, Ascii.eqb_neq. intuition congruence.
Qed.

Lemma takeSegment_append (slug post : string) :
  ~ Js.Substring "/" slug ->
  (post = EmptyString \/ exists post', post = String "/" post') ->
  takeSegment (slug ++ post) = slug.
Proof.
  intros Hslug Hpost. induction slug as [|c slug IH]; simpl.
  - destruct Hpost as [-> | [post' ->]]; reflexivity.
  - apply no_slash_cons in Hslug. destruct Hslug as [Hc Hslug].
    apply Ascii.eqb_neq in Hc. rewrite Hc. now rewrite IH.
Qed.

Lemma takeSegment_split (s : string) :
  exists post,
    s = takeSegment s ++ post
    /\ ~ Js.Substring "/" (takeSegment s)
    /\ (post = EmptyString \/ exists post', post = String "/" post').
Proof.
  induction s as [|c s (post & Heq & Hno & Hpost)]; simpl.
  - exists EmptyString. repeat split; [|now left].
    apply not_Substring_iff. reflexivity.
  - destruct (Ascii.eqb c "/") eqn:Hc.
    + apply Ascii.eqb_eq in Hc. subst c. exists (String "/" s).
      repeat split; [|right; now exists s].
      apply not_Substring_iff. reflexivity.
    + exists post. repeat split; [simpl; now rewrite <- Heq | | exact Hpost].
      apply no_slash_cons. split; [now apply Ascii.eqb_neq | exact Hno].
Qed.

Lemma drop_append (p s : string) : Js.drop (String.length p) (p ++ s) = s.
Proof. induction p as [|c p IH]; simpl; [now destruct s | exact IH]. Qed.

Lemma matchAt_iff (s slug : string) :
  matchAt s = Some slug <-> exists post, SegmentAt s EmptyString slug post.
Proof.
  unfold matchAt, SegmentAt. split.
  - destruct (Js.startsWith s routeMarker) eqn:Hstart; [|discriminate].
    apply startsWith_iff in Hstart. destruct Hstart as [rest ->].
    rewrite drop_append.
    destruct (takeSegment_split rest) as (post & Heq & Hno & Hpost).
    destruct (takeSegment rest) as [|c t] eqn:Hseg; [discriminate|].
    intros [= <-]. exists post. repeat split; try assumption.
    + simpl. now rewrite Heq.
    + discriminate.
  - intros (post & -> & Hne & Hno & Hpost).
    change (EmptyString ++ routeMarker ++ slug ++ post)
      with (routeMarker ++ (slug ++ post)).
    assert (Hstart : Js.startsWith (routeMarker ++ slug ++ post) routeMarker = true).
    { apply startsWith_iff. now exists (slug ++ post). }
    rewrite Hstart, drop_append, takeSegment_append by assumption.
    destruct slug; [contradiction | reflexivity].
Qed.

Lemma SegmentAt_cons (c : ascii) (url pre slug post : string) :
  SegmentAt (String c url) (String c pre) slug post <-> SegmentAt url pre slug post.
Proof.
  unfold SegmentAt. simpl. split; intros (Heq & H); split; try assumption.
  - now injection Heq.
  - now rewrite Heq.
Qed.

Lemma SegmentAt_cons_inv (c : ascii) (url pre slug post : string) :
  SegmentAt (String c url) pre slug post ->
  matchAt (String c url) = None ->
  exists pre', pre = String c pre' /\ SegmentAt url pre' slug post.
Proof.
  intros Hseg Hnone. destruct pre as [|c' pre'].
  - assert (H : matchAt (String c url) = Some slug)
      by (apply matchAt_iff; now exists post).
    congruence.
  - assert (c' = c) as -> by (destruct Hseg as [Heq _]; simpl in Heq; congruence).
    exists pre'. split; [reflexivity | exact (proj1 (SegmentAt_cons _ _ _ _ _) Hseg)].
Qed.

Lemma matchRoute_None (url : string) :
  matchRoute url = None -> forall pre slug post, ~ SegmentAt url pre slug post.
Proof.
  induction url as [|c url IH]; intros Hnone pre slug post Hseg.
  - destruct Hseg as [Heq _]. destruct pre; discriminate.
  - rewrite matchRoute_eq in Hnone.
    destruct (matchAt (String c url)) eqn:Hat; [discriminate|].
    destruct (SegmentAt_cons_inv _ _ _ _ _ Hseg Hat) as (pre' & -> & Hseg').
    exact (IH Hnone _ _ _ Hseg').
Qed.

Lemma matchRoute_Some (url slug : string) :
  matchRoute url = Some slug -> FirstSegment url slug.
Proof.
  revert slug. induction url as [|c url IH]; intros slug Hsome.
  - discriminate.
  - rewrite matchRoute_eq in Hsome.
    destruct (matchAt (String c url)) as [capture|] eqn:Hat.
    + injection Hsome as ->. apply matchAt_iff in Hat. destruct Hat as [post Hseg].
      exists EmptyString, post. split; [exact Hseg | intros; simpl; lia].
    + destruct (IH _ Hsome) as (pre & post & Hseg & Hmin).
      exists (String c pre), post. split; [exact (proj2 (SegmentAt_cons _ _ _ _ _) Hseg)|].
      intros pre' slug' post' Hseg'.
      destruct (SegmentAt_cons_inv _ _ _ _ _ Hseg' Hat) as (pre'' & -> & Hseg'').
      simpl. specialize (Hmin _ _ _ Hseg''). lia.
Qed.

Lemma matchRoute_first (url slug : string) :
  FirstSegment url slug -> matchRoute url = Some slug.
Proof.
  intros (pre & post & Hseg & Hmin). revert url Hseg Hmin.
  induction pre as [|c pre IH]; intros url Hseg Hmin.
  - rewrite matchRoute_eq.
    assert (H : matchAt url = Some slug) by (apply matchAt_iff; now exists post).
    now rewrite H.
  - destruct url as [|c' url]; [destruct Hseg; discriminate|].
    assert (c' = c) as -> by (destruct Hseg as [Heq _]; simpl in Heq; congruence).
    rewrite matchRoute_eq.
    destruct (matchAt (String c url)) as [capture|] eqn:Hat.
    + apply matchAt_iff in Hat. destruct Hat as [post' Hseg'].
      specialize (Hmin _ _ _ Hseg'). simpl in Hmin. lia.
    + apply IH; [exact (proj1 (SegmentAt_cons _ _ _ _ _) Hseg)|].
      intros pre' slug' post' Hseg'.
      apply (proj2 (SegmentAt_cons c _ _ _ _)) in Hseg'. specialize (Hmin _ _ _ Hseg').
      simpl in Hmin. lia.
Qed.

Lemma replaceChar_absent (c : ascii) (rep s : string) :
  ~ Js.Substring (String c EmptyString) s -> Js.replaceChar c rep s = s.
Proof.
  rewrite not_Substring_iff. induction s as [|a s IH]; [reflexivity|].
  cbn [Js.includes Js.startsWith Js.replaceChar].
  rewrite andb_true_r, orb_false_iff. intros [Ha Hs].
  rewrite Ascii.eqb_sym, Ha. simpl. now rewrite IH.
Qed.

Lemma split_go_skip (sep x rest cur : string) :
  Js.split_go sep (x ++ rest) (String.length x) cur = Js.split_go sep rest 0 cur.
Proof. induction x as [|c x IH]; simpl; [reflexivity | exact IH]. Qed.

Lemma FirstSplit_cons (sep : string) (c : ascii) (s token rest : string) :
  FirstSplit sep (String c s) (String c token) rest ->
  Js.startsWith (String c s) sep = false /\ FirstSplit sep s token rest.
Proof.
  intros [Heq Hmin]. split.
  - destruct (Js.startsWith (String c s) sep) eqn:Hstart; [|reflexivity].
    apply startsWith_iff in Hstart. destruct Hstart as [q Hq].
    specialize (Hmin EmptyString q Hq). simpl in Hmin. lia.
  - split; [simpl in Heq; congruence|].
    intros p q Hpq. specialize (Hmin (String c p) q). simpl in Hmin.
    rewrite Hpq in Hmin. specialize (Hmin eq_refl). lia.
Qed.

(** Cutting at the first occurrence of a non-empty separator. *)
Lemma split_go_first (sep : string) (token : string) :
  sep <> EmptyString ->
  forall s rest cur,
    FirstSplit sep s token rest ->
    Js.split_go sep s 0 cur = (cur ++ token) :: Js.split_go sep rest 0 EmptyString.
Proof.
  intros Hsep. induction token as [|c token IH]; intros s rest cur Hfirst.
  - destruct Hfirst as [-> _]. rewrite append_nil_r.
    destruct sep as [|a sep]; [contradiction|].
    cbn [append Js.split_go].
    assert (Hstart : Js.startsWith (String a (sep ++ rest)) (String a sep) = true)
      by (apply startsWith_iff; now exists rest).
    rewrite Hstart.
    replace (String.length (String a sep) - 1) with (String.length sep)
      by (simpl; lia).
    now rewrite split_go_skip.
  - assert (Hs : s = String c (token ++ sep ++ rest))
      by (destruct Hfirst as [-> _]; reflexivity).
    subst s. apply FirstSplit_cons in Hfirst. destruct Hfirst as [Hstart Hfirst].
    cbn [Js.split_go]. rewrite Hstart, (IH _ _ _ Hfirst).
    now rewrite append_assoc.
Qed.

Lemma split_go_absent (sep : string) (s : string) :
  forall cur, ~ Js.Substring sep s -> Js.split_go sep s 0 cur = [cur ++ s].
Proof.
  induction s as [|c s IH]; intros cur Hno.
  - simpl. now rewrite append_nil_r.
  - apply not_Substring_iff in Hno. cbn [Js.includes] in Hno.
    apply orb_false_iff in Hno. destruct Hno as [Hstart Hno].
    cbn [Js.split_go]. rewrite Hstart, IH by now apply not_Substring_iff.
    now rewrite append_assoc.
Qed.

Lemma split_first_two (sep s origin rest destination : string) :
  sep <> EmptyString ->
  FirstSplit sep s origin rest ->
  FirstToken sep rest destination ->
  exists more, Js.split s sep = origin :: destination :: more.
Proof.
  intros Hsep Hfirst Htoken. unfold Js.split.
  rewrite (split_go_first sep origin Hsep _ _ _ Hfirst). simpl.
  destruct Htoken as [[Hno ->] | [rest' Hsecond]].
  - rewrite split_go_absent by assumption. now exists [].
  - rewrite (split_go_first sep destination Hsep _ _ _ Hsecond). simpl.
    now eexists.
Qed.

(** C8 (amended): when the URL has no [train-times/] marker, or no
    marker followed by a slug, [extractRoutePrompt] returns the empty
    string.  Otherwise it reads the slug of the first
    [train-times/<slug>] segment in lower case: when the lower-cased slug
    lacks the separator [-to-] it returns the empty string, and when it
    contains the separator it returns [cheapest <origin> to <destination>
    train tickets online], origin and destination being the first two
    pieces of the lower-cased slug cut at the separator. *)
Theorem extractRoutePrompt_contract (url : string) :
  (~ Js.Substring routeMarker url -> extractRoutePrompt url = EmptyString)
  /\ ((forall pre slug post, ~ SegmentAt url pre slug post) ->
      extractRoutePrompt url = EmptyString)
  /\ (forall slug,
        FirstSegment url slug ->
        ~ Js.Substring routeSeparator (Js.toLowerCase slug) ->
        extractRoutePrompt url = EmptyString)
  /\ (forall slug origin rest destination,
        FirstSegment url slug ->
        FirstSplit routeSeparator (Js.toLowerCase slug) origin rest ->
        FirstToken routeSeparator rest destination ->
        extractRoutePrompt url
        = "cheapest " ++ origin ++ " to " ++ destination ++ " train tickets online").
Proof.
  assert (Hnone : (forall pre slug post, ~ SegmentAt url pre slug post) ->
                  extractRoutePrompt url = EmptyString).
  { intros Hno. unfold extractRoutePrompt.
    destruct (matchRoute url) as [slug|] eqn:Hm; [|reflexivity].
    apply matchRoute_Some in Hm. destruct Hm as (pre & post & Hseg & _).
    now destruct (Hno _ _ _ Hseg). }
  assert (Hroute : forall slug, FirstSegment url slug ->
            matchRoute url = Some slug
            /\ Js.replaceChar "/" EmptyString slug = slug).
  { intros slug Hfirst. split; [now apply matchRoute_first|].
    destruct Hfirst as (pre & post & (_ & _ & Hno & _) & _).
    now apply replaceChar_absent. }
  repeat split.
  - intros Hno. apply Hnone. intros pre slug post [Heq _]. apply Hno.
    exists pre, (slug ++ post). exact Heq.
  - exact Hnone.
  - intros slug Hfirst Hno. unfold extractRoutePrompt.
    destruct (Hroute slug Hfirst) as [-> ->]. cbv zeta.
    apply not_Substring_iff in Hno. now rewrite Hno.
  - intros slug origin rest destination Hfirst Hsplit Htoken.
    unfold extractRoutePrompt. destruct (Hroute slug Hfirst) as [-> ->]. cbv zeta.
    assert (Hinc : Js.includes (Js.toLowerCase slug) routeSeparator = true).
    { apply includes_iff. exists origin, rest. apply Hsplit. }
    rewrite Hinc. cbn [negb].
    destruct (split_first_two routeSeparator _ _ _ _ ltac:(discriminate) Hsplit Htoken)
      as [more ->].
    reflexivity.
Qed.

(** ** The result exporter *)

Lemma doubleQuotes_doubled (text : string) :
  QuotesDoubled text (doubleQuotes text).
Proof.
  induction text as [|c text IH]; [constructor|].
  unfold doubleQuotes. cbn [Js.replaceChar].
  destruct (Ascii.eqb c dquote) eqn:Hc.
  - apply Ascii.eqb_eq in Hc. subst c. now constructor.
  - apply Ascii.eqb_neq in Hc. now constructor.
Qed.

(** *** Reading the exported text back, record by record *)

Lemma records_go_append (w : string) :
  forall rest q q' cur,
    quoteState w q = Some q' ->
    records_go (w ++ rest) q cur = records_go rest q' (cur ++ w).
Proof.
  induction w as [|c w IH]; intros rest q q' cur Hw.
  - simpl in *. injection Hw as <-. now rewrite append_nil_r.
  - cbn [append records_go]. cbn [quoteState] in Hw.
    destruct (Ascii.eqb c dquote).
    + rewrite (IH _ _ _ _ Hw). now rewrite append_assoc.
    + destruct (Ascii.eqb c newline && negb q); [discriminate|].
      rewrite (IH _ _ _ _ Hw). now rewrite append_assoc.
Qed.

Lemma quoteState_append (a b : string) :
  forall q q', quoteState a q = Some q' -> quoteState (a ++ b) q = quoteState b q'.
Proof.
  induction a as [|c a IH]; intros q q' Ha.
  - simpl in *. now injection Ha as <-.
  - cbn [append quoteState] in *. destruct (Ascii.eqb c dquote); [now apply IH|].
    destruct (Ascii.eqb c newline && negb q); [discriminate | now apply IH].
Qed.

Lemma NoQuote_stays (s : string) : NoQuote s -> StaysQuoted s.
Proof.
  unfold NoQuote, StaysQuoted. rewrite not_Substring_iff.
  induction s as [|c s IH]; [reflexivity|].
  cbn [Js.includes Js.startsWith quoteState].
  rewrite andb_true_r, orb_false_iff. intros [Hc Hs].
  rewrite Ascii.eqb_sym, Hc. cbn [negb]. rewrite andb_false_r. now apply IH.
Qed.

Lemma doubleQuotes_stays (text : string) : StaysQuoted (doubleQuotes text).
Proof.
  unfold StaysQuoted, doubleQuotes.
  induction text as [|c text IH]; [reflexivity|].
  cbn [Js.replaceChar]. destruct (Ascii.eqb c dquote) eqn:Hc.
  - exact IH.
  - cbn [append quoteState]. rewrite Hc. cbn [negb]. now rewrite andb_false_r.
Qed.

Lemma quoteCell_closed (cell : string) :
  StaysQuoted cell -> quoteState (quoteCell cell) false = Some false.
Proof.
  intros Hcell. unfold quoteCell. cbn [quoteState].
  replace (Ascii.eqb dquote dquote) with true by (symmetry; apply Ascii.eqb_refl).
  cbn [negb]. now rewrite (quoteState_append _ _ _ _ Hcell).
Qed.

Lemma csvRow_closed (row : list string) :
  Forall StaysQuoted row -> quoteState (csvRow row) false = Some false.
Proof.
  unfold csvRow. induction 1 as [|cell row Hcell Hrow IH]; [reflexivity|].
  destruct row as [|cell' row].
  - simpl. now apply quoteCell_closed.
  - change (Js.join "," (map quoteCell (cell :: cell' :: row)))
      with (quoteCell cell ++ "," ++ Js.join "," (map quoteCell (cell' :: row))).
    rewrite (quoteState_append _ _ _ _ (quoteCell_closed _ Hcell)).
    exact IH.
Qed.

Lemma records_join (rows : list string) :
  rows <> [] ->
  Forall (fun row => quoteState row false = Some false) rows ->
  forall cur,
    records_go (Js.join (String newline EmptyString) rows) false cur
    = match rows with
      | [] => []
      | row :: rest => (cur ++ row) :: rest
      end.
Proof.
  intros Hne Hrows. induction Hrows as [|row rows Hrow Hrest IH]; [contradiction|].
  intros cur. destruct rows as [|row' rows].
  - simpl. rewrite <- (append_nil_r row) at 1.
    now rewrite (records_go_append _ _ _ _ _ Hrow).
  - change (Js.join (String newline EmptyString) (row :: row' :: rows))
      with (row ++ String newline (Js.join (String newline EmptyString) (row' :: rows))).
    rewrite (records_go_append _ _ _ _ _ Hrow). cbn [records_go].
    change (Ascii.eqb newline dquote) with false.
    change (Ascii.eqb newline newline && negb false) with true. cbv iota.
    now rewrite (IH ltac:(discriminate) EmptyString).
Qed.

Section ReadingBack.

Variable toFixed4 : number -> string.

(** Read back by a quote-aware reader, the exported text has the N+1
    records the exporter wrote, also when a cell contains line breaks. *)
Lemma records_csvContent (results : list AnalysisResult) :
  Forall (PlainCells toFixed4) results ->
  records (csvContent toFixed4 results) = csvRows toFixed4 results
  /\ List.length (records (csvContent toFixed4 results)) = S (List.length results).
Proof.
  intros Hplain.
  assert (Hrows : Forall (fun row => quoteState row false = Some false)
                    (csvRows toFixed4 results)).
  { unfold csvRows. cbn [map]. constructor; [reflexivity|].
    rewrite map_map. apply Forall_map.
    eapply Forall_impl; [|exact Hplain].
    intros r (Hurl & Hprompt & Hsim). apply csvRow_closed.
    repeat constructor;
      first [now apply NoQuote_stays | apply doubleQuotes_stays]. }
  assert (Heq : records (csvContent toFixed4 results) = csvRows toFixed4 results).
  { unfold records, csvContent.
    assert (Hne : csvRows toFixed4 results <> []) by discriminate.
    rewrite (records_join _ Hne Hrows). reflexivity. }
  split; [exact Heq|].
  rewrite Heq. unfold csvRows. simpl. now rewrite !length_map.
Qed.

Lemma csvRow_line (r : AnalysisResult) :
  ResultLine toFixed4 r (csvRow (csvCells toFixed4 r)).
Proof.
  exists (doubleQuotes (pageText r)), (doubleQuotes (gptAnswer r)).
  split; [apply doubleQuotes_doubled|]. split; [apply doubleQuotes_doubled|].
  unfold csvRow, csvCells, quoteCell, inQuotes. cbn [map Js.join append].
  now rewrite !append_assoc.
Qed.

Variable today : string.

(** C9 (amended): exporting an empty result set does nothing.  Exporting
    N >= 1 results whose URL, prompt and rendered similarity hold no
    double quote produces a text that a quote-aware reader splits into
    exactly N+1 records: the fixed header line, then one line for each
    result in order, with its five cells between double quotes and every
    double quote of the page text and of the answer doubled. *)
Theorem exportResults_records (results : list AnalysisResult) :
  exportResults toFixed4 today [] = None
  /\ (results <> [] ->
      Forall (PlainCells toFixed4) results ->
      exists content lines,
        exportResults toFixed4 today results
        = Some (mkDownload ("similarity_analysis_" ++ today ++ ".csv")
                  "text/csv" content)
        /\ records content = headerLine :: lines
        /\ Forall2 (ResultLine toFixed4) results lines
        /\ List.length (records content) = S (List.length results)).
Proof.
  split; [reflexivity|]. intros Hne Hplain.
  destruct (records_csvContent results Hplain) as [Hrecords Hlength].
  exists (csvContent toFixed4 results),
         (map (fun r => csvRow (csvCells toFixed4 r)) results).
  split; [|split; [|split]].
  - unfold exportResults. destruct results; [contradiction | reflexivity].
  - rewrite Hrecords. unfold csvRows. cbn [map]. now rewrite map_map.
  - clear. induction results as [|r results IH]; cbn [map]; constructor;
      [apply csvRow_line | exact IH].
  - exact Hlength.
Qed.

End ReadingBack.

(** C9, as stated, fails.  With one result whose page text holds a line
    break the exported text has three lines, not two: the line break
    stays inside its quoted cell.  And with one result whose URL holds a
    double quote followed by a line break, a quote-aware reader finds
    three records, not two: the URL and the prompt are written as they
    are, only the page text and the answer have their quotes doubled. *)
Lemma exportResults_rows_counterexample :
  (exists content,
      exportResults (fun _ => "0.0000") "2025-01-01"
        [mkResult "u" "p" ("a" ++ String newline "b") "g" (Num 0)
           None None None None None None None None]
      = Some (mkDownload "similarity_analysis_2025-01-01.csv" "text/csv" content)
      /\ List.length (Js.split content (String newline EmptyString)) = 3)
  /\ (exists content,
        exportResults (fun _ => "0.0000") "2025-01-01"
          [mkResult (String dquote (String newline "u")) "p" "a" "g" (Num 0)
             None None None None None None None None]
        = Some (mkDownload "similarity_analysis_2025-01-01.csv" "text/csv" content)
        /\ List.length (records content) = 3).
Proof. split; eexists; split; reflexivity. Qed.

(** ** The embedding provider *)

Lemma take_length (n : nat) (s : string) : String.length (Js.take n s) <= n.
Proof.
  revert s. induction n as [|n IH]; intros [|c s]; simpl; try lia.
  specialize (IH s). lia.
Qed.

Lemma take_drop (n : nat) (s : string) : s = Js.take n s ++ Js.drop n s.
Proof.
  revert s. induction n as [|n IH]; intros [|c s]; simpl; try reflexivity.
  now rewrite <- IH.
Qed.

Lemma take_short (n : nat) (s : string) :
  String.length s <= n -> Js.take n s = s.
Proof.
  revert s. induction n as [|n IH]; intros [|c s]; simpl; intros H;
    try reflexivity; try lia.
  rewrite IH by lia. reflexivity.
Qed.

Section EmbeddingFacts.

Variable network : Request -> option Response.
Variable random : nat -> R.

Lemma arrayFrom_random (n : nat) :
  forall w,
    arrayFrom n (r <- mathRandom random ;; ret (Num (r - 0.5))) w
    = (Returned (map (fun i => Num (random (draws w + i) - 0.5)) (seq 0 n)),
       mkWorld (sent w) (warnings w) (draws w + n)).
Proof.
  induction n as [|n IH]; intros w.
  - simpl. unfold ret. destruct w as [s ws d]. simpl. now rewrite Nat.add_0_r.
  - cbn [arrayFrom]. unfold bind at 1. unfold bind at 1. unfold mathRandom at 1.
    unfold ret at 1. unfold bind at 1. rewrite IH. unfold ret. cbn [sent warnings draws].
    f_equal.
    + f_equal. cbn [seq map]. rewrite Nat.add_0_r. f_equal.
      rewrite <- seq_shift, map_map. apply map_ext. intros i.
      now rewrite Nat.add_succ_r.
    + f_equal. lia.
Qed.

Lemma mockEmbedding_run (w : World) :
  mockEmbedding random w
  = (Returned (Some (JArray (map JNumber (syntheticVector random (draws w))))),
     mkWorld (sent w) (warnings w ++ ["Failed to generate embedding:"])%list
       (draws w + embeddingDimension)).
Proof.
  unfold mockEmbedding. unfold bind at 1. unfold consoleWarn.
  unfold bind at 1. rewrite arrayFrom_random. reflexivity.
Qed.

Lemma syntheticVector_length (k : nat) :
  List.length (syntheticVector random k) = embeddingDimension.
Proof. unfold syntheticVector. now rewrite length_map, length_seq. Qed.

Lemma syntheticVector_range (k : nat) :
  (forall i, 0 <= random i < 1)%R ->
  Forall (fun x => exists r, x = Num r /\ (- 0.5 <= r < 0.5)%R)
    (syntheticVector random k).
Proof.
  intros Hrange. unfold syntheticVector. apply Forall_map, Forall_forall.
  intros i _. eexists. split; [reflexivity|].
  specialize (Hrange (k + i)). lra.
Qed.

Lemma Pure_ret {A : Type} (a : A) : Pure (ret a).
Proof. now intros w. Qed.

Lemma Pure_throw {A : Type} (e : Error) : Pure (@throw A e).
Proof. now intros w. Qed.

Lemma Pure_bind {A B : Type} (c : Eff A) (k : A -> Eff B) :
  Pure c -> (forall a, Pure (k a)) -> Pure (bind c k).
Proof.
  intros Hc Hk w. unfold bind. specialize (Hc w).
  destruct (c w) as [[a|e] w']; simpl in Hc; subst w'; [apply Hk | reflexivity].
Qed.

Lemma Pure_getProperty (v : value) (key : string) : Pure (getProperty v key).
Proof.
  unfold getProperty. destruct (nullish v); [apply Pure_throw | apply Pure_ret].
Qed.

Lemma Pure_getFirst (v : value) : Pure (getFirst v).
Proof.
  unfold getFirst. destruct (nullish v); [apply Pure_throw | apply Pure_ret].
Qed.

Lemma Pure_responseJson (response : Response) : Pure (responseJson response).
Proof.
  unfold responseJson. destruct (resp_body response);
    first [apply Pure_ret | apply Pure_throw].
Qed.

Create HintDb pure.
#[local] Hint Resolve Pure_ret Pure_throw Pure_getProperty Pure_getFirst
  Pure_responseJson : pure.

Lemma Pure_decodeResponse (response : Response) : Pure (decodeResponse response).
Proof.
  unfold decodeResponse. destruct (negb (resp_ok response)); auto with pure.
  repeat (apply Pure_bind; [auto with pure | intros ?]). auto with pure.
Qed.

Lemma requestEmbedding_run (text apiKey : string) (w : World) :
  let w' := mkWorld (sent w ++ [embeddingRequest text apiKey])%list
              (warnings w) (draws w) in
  requestEmbedding network text apiKey w
  = match network (embeddingRequest text apiKey) with
    | Some response => (fst (decodeResponse response w'), w')
    | None => (Thrown NetworkError, w')
    end.
Proof.
  cbv zeta. unfold requestEmbedding. unfold bind at 1. unfold fetch.
  destruct (network (embeddingRequest text apiKey)) as [response|];
    [|reflexivity].
  rewrite (surjective_pairing (decodeResponse response _)) at 1.
  now rewrite Pure_decodeResponse.
Qed.

Lemma decodeResponse_Throws (response : Response) (w : World) :
  Throws (Some response) -> exists e, fst (decodeResponse response w) = Thrown e.
Proof.
  intros Hfail. inversion Hfail as [|status body|status|status document Hshape]; subst.
  - now eexists.
  - now eexists.
  - unfold decodeResponse, responseJson, bind, getProperty, getFirst, ret, throw.
    cbn [resp_ok resp_body negb].
    destruct (nullish (Some document)) eqn:H1; [now eexists|].
    destruct (nullish (member "data" (Some document))) eqn:H2; [now eexists|].
    destruct (nullish (first (member "data" (Some document)))) eqn:H3;
      [now eexists|].
    destruct Hshape as [H|[H|H]]; discriminate.
Qed.

Lemma decodeResponse_Delivered (response : Response) (w : World) (v : value) :
  Delivered (Some response) v -> fst (decodeResponse response w) = Returned v.
Proof.
  intros (status & document & [= ->] & H1 & H2 & H3 & ->).
  unfold decodeResponse, responseJson, bind, getProperty, getFirst, ret, throw.
  cbn [resp_ok resp_body negb]. now rewrite H1, H2, H3.
Qed.

Lemma Throws_or_Delivered (answer : option Response) :
  Throws answer \/ exists v, Delivered answer v.
Proof.
  destruct answer as [[[|] status [document|]]|];
    try (left; constructor; fail).
  destruct (nullish (Some document)) eqn:H1; [left; constructor; tauto|].
  destruct (nullish (member "data" (Some document))) eqn:H2;
    [left; constructor; tauto|].
  destruct (nullish (first (member "data" (Some document)))) eqn:H3;
    [left; constructor; tauto|].
  right. eexists. exists status, document. repeat split; assumption.
Qed.

(** Every answer on which the [try] block throws is a failure of the
    specification. *)
Lemma Throws_Failure (answer : option Response) : Throws answer -> Failure answer.
Proof.
  intros [|status body|status|status document Hshape]; try constructor.
  unfold embeddingOf.
  destruct Hshape as [H|[H|H]].
  - destruct document; try discriminate. reflexivity.
  - destruct (member "data" (Some document)) as [[]|]; try discriminate;
      reflexivity.
  - destruct (first (member "data" (Some document))) as [[]|]; try discriminate;
      reflexivity.
Qed.

Lemma take_length_min (n : nat) (s : string) :
  String.length (Js.take n s) = Nat.min (String.length s) n.
Proof.
  revert s. induction n as [|n IH]; intros [|c s]; simpl; try reflexivity.
  now rewrite IH.
Qed.

Lemma generateEmbedding_thrown (text apiKey : string) (w : World) :
  Throws (network (embeddingRequest text apiKey)) ->
  generateEmbedding network random text apiKey w
  = (Returned (mockValue random (draws w)),
     mkWorld (sent w ++ [embeddingRequest text apiKey])%list
       (warnings w ++ ["Failed to generate embedding:"])%list
       (draws w + embeddingDimension)).
Proof.
  intros Hf. unfold generateEmbedding, tryCatch.
  rewrite requestEmbedding_run. cbv zeta.
  destruct (network (embeddingRequest text apiKey)) as [response|].
  - destruct (decodeResponse_Throws response
                (mkWorld (sent w ++ [embeddingRequest text apiKey])%list
                   (warnings w) (draws w)) Hf) as [e ->].
    now rewrite mockEmbedding_run.
  - now rewrite mockEmbedding_run.
Qed.

Lemma generateEmbedding_delivered (text apiKey : string) (w : World) (v : value) :
  Delivered (network (embeddingRequest text apiKey)) v ->
  generateEmbedding network random text apiKey w
  = (Returned v,
     mkWorld (sent w ++ [embeddingRequest text apiKey])%list (warnings w) (draws w)).
Proof.
  intros Hd. unfold generateEmbedding, tryCatch.
  rewrite requestEmbedding_run. cbv zeta.
  destruct (network (embeddingRequest text apiKey)) as [response|].
  - now rewrite (decodeResponse_Delivered response _ v Hd).
  - destruct Hd as (status & document & Habs & _). discriminate.
Qed.

(** X12: [generateEmbedding] never raises: for every text, key, answer of
    the service and state of the world it returns a value.  It submits one
    request, whose input is the longest prefix of the text of at most
    8000 characters.  When the [try] block throws (rejected request,
    response not ok, body not JSON, document without a first entry) it
    logs one warning and returns an array of 1536 numbers, each a draw of
    [Math.random] minus 0.5; otherwise it returns what the document holds
    at [data[0].embedding], unchanged and unchecked.  There is no third
    case. *)
Theorem generateEmbedding_never_raises (text apiKey : string) (w : World) :
  let request := embeddingRequest text apiKey in
  let run := generateEmbedding network random text apiKey w in
  (exists v, fst run = Returned v)
  /\ sent (snd run) = (sent w ++ [request])%list
  /\ (exists dropped, text = req_input request ++ dropped)
  /\ String.length (req_input request) = Nat.min (String.length text) 8000
  /\ (Throws (network request) ->
      run = (Returned (mockValue random (draws w)),
             mkWorld (sent w ++ [request])%list
               (warnings w ++ ["Failed to generate embedding:"])%list
               (draws w + embeddingDimension)))
  /\ (List.length (syntheticVector random (draws w)) = 1536
      /\ forall i, i < 1536 ->
           nth_error (syntheticVector random (draws w)) i
           = Some (Num (random (draws w + i) - 0.5)))
  /\ (forall v,
        Delivered (network request) v ->
        run = (Returned v,
               mkWorld (sent w ++ [request])%list (warnings w) (draws w)))
  /\ (Throws (network request) \/ exists v, Delivered (network request) v).
Proof.
  cbv zeta.
  pose proof (generateEmbedding_thrown text apiKey w) as Hfail.
  pose proof (generateEmbedding_delivered text apiKey w) as Hdelivered.
  pose proof (Throws_or_Delivered (network (embeddingRequest text apiKey)))
    as Hcases.
  split; [|split; [|split; [|split; [|split; [|split; [|split]]]]]].
  - destruct Hcases as [Hf | [v Hd]].
    + rewrite (Hfail Hf). now eexists.
    + rewrite (Hdelivered v Hd). now exists v.
  - destruct Hcases as [Hf | [v Hd]].
    + now rewrite (Hfail Hf).
    + now rewrite (Hdelivered v Hd).
  - exists (Js.drop maxInputChars text). apply take_drop.
  - apply take_length_min.
  - exact Hfail.
  - split; [apply syntheticVector_length|].
    intros i Hi. unfold syntheticVector.
    rewrite (map_nth_error (fun j => Num (random (draws w + j) - 0.5)) i
               (seq 0 embeddingDimension) (d := i)); [reflexivity|].
    rewrite nth_error_nth' with (d := 0) by (rewrite length_seq; assumption).
    now rewrite seq_nth.
  - exact Hdelivered.
  - exact Hcases.
Qed.

(** C7: a response that is ok and has a first entry is handed to the
    caller as it is, also when that entry holds no vector of 1536
    numbers at [embedding].  Such a malformed response is a failure of the
    specification, yet the [try] block does not throw on it, so the
    [catch] block never runs: no synthetic vector is built, no warning
    is logged, and the caller receives [undefined] or whatever the entry
    holds. *)
Theorem generateEmbedding_malformed_response (text apiKey : string) (w : World)
  (v : value) :
  Delivered (network (embeddingRequest text apiKey)) v ->
  isEmbedding v = false ->
  Failure (network (embeddingRequest text apiKey))
  /\ generateEmbedding network random text apiKey w
     = (Returned v,
        mkWorld (sent w ++ [embeddingRequest text apiKey])%list
          (warnings w) (draws w)).
Proof.
  intros Hd Hv. split; [|now apply generateEmbedding_delivered].
  destruct Hd as (status & document & -> & _ & _ & _ & ->).
  now constructor.
Qed.

End EmbeddingFacts.

(** ** Worked instances *)


Example exportResults_quoted_cell :
  let page := String "a" (String dquote (String newline "b")) in
  let r := mkResult "u" "p" page "g" (Num 0) None None None None None None None None in
  let text := csvContent (fun _ => "0.5000") [r; sampleResult] in
  List.length (records text) = 3
  /\ nth_error (csvCells (fun _ => "0.5000") r) 2
     = Some (String "a" (String dquote (String dquote (String newline "b")))).
Proof. split; reflexivity. Qed.

Lemma generateEmbedding_malformed_response_witness :
  Delivered (Some emptyEntryResponse) None
  /\ isEmbedding None = false
  /\ Failure (Some emptyEntryResponse)
  /\ generateEmbedding (fun _ => Some emptyEntryResponse) (fun _ => 0%R)
       "text" "key" (mkWorld [] [] 0)
     = (Returned None,
        mkWorld [mkRequest "https://api.openai.com/v1/embeddings" "POST"
                   "Bearer key" "application/json" "text-embedding-3-small"
                   "text"] [] 0).
Proof.
  assert (Hd : Delivered (Some emptyEntryResponse) None).
  { exists "OK", (JObject [("data", JArray [JObject []])]). now repeat split. }
  split; [exact Hd|]. split; [reflexivity|].
  exact (generateEmbedding_malformed_response
           (fun _ => Some emptyEntryResponse)
           (fun _ => 0%R) "text" "key" (mkWorld [] [] 0) None Hd eq_refl).
Defined.

Example generateEmbedding_string_embedding :
  let network := fun _ : Request =>
    Some (mkResponse true "OK"
            (Some (JObject [("data",
                             JArray [JObject [("embedding", JString "oops")]])]))) in
  generateEmbedding network (fun _ => 0%R) "text" "key" (mkWorld [] [] 0)
  = (Returned (Some (JString "oops")),
     mkWorld [embeddingRequest "text" "key"] [] 0).
Proof. reflexivity. Qed.

Example generateEmbedding_short_embedding :
  let network := fun _ : Request =>
    Some (mkResponse true "OK"
            (Some (JObject [("data",
                             JArray [JObject [("embedding",
                                               JArray [JNumber (Num 1)])]])]))) in
  isEmbedding (Some (JArray [JNumber (Num 1)])) = false
  /\ generateEmbedding network (fun _ => 0%R) "text" "key" (mkWorld [] [] 0)
     = (Returned (Some (JArray [JNumber (Num 1)])),
        mkWorld [embeddingRequest "text" "key"] [] 0).
Proof. split; reflexivity. Qed.

Example generateEmbedding_rejected_fetch :
  let run := generateEmbedding (fun _ => None) (fun _ => 0.75%R) "text" "key"
               (mkWorld [] [] 0) in
  (exists items, fst run = Returned (Some (JArray items))
                 /\ List.length items = 1536
                 /\ nth_error items 0 = Some (JNumber (Num (0.75 - 0.5))))
  /\ warnings (snd run) = ["Failed to generate embedding:"]
  /\ draws (snd run) = 1536.
Proof.
  cbv zeta. unfold generateEmbedding, tryCatch.
  rewrite requestEmbedding_run. cbv zeta. rewrite mockEmbedding_run.
  cbn [fst snd warnings draws sent]. repeat split.
  eexists. split; [reflexivity|]. split.
  - now rewrite length_map, syntheticVector_length.
  - reflexivity.
Qed.

(** * Further properties of the pipeline *)

(** ** Characters of strings *)

Lemma hasChar_cons (c a : ascii) (s : string) :
  hasChar c (String a s) = Ascii.eqb c a || hasChar c s.
Proof.
  unfold hasChar. cbn [Js.includes Js.startsWith]. now rewrite andb_true_r.
Qed.

Lemma hasChar_append (c : ascii) (a b : string) :
  hasChar c (a ++ b) = hasChar c a || hasChar c b.
Proof.
  induction a as [|x a IH]; [reflexivity|].
  cbn [append]. rewrite !hasChar_cons, IH. now rewrite orb_assoc.
Qed.

Lemma NoQuote_hasChar (s : string) : NoQuote s <-> hasChar dquote s = false.
Proof. unfold NoQuote, hasChar. apply not_Substring_iff. Qed.

Lemma hasChar_Substring (c : ascii) (s : string) :
  hasChar c s = false <-> ~ Js.Substring (String c EmptyString) s.
Proof. unfold hasChar. symmetry. apply not_Substring_iff. Qed.

Lemma hasChar_trimStart (c : ascii) (s : string) :
  hasChar c s = false -> hasChar c (JsText.trimStart s) = false.
Proof.
  induction s as [|a s IH]; [reflexivity|]. cbn [JsText.trimStart].
  destruct (JsText.isWhitespace a); [|trivial].
  rewrite hasChar_cons, orb_false_iff. intros [_ H]. now apply IH.
Qed.

Lemma hasChar_trimEnd (c : ascii) (s : string) :
  hasChar c s = false -> hasChar c (JsText.trimEnd s) = false.
Proof.
  induction s as [|a s IH]; [reflexivity|]. cbn [JsText.trimEnd].
  rewrite hasChar_cons, orb_false_iff. intros [Ha Hs].
  destruct (JsText.isWhitespace a && JsText.isEmpty (JsText.trimEnd s));
    [reflexivity|].
  rewrite hasChar_cons, Ha. now apply IH.
Qed.

Lemma hasChar_trim (c : ascii) (s : string) :
  hasChar c s = false -> hasChar c (JsText.trim s) = false.
Proof. intros H. now apply hasChar_trimStart, hasChar_trimEnd. Qed.

Lemma hasChar_remove_other (c d : ascii) (s : string) :
  hasChar c s = false -> hasChar c (Js.replaceChar d EmptyString s) = false.
Proof.
  induction s as [|a s IH]; [reflexivity|]. cbn [Js.replaceChar].
  rewrite hasChar_cons, orb_false_iff. intros [Ha Hs].
  destruct (Ascii.eqb a d); cbn [append]; [now apply IH|].
  rewrite hasChar_cons, Ha. now apply IH.
Qed.

Lemma hasChar_remove_same (d : ascii) (s : string) :
  hasChar d (Js.replaceChar d EmptyString s) = false.
Proof.
  induction s as [|a s IH]; [reflexivity|]. cbn [Js.replaceChar].
  destruct (Ascii.eqb a d) eqn:Ha; cbn [append]; [exact IH|].
  rewrite hasChar_cons, IH, Ascii.eqb_sym, Ha. reflexivity.
Qed.

(** Splitting at a one-character separator. *)
Lemma split_go_char_free (c : ascii) (s : string) :
  forall cur,
    hasChar c cur = false ->
    Forall (fun piece => hasChar c piece = false)
      (Js.split_go (String c EmptyString) s 0 cur).
Proof.
  induction s as [|a s IH]; intros cur Hcur.
  - now repeat constructor.
  - cbn [Js.split_go Js.startsWith String.length Nat.sub].
    rewrite andb_true_r. destruct (Ascii.eqb c a) eqn:Ha.
    + constructor; [exact Hcur | now apply IH].
    + apply IH. now rewrite hasChar_append, Hcur, hasChar_cons, Ha.
Qed.

Lemma split_go_nonempty (sep s : string) :
  forall skip cur, Js.split_go sep s skip cur <> [].
Proof.
  induction s as [|a s IH]; intros skip cur; cbn [Js.split_go]; [discriminate|].
  destruct skip; [|apply IH].
  destruct (Js.startsWith (String a s) sep); [discriminate | apply IH].
Qed.


(** ** The input normaliser *)

(** The pieces of a split hold no character that the string did not
    hold. *)
Lemma split_go_chars (c : ascii) (sep s : string) :
  forall skip cur,
    hasChar c cur = false ->
    hasChar c s = false ->
    Forall (fun piece => hasChar c piece = false) (Js.split_go sep s skip cur).
Proof.
  induction s as [|a s IH]; intros skip cur Hcur Hs.
  - now repeat constructor.
  - rewrite hasChar_cons, orb_false_iff in Hs. destruct Hs as [Ha Hs].
    cbn [Js.split_go]. destruct skip; [|now apply IH].
    destruct (Js.startsWith (String a s) sep).
    + constructor; [exact Hcur | now apply IH].
    + apply IH; [|exact Hs]. now rewrite hasChar_append, Hcur, hasChar_cons, Ha.
Qed.

Lemma firstField_clean (line : string) :
  hasChar newline line = false ->
  hasChar dquote (firstField line) = false
  /\ hasChar "," (firstField line) = false
  /\ hasChar newline (firstField line) = false.
Proof.
  intros Hline. unfold firstField. split; [apply hasChar_remove_same|].
  pose proof (split_go_char_free "," line EmptyString eq_refl) as Hcomma.
  pose proof (split_go_chars newline "," line 0 EmptyString eq_refl Hline) as Hnl.
  unfold Js.split.
  destruct (Js.split_go "," line 0 EmptyString) as [|field rest];
    [split; reflexivity|].
  cbn [hd]. inversion Hcomma; inversion Hnl; subst.
  split; now apply hasChar_remove_other, hasChar_trim.
Qed.

Lemma In_firstn {A : Type} (n : nat) (l : list A) (x : A) :
  In x (firstn n l) -> In x l.
Proof.
  intros H. rewrite <- (firstn_skipn n l). apply in_or_app. now left.
Qed.

Lemma In_skipn {A : Type} (n : nat) (l : list A) (x : A) :
  In x (skipn n l) -> In x l.
Proof.
  intros H. rewrite <- (firstn_skipn n l). apply in_or_app. now right.
Qed.

Lemma parseCSV_fields (text : string) :
  Forall (fun url => hasChar dquote url = false
                     /\ hasChar "," url = false
                     /\ hasChar newline url = false) (parseCSV text).
Proof.
  unfold parseCSV. cbv zeta. apply Forall_map.
  assert (Hlines : Forall (fun line => hasChar newline line = false)
            (Js.split text (String newline EmptyString)))
    by (apply split_go_char_free; reflexivity).
  apply Forall_forall. intros line Hin. apply firstField_clean.
  unfold slice_1_6 in Hin. apply In_firstn, In_skipn in Hin.
  apply filter_In in Hin. destruct Hin as [Hin _].
  rewrite Forall_forall in Hlines. now apply Hlines.
Qed.

(** X1: [parseCSV] returns at most five URLs, whatever the size of the
    file, and none of them holds a double quote, a comma or a line
    feed. *)
Theorem parseCSV_at_most_five_clean (text : string) :
  List.length (parseCSV text) <= 5
  /\ Forall (fun url => NoQuote url
                        /\ ~ Js.Substring "," url
                        /\ ~ Js.Substring (String newline EmptyString) url)
       (parseCSV text).
Proof.
  split.
  - unfold parseCSV, slice_1_6. cbv zeta. rewrite length_map. apply firstn_le_length.
  - eapply Forall_impl; [|apply parseCSV_fields].
    intros url (Hq & Hc & Hn). split; [now apply NoQuote_hasChar|].
    split; now apply hasChar_Substring.
Qed.



Example parseCSV_quoted_rows :
  parseCSV (Js.join (String newline EmptyString)
              ["URL,Clicks"; EmptyString;
               String dquote ("https://a.example/train-times/leeds-to-york/"
                              ++ String dquote ",12");
               " https://a.example/about ,3"; "   "; "u3"; "u4"; "u5"; "u6"])
  = ["https://a.example/train-times/leeds-to-york/"; "https://a.example/about";
     "u3"; "u4"; "u5"].
Proof. reflexivity. Qed.

(** ** Route data *)

(** A string that holds the separator splits into at least two pieces. *)
Lemma split_go_two (sep s : string) :
  sep <> EmptyString ->
  forall cur,
    Js.includes s sep = true ->
    exists first second more,
      Js.split_go sep s 0 cur = first :: second :: more.
Proof.
  intros Hsep. induction s as [|a s IH]; intros cur Hinc.
  - destruct sep; [contradiction | discriminate].
  - cbn [Js.split_go]. cbn [Js.includes] in Hinc.
    destruct (Js.startsWith (String a s) sep).
    + pose proof (split_go_nonempty sep s (String.length sep - 1) EmptyString) as Hne.
      destruct (Js.split_go sep s (String.length sep - 1) EmptyString)
        as [|second more]; [contradiction|].
      now exists cur, second, more.
    + now apply IH.
Qed.

(** X3: [extractRouteData] never raises, and it agrees with
    [extractRoutePrompt] on every URL: either the prompt is empty and
    origin and destination are both [Unknown], or the route holds the
    separator, the prompt is [cheapest <origin> to <destination> train
    tickets online], and the origin and the destination of the route
    data are these two pieces with the first letter in upper case. *)
Theorem extractRouteData_agrees_with_prompt (url : string) :
  exists data,
    extractRouteData_checked url = Some data
    /\ ((extractRoutePrompt url = EmptyString
         /\ rd_origin data = "Unknown" /\ rd_destination data = "Unknown")
        \/ exists origin destination,
             Js.includes (rd_route data) routeSeparator = true
             /\ extractRoutePrompt url
                = "cheapest " ++ origin ++ " to " ++ destination
                    ++ " train tickets online"
             /\ rd_origin data = JsText.capitalize origin
             /\ rd_destination data = JsText.capitalize destination).
Proof.
  unfold extractRouteData_checked, extractRoutePrompt.
  destruct (matchRoute url) as [capture|]; [|eexists; split; [reflexivity|now left]].
  cbv zeta.
  destruct (Js.includes (Js.toLowerCase (Js.replaceChar "/" EmptyString capture))
              routeSeparator) eqn:Hinc; cbn [negb];
    [|eexists; split; [reflexivity|now left]].
  destruct (split_go_two routeSeparator _ ltac:(discriminate) EmptyString Hinc)
    as (origin & destination & more & Hsplit).
  unfold Js.split. rewrite Hsplit. cbn [nth_error].
  eexists. split; [reflexivity|]. right. exists origin, destination.
  cbn [rd_route rd_origin rd_destination interpolate]. now repeat split.
Qed.

(** ** Semantic gaps *)

Lemma includesWord_In (words : list string) (word : string) :
  JsText.includesWord words word = true <-> In word words.
Proof.
  unfold JsText.includesWord. rewrite existsb_exists. split.
  - intros (w & Hin & Heq). apply String.eqb_eq in Heq. now subst.
  - intros Hin. exists word. split; [exact Hin | apply String.eqb_refl].
Qed.

Lemma filter_none {A : Type} (f : A -> bool) (l : list A) :
  (forall x, f x = false) -> filter f l = [].
Proof.
  intros Hf. induction l as [|x l IH]; [reflexivity|]. simpl. now rewrite Hf.
Qed.

Lemma criticalKeywords_NoDup : NoDup criticalKeywords.
Proof.
  unfold criticalKeywords.
  repeat (constructor; [simpl; intuition discriminate|]). constructor.
Qed.

(** X4: the keyword gaps are critical terms, each at most once and in
    the order of the list, so there are at most nine of them; a term is a
    gap exactly when it is one of the words of the answer and none of the
    words of the page, words being the pieces between runs of white space
    of the text in lower case. *)
Theorem keywordGaps_are_missing_critical_words (pageText gptAnswer : string) :
  let gaps := sg_keywordGaps (analyzeSemanticGaps pageText gptAnswer) in
  List.length gaps <= 9
  /\ NoDup gaps
  /\ (forall keyword,
        In keyword gaps <->
        In keyword criticalKeywords
        /\ In keyword (JsText.splitWhitespace (Js.toLowerCase gptAnswer))
        /\ ~ In keyword (JsText.splitWhitespace (Js.toLowerCase pageText))).
Proof.
  cbv zeta. unfold analyzeSemanticGaps. cbn [sg_keywordGaps].
  split; [|split].
  - change 9 with (List.length criticalKeywords). apply filter_length_le.
  - apply NoDup_filter, criticalKeywords_NoDup.
  - intros keyword.
    rewrite filter_In, andb_true_iff, negb_true_iff, includesWord_In.
    assert (Hpage : JsText.includesWord
                      (JsText.splitWhitespace (Js.toLowerCase pageText)) keyword
                    = false
                    <-> ~ In keyword (JsText.splitWhitespace (Js.toLowerCase pageText))).
    { rewrite <- includesWord_In. destruct (JsText.includesWord _ keyword);
        split; congruence. }
    rewrite Hpage. tauto.
Qed.

(** X5: when the page text and the answer are the same text, no keyword
    gap and no sentence structure issue is reported, but an entity
    mismatch still is as soon as that text names trainline together with
    eurostar or omio. *)
Theorem analyzeSemanticGaps_same_text (text : string) :
  let lower := Js.toLowerCase text in
  sg_keywordGaps (analyzeSemanticGaps text text) = []
  /\ sg_sentenceStructureIssue (analyzeSemanticGaps text text) = false
  /\ sg_entityMismatch (analyzeSemanticGaps text text)
     = Js.includes lower "trainline"
       && (Js.includes lower "eurostar" || Js.includes lower "omio").
Proof.
  cbv zeta. unfold analyzeSemanticGaps.
  cbn [sg_keywordGaps sg_sentenceStructureIssue sg_entityMismatch]. repeat split.
  - apply filter_none. intros keyword. now destruct (JsText.includesWord _ keyword).
  - now destruct (hasPricing (Js.toLowerCase text)).
  - destruct (Js.includes (Js.toLowerCase text) "trainline"),
      (Js.includes (Js.toLowerCase text) "eurostar"),
      (Js.includes (Js.toLowerCase text) "omio"); reflexivity.
Qed.

(** X6: an entity mismatch is only ever reported when trainline is
    named, by the page or by the answer: two texts that do not name
    trainline never mismatch, whatever they say of eurostar and omio. *)
Theorem entityMismatch_needs_trainline (pageText gptAnswer : string) :
  Js.includes (Js.toLowerCase pageText) "trainline" = false ->
  Js.includes (Js.toLowerCase gptAnswer) "trainline" = false ->
  sg_entityMismatch (analyzeSemanticGaps pageText gptAnswer) = false.
Proof.
  intros Hpage Hgpt. unfold analyzeSemanticGaps. cbn [sg_entityMismatch].
  rewrite Hpage, Hgpt. now rewrite !andb_false_r.
Qed.



(** ** Buckets of the dashboard *)

Lemma geb_Num (a b : R) : JsOrder.geb (Num a) (Num b) = true <-> (b <= a)%R.
Proof. cbn. destruct (Rle_dec b a); split; try tauto; discriminate. Qed.

Lemma ltb_Num (a b : R) : JsOrder.ltb (Num a) (Num b) = true <-> (a < b)%R.
Proof. cbn. destruct (Rlt_dec a b); split; try tauto; discriminate. Qed.

Lemma geb_ltb_Num (a b : R) :
  JsOrder.geb (Num a) (Num b) = negb (JsOrder.ltb (Num a) (Num b)).
Proof. cbn. destruct (Rle_dec b a), (Rlt_dec a b); try reflexivity; lra. Qed.

Lemma countIf_map {A B : Type} (f : A -> B) (test : B -> bool) (l : list A) :
  countIf test (map f l) = countIf (fun x => test (f x)) l.
Proof.
  unfold countIf. induction l as [|x l IH]; [reflexivity|]. simpl.
  destruct (test (f x)); simpl; now rewrite IH.
Qed.

Lemma countIf_cons {A : Type} (test : A -> bool) (x : A) (l : list A) :
  countIf test (x :: l) = (if test x then 1 else 0) + countIf test l.
Proof. unfold countIf. simpl. now destruct (test x). Qed.

(** Four tests of which exactly one holds of every element split a list
    into four parts. *)
Lemma countIf_four {A : Type} (p1 p2 p3 p4 : A -> bool) (l : list A) :
  (forall x, (if p1 x then 1 else 0) + (if p2 x then 1 else 0)
             + (if p3 x then 1 else 0) + (if p4 x then 1 else 0) = 1) ->
  countIf p1 l + countIf p2 l + countIf p3 l + countIf p4 l = List.length l.
Proof.
  intros Hone. induction l as [|x l IH]; [reflexivity|].
  rewrite !countIf_cons. specialize (Hone x). simpl. lia.
Qed.

Lemma countIf_five {A : Type} (p1 p2 p3 p4 p5 : A -> bool) (l : list A) :
  (forall x, (if p1 x then 1 else 0) + (if p2 x then 1 else 0)
             + (if p3 x then 1 else 0) + (if p4 x then 1 else 0)
             + (if p5 x then 1 else 0) = 1) ->
  countIf p1 l + countIf p2 l + countIf p3 l + countIf p4 l + countIf p5 l
  = List.length l.
Proof.
  intros Hone. induction l as [|x l IH]; [reflexivity|].
  rewrite !countIf_cons. specialize (Hone x). simpl. lia.
Qed.

(** The score by the kind of similarity. *)
Lemma calculatePriorityScore_by_similarity (r : AnalysisResult) :
  match similarity r with
  | JsNum.NaN => calculatePriorityScore r = NaN
  | JsNum.Infinity true => calculatePriorityScore r = Num 100
  | JsNum.Infinity false => calculatePriorityScore r = Infinity true
  | JsNum.Num s =>
      calculatePriorityScore r
      = Num (Rmin (50 + (1 - s) * 40 + fixedIncrements r) 100)
  end.
Proof.
  destruct (similarity r) as [|[|]|s] eqn:Hs.
  - unfold calculatePriorityScore. rewrite Hs. split_result_fields r; reflexivity.
  - unfold calculatePriorityScore. rewrite Hs.
    cbn [JsNum.sub JsNum.neg JsNum.add JsNum.mul negb]. rewrite scaleInfinity_40.
    split_result_fields r; reflexivity.
  - unfold calculatePriorityScore. rewrite Hs.
    cbn [JsNum.sub JsNum.neg JsNum.add JsNum.mul negb]. rewrite scaleInfinity_40.
    split_result_fields r; reflexivity.
  - now apply calculatePriorityScore_finite.
Qed.

Lemma scoreOf_enhanceResult (r : AnalysisResult) :
  exists enhanced,
    scoreOf (enhanceResult r) = calculatePriorityScore enhanced
    /\ similarity enhanced = similarity r.
Proof. unfold enhanceResult. cbv zeta. eexists. split; reflexivity. Qed.

Lemma one_bucket (x : number) (lo hi : R) :
  (lo <= hi)%R ->
  (if JsOrder.geb x (Num hi) then 1 else 0)
  + (if JsOrder.geb x (Num lo) && JsOrder.ltb x (Num hi) then 1 else 0)
  + (if JsOrder.ltb x (Num lo) then 1 else 0)
  + (if JsOrder.isNaN x then 1 else 0) = 1.
Proof.
  intros Hle. destruct x as [|[|]|a]; try reflexivity. cbn.
  destruct (Rle_dec hi a), (Rle_dec lo a), (Rlt_dec a hi), (Rlt_dec a lo);
    cbn; try reflexivity; lra.
Qed.

(** X7: every enhanced result whose similarity is a number falls in
    exactly one of the three priority buckets, and a result whose
    similarity is NaN falls in none: the three counts and the number of
    results with an undefined similarity add up to the number of
    results. *)
Theorem priorityBuckets_partition (results : list AnalysisResult) :
  let buckets := priorityBuckets (map enhanceResult results) in
  fixNow buckets + fixLater buckets + monitor buckets
  + undefinedSimilarity results
  = List.length results.
Proof.
  cbv zeta. unfold priorityBuckets, undefinedSimilarity.
  cbn [fixNow fixLater monitor]. rewrite !countIf_map.
  apply countIf_four. intros r.
  destruct (scoreOf_enhanceResult r) as (e & -> & Hsim).
  pose proof (calculatePriorityScore_by_similarity e) as Hscore.
  rewrite Hsim in Hscore.
  destruct (similarity r) as [|[|]|s]; rewrite Hscore;
    try (pose proof (one_bucket (Num 100) 60 80 ltac:(lra)) as H; exact H);
    try (pose proof (one_bucket NaN 60 80 ltac:(lra)) as H; exact H);
    try (pose proof (one_bucket (Infinity true) 60 80 ltac:(lra)) as H; exact H).
  pose proof (one_bucket (Num (Rmin (50 + (1 - s) * 40 + fixedIncrements e) 100))
                60 80 ltac:(lra)) as H.
  exact H.
Qed.

(** X8: the four similarity buckets of the pie chart and the results
    with an undefined similarity add up to the number of results, and the
    buckets agree with [getSimilarityLabel] on every number; on NaN they
    do not: the label is [Poor], but the result is counted in no
    bucket. *)
Theorem similarity_buckets_partition (results : list AnalysisResult) :
  excellent results + good results + fair results + poor results
  + undefinedSimilarity results = List.length results
  /\ forall x,
       (label (getSimilarityLabel x) = "Excellent"
        <-> JsOrder.geb x (Num 0.8) = true)
       /\ (label (getSimilarityLabel x) = "Good"
           <-> JsOrder.geb x (Num 0.7) && JsOrder.ltb x (Num 0.8) = true)
       /\ (label (getSimilarityLabel x) = "Fair"
           <-> JsOrder.geb x (Num 0.6) && JsOrder.ltb x (Num 0.7) = true)
       /\ (label (getSimilarityLabel x) = "Poor"
           <-> JsOrder.ltb x (Num 0.6) = true \/ x = NaN).
Proof.
  split.
  - unfold excellent, good, fair, poor, undefinedSimilarity.
    apply countIf_five. intros r.
    destruct (similarity r) as [|[|]|a]; try reflexivity. cbn.
    destruct (Rle_dec 0.8 a), (Rle_dec 0.7 a), (Rle_dec 0.6 a),
      (Rlt_dec a 0.8), (Rlt_dec a 0.7), (Rlt_dec a 0.6);
      cbn; try reflexivity; lra.
  - intros x. unfold getSimilarityLabel.
    destruct x as [|[|]|a]; cbn;
      try (repeat split; intros; try discriminate; try tauto;
           intuition discriminate).
    destruct (Rle_dec 0.8 a), (Rle_dec 0.7 a), (Rle_dec 0.6 a),
      (Rlt_dec a 0.8), (Rlt_dec a 0.7), (Rlt_dec a 0.6);
      cbn; try lra;
      repeat split; intros; try discriminate; try reflexivity; try tauto;
      intuition discriminate.
Qed.

(** X9: a low similarity always asks for action: an enhanced result
    whose similarity is below 0.7, as every critical issue is, has a
    priority score of at least 60 and so is never in the monitor bucket,
    and one whose similarity is at most 0.25 has a score of at least 80
    and is in the fix-now bucket. *)
Theorem low_similarity_is_never_monitored (r : AnalysisResult) :
  (JsOrder.ltb (similarity r) (Num 0.7) = true ->
   JsOrder.geb (scoreOf (enhanceResult r)) (Num 60) = true
   /\ JsOrder.ltb (scoreOf (enhanceResult r)) (Num 60) = false)
  /\ (JsOrder.geb (Num 0.25) (similarity r) = true ->
      JsOrder.geb (scoreOf (enhanceResult r)) (Num 80) = true).
Proof.
  destruct (scoreOf_enhanceResult r) as (e & -> & Hsim).
  pose proof (calculatePriorityScore_by_similarity e) as Hscore.
  pose proof (fixedIncrements_nonneg e) as Hinc.
  rewrite Hsim in Hscore.
  destruct (similarity r) as [|[|]|s]; rewrite Hscore; cbn;
    try (split; intros; try discriminate;
         repeat match goal with
                | |- context [Rle_dec ?a ?b] => destruct (Rle_dec a b)
                | |- context [Rlt_dec ?a ?b] => destruct (Rlt_dec a b)
                end; try split; try reflexivity; lra).
  split.
  - destruct (Rlt_dec s 0.7) as [Hs|]; [intros _ | discriminate].
    assert (Hv : (60 <= Rmin (50 + (1 - s) * 40 + fixedIncrements e) 100)%R)
      by (apply Rmin_glb; lra).
    destruct (Rle_dec 60 _), (Rlt_dec _ 60); try split; try reflexivity; lra.
  - destruct (Rle_dec s 0.25) as [Hs|]; [intros _ | discriminate].
    assert (Hv : (80 <= Rmin (50 + (1 - s) * 40 + fixedIncrements e) 100)%R)
      by (apply Rmin_glb; lra).
    destruct (Rle_dec 80 _); [reflexivity | lra].
Qed.

(** ** Intent of a derived prompt *)

Lemma includes_append_l (a b t : string) :
  Js.includes a t = true -> Js.includes (a ++ b) t = true.
Proof.
  rewrite !includes_iff. intros (pre & post & ->).
  exists pre, (post ++ b). now rewrite !append_assoc.
Qed.

Lemma includes_append_r (a b t : string) :
  Js.includes b t = true -> Js.includes (a ++ b) t = true.
Proof.
  rewrite !includes_iff. intros (pre & post & ->).
  exists (a ++ pre), post. now rewrite !append_assoc.
Qed.

Lemma extractRoutePrompt_shape (url : string) :
  extractRoutePrompt url = EmptyString
  \/ exists origin destination,
       extractRoutePrompt url
       = "cheapest " ++ origin ++ " to " ++ destination ++ " train tickets online".
Proof.
  unfold extractRoutePrompt. destruct (matchRoute url); [|now left]. cbv zeta.
  destruct (negb _); [now left|]. right. now eexists _, _.
Qed.

Lemma keywordCount_cons (kw : string) (kws : list string) (text : string) :
  keywordCount (kw :: kws) text
  = (if Js.includes text kw then 1 else 0) + keywordCount kws text.
Proof. unfold keywordCount. simpl. now destruct (Js.includes text kw). Qed.

(** X10: a prompt derived from a URL always counts at least three
    transactional keywords (cheap, ticket, online), whatever the page
    says, so a result with a derived prompt is never classified
    [Informational].  The case mapping is assumed to keep lower-case
    ASCII words in place. *)
Theorem derived_prompt_is_never_informational (url pageText : string) :
  LowerKeepsWords ->
  extractRoutePrompt url <> EmptyString ->
  3 <= keywordCount transactionalKeywords
         (intentText (extractRoutePrompt url) pageText)
  /\ classifyIntent (extractRoutePrompt url) pageText <> Informational.
Proof.
  intros Hkeeps Hprompt.
  destruct (extractRoutePrompt_shape url) as [Hempty | (origin & destination & Hshape)];
    [contradiction|].
  assert (Hcount : 3 <= keywordCount transactionalKeywords
                          (intentText (extractRoutePrompt url) pageText)).
  { rewrite Hshape. unfold intentText.
    set (text := Js.toLowerCase _).
    assert (Hcheap : Js.includes text "cheap" = true).
    { apply Hkeeps; [reflexivity|]. apply includes_append_l.
      apply includes_append_l. reflexivity. }
    assert (Hticket : Js.includes text "ticket" = true).
    { apply Hkeeps; [reflexivity|]. apply includes_append_l.
      do 4 apply includes_append_r. reflexivity. }
    assert (Honline : Js.includes text "online" = true).
    { apply Hkeeps; [reflexivity|]. apply includes_append_l.
      do 4 apply includes_append_r. reflexivity. }
    unfold transactionalKeywords. rewrite !keywordCount_cons.
    rewrite Hcheap, Hticket, Honline. lia. }
  split; [exact Hcount|].
  unfold classifyIntent. cbv zeta.
  destruct (Nat.ltb_spec 0 (keywordCount transactionalKeywords
                              (intentText (extractRoutePrompt url) pageText)));
    [|lia].
  destruct (Nat.ltb_spec 0 (keywordCount informationalKeywords
                              (intentText (extractRoutePrompt url) pageText)));
    cbn [andb]; [discriminate|].
  destruct (_ && _); [discriminate|].
  destruct (Nat.ltb_spec (keywordCount navigationalKeywords
                            (intentText (extractRoutePrompt url) pageText))
              (keywordCount informationalKeywords
                 (intentText (extractRoutePrompt url) pageText)));
    [lia | discriminate].
Qed.


(** ** The pipeline orchestrator *)

Lemma NonDecreasing_cons (x : R) (l : list R) :
  NonDecreasing (x :: l) <-> Forall (fun v => (x <= v)%R) l /\ NonDecreasing l.
Proof.
  revert x. induction l as [|y l IH]; intros x.
  - simpl. split; [intros _; split; [constructor | exact I] | trivial].
  - change (NonDecreasing (x :: y :: l)) with ((x <= y)%R /\ NonDecreasing (y :: l)).
    split.
    + intros [Hxy Hnd]. split; [|exact Hnd].
      constructor; [exact Hxy|]. apply IH in Hnd. destruct Hnd as [Hy _].
      eapply Forall_impl; [|exact Hy]. intros v Hv. simpl in Hv. lra.
    + intros [Hx Hnd]. inversion Hx; subst. now split.
Qed.

Lemma Chain_nil (lo hi : R) : Chain lo hi [].
Proof. split; [exact I | constructor]. Qed.

Lemma Chain_cons (lo hi v : R) (l : list R) :
  (lo <= v <= hi)%R -> Chain v hi l -> Chain lo hi (v :: l).
Proof.
  intros Hv [Hnd Hall]. split.
  - apply NonDecreasing_cons. split; [|exact Hnd].
    eapply Forall_impl; [|exact Hall]. intros w Hw. simpl in Hw. lra.
  - constructor; [exact Hv|]. eapply Forall_impl; [|exact Hall].
    intros w Hw. simpl in Hw. lra.
Qed.

Lemma Chain_weaken (lo lo' hi hi' : R) (l : list R) :
  (lo' <= lo)%R -> (hi <= hi')%R -> Chain lo hi l -> Chain lo' hi' l.
Proof.
  intros Hlo Hhi [Hnd Hall]. split; [exact Hnd|].
  eapply Forall_impl; [|exact Hall]. intros w Hw. simpl in Hw. lra.
Qed.

Lemma Chain_snoc (lo hi v : R) (l : list R) :
  Chain lo hi l -> (hi <= v)%R -> (lo <= v)%R -> Chain lo v (l ++ [v]).
Proof.
  intros [Hnd Hall] Hv Hlo. induction l as [|x l IH].
  - simpl. split; [exact I|]. constructor; [lra | constructor].
  - inversion Hall as [|? ? Hx Hrest]; subst.
    apply NonDecreasing_cons in Hnd. destruct Hnd as [Hxl Hnd].
    destruct (IH Hnd Hrest) as [Hnd' Hall']. split.
    + cbn [app]. apply NonDecreasing_cons. split; [|exact Hnd'].
      apply Forall_app. split; [exact Hxl|]. constructor; [lra | constructor].
    + cbn [app]. constructor; [lra | exact Hall'].
Qed.

Lemma StepsChange_refl (touched : list string) (steps : list AnalysisStep) :
  StepsChange touched steps steps.
Proof. exists (fun s => s). split; [now rewrite map_id | now intros]. Qed.

Lemma StepsChange_trans (touched : list string) (a b c : list AnalysisStep) :
  StepsChange touched a b -> StepsChange touched b c -> StepsChange touched a c.
Proof.
  intros (g1 & -> & H1) (g2 & -> & H2). exists (fun s => g2 (g1 s)).
  split; [now rewrite map_map|]. intros step.
  destruct (H1 step) as (Hid1 & Ht1 & Hf1).
  destruct (H2 (g1 step)) as (Hid2 & Ht2 & Hf2).
  repeat split; [congruence | congruence|].
  intros Hnot. rewrite Hf2 by (rewrite Hid1; exact Hnot). now apply Hf1.
Qed.

Lemma StepsChange_updateStep (touched : list string) (stepId : string)
  (status : StepStatus) (description : option string) (steps : list AnalysisStep) :
  In stepId touched ->
  StepsChange touched steps (updateStep stepId status description steps).
Proof.
  intros Hin. unfold updateStep. eexists. split; [reflexivity|].
  intros step. cbv beta. destruct (String.eqb_spec (step_id step) stepId) as [E|E].
  - repeat split. intros Hnot. rewrite E in Hnot. contradiction.
  - repeat split.
Qed.

Lemma StepsChange_more (touched touched' : list string) (a b : list AnalysisStep) :
  incl touched touched' -> StepsChange touched a b -> StepsChange touched' a b.
Proof.
  intros Hincl (g & -> & Hg). exists g. split; [reflexivity|]. intros step.
  destruct (Hg step) as (Hid & Ht & Hf). repeat split; try assumption.
  intros Hnot. apply Hf. intros Hin. apply Hnot, Hincl, Hin.
Qed.

Lemma StepsChange_ids (touched : list string) (a b : list AnalysisStep) :
  StepsChange touched a b ->
  map step_id b = map step_id a /\ map step_title b = map step_title a.
Proof.
  intros (g & -> & Hg). rewrite !map_map. split; apply map_ext; intros s;
    now destruct (Hg s) as (? & ? & _).
Qed.

Lemma progress_of_index (i total : nat) :
  i < total ->
  (40 + INR i / INR total * 50 <= 40 + INR (i + 1) / INR total * 50 <= 90)%R.
Proof.
  intros Hlt.
  assert (Ht : (0 < INR total)%R) by (apply lt_0_INR; lia).
  assert (Hi : (0 <= INR i)%R) by apply pos_INR.
  assert (Hle : (INR (i + 1) <= INR total)%R) by (apply le_INR; lia).
  rewrite plus_INR in *. change (INR 1) with 1%R in *.
  assert (Hu : (0 < / INR total)%R) by now apply Rinv_0_lt_compat.
  assert (Hone : (INR total * / INR total = 1)%R) by (apply Rinv_r; lra).
  unfold Rdiv. set (u := (/ INR total)%R) in *. set (t := INR total) in *.
  set (x := INR i) in *. split; nra.
Qed.

Section OrchestratorFacts.

Variable proxy : string -> option string.
Variable corpus : option (list CorpusItem).
Variable similarityOf : string -> string -> Outcome number.

#[local] Abbreviation loop := (processUrls proxy similarityOf).
#[local] Abbreviation page := (scrapePageContent proxy).

Lemma processUrls_cons (jsonData : list CorpusItem) (total : nat)
  (url : string) (rest : list string) (i : nat) (acc : list AnalysisResult)
  (ui : Ui) :
  loop jsonData total (url :: rest) i acc ui
  = let routePrompt := extractRoutePrompt url in
    let gptResponse := findMatchingGPTResponse routePrompt jsonData in
    if JsText.isEmpty gptResponse
    then loop jsonData total rest (S i) acc
           (consoleWrite ("No matching GPT response for: " ++ routePrompt)
              (markScraping i total url ui))
    else match similarityOf (page url) gptResponse with
         | Thrown _ => (None, markComputing i (markScraping i total url ui))
         | Returned similarity =>
             loop jsonData total rest (S i)
               (acc ++ [newResult url routePrompt (page url) gptResponse similarity])%list
               (setProgress (progressAfter i total)
                  (markComputing i (markScraping i total url ui)))
         end.
Proof. reflexivity. Qed.

Lemma StepsChange_markScraping (i total : nat) (url : string) (ui : Ui) :
  StepsChange loopTouched (ui_steps ui) (ui_steps (markScraping i total url ui)).
Proof. apply StepsChange_updateStep. cbn. tauto. Qed.

Lemma StepsChange_markComputing (i : nat) (ui : Ui) :
  StepsChange loopTouched (ui_steps ui) (ui_steps (markComputing i ui)).
Proof.
  unfold markComputing. cbn [ui_steps setSteps].
  eapply StepsChange_trans; apply StepsChange_updateStep; cbn; tauto.
Qed.

(** What the loop leaves alone. *)
Lemma processUrls_frame (jsonData : list CorpusItem) (total : nat)
  (urls : list string) :
  forall i acc ui,
    ui_isAnalyzing (snd (loop jsonData total urls i acc ui)) = ui_isAnalyzing ui
    /\ ui_results (snd (loop jsonData total urls i acc ui)) = ui_results ui
    /\ StepsChange loopTouched (ui_steps ui)
         (ui_steps (snd (loop jsonData total urls i acc ui))).
Proof.
  induction urls as [|url rest IH]; intros i acc ui.
  - cbn. repeat split. apply StepsChange_refl.
  - rewrite processUrls_cons. cbv zeta.
    destruct (JsText.isEmpty _).
    + destruct (IH (S i) acc
                  (consoleWrite
                     ("No matching GPT response for: " ++ extractRoutePrompt url)
                     (markScraping i total url ui))) as (H1 & H2 & H3).
      rewrite H1, H2. repeat split.
      eapply StepsChange_trans; [|exact H3]. apply StepsChange_markScraping.
    + destruct (similarityOf _ _) as [similarity|e].
      * match goal with
        | |- context [loop jsonData total rest (S i) ?acc' ?ui'] =>
            destruct (IH (S i) acc' ui') as (H1 & H2 & H3)
        end.
        rewrite H1, H2. repeat split.
        eapply StepsChange_trans; [|exact H3].
        eapply StepsChange_trans;
          [apply StepsChange_markScraping | apply StepsChange_markComputing].
      * cbn [snd]. repeat split.
        eapply StepsChange_trans;
          [apply StepsChange_markScraping | apply StepsChange_markComputing].
Qed.

Lemma last_cons {A : Type} (x d : A) (l : list A) : last (x :: l) d = last l x.
Proof.
  revert x d. induction l as [|y l IH]; intros x d; [reflexivity|].
  change (last (x :: y :: l) d) with (last (y :: l) d).
  change (last (y :: l) d = last (y :: l) x). now rewrite !IH.
Qed.

(** The progress values of the loop. *)
Lemma processUrls_progress (jsonData : list CorpusItem) (total : nat)
  (urls : list string) :
  forall i acc ui,
    i + List.length urls = total ->
    exists vals,
      ui_progressLog (snd (loop jsonData total urls i acc ui))
      = (ui_progressLog ui ++ vals)%list
      /\ Chain (40 + INR i / INR total * 50) 90 vals
      /\ ui_progress (snd (loop jsonData total urls i acc ui))
         = last vals (ui_progress ui).
Proof.
  induction urls as [|url rest IH]; intros i acc ui Hlen.
  - exists []. cbn. rewrite app_nil_r.
    split; [reflexivity | split; [apply Chain_nil | reflexivity]].
  - cbn [List.length] in Hlen.
    pose proof (progress_of_index i total ltac:(lia)) as Hstep.
    rewrite processUrls_cons. cbv zeta.
    destruct (JsText.isEmpty _).
    + match goal with
      | |- context [loop jsonData total rest (S i) ?acc' ?ui'] =>
          destruct (IH (S i) acc' ui' ltac:(lia)) as (vals & Hlog & Hchain & Hlast)
      end.
      exists vals. rewrite Hlog, Hlast.
      split; [reflexivity | split; [|reflexivity]].
      replace (S i) with (i + 1) in Hchain by lia.
      eapply Chain_weaken; [| |exact Hchain]; lra.
    + destruct (similarityOf _ _) as [similarity|e].
      * match goal with
        | |- context [loop jsonData total rest (S i) ?acc' ?ui'] =>
            destruct (IH (S i) acc' ui' ltac:(lia)) as (vals & Hlog & Hchain & Hlast)
        end.
        exists (progressAfter i total :: vals). rewrite Hlog, Hlast.
        cbn [ui_progressLog ui_progress setProgress markComputing markScraping setSteps].
        rewrite <- app_assoc. cbn [app]. rewrite last_cons.
        split; [reflexivity | split; [|reflexivity]].
        replace (S i) with (i + 1) in Hchain by lia.
        apply Chain_cons; [exact Hstep | exact Hchain].
      * exists []. cbn [snd]. rewrite app_nil_r.
        split; [reflexivity | split; [apply Chain_nil | reflexivity]].
Qed.

#[local] Abbreviation collected := (resultsFor proxy similarityOf).

(** What the loop collects when it ends normally. *)
Lemma processUrls_results (jsonData : list CorpusItem) (total : nat)
  (urls : list string) :
  forall i acc ui rs,
    fst (loop jsonData total urls i acc ui) = Some rs ->
    rs = (acc ++ flat_map (collected jsonData) urls)%list.
Proof.
  induction urls as [|url rest IH]; intros i acc ui rs.
  - cbn. intros [= <-]. now rewrite app_nil_r.
  - rewrite processUrls_cons. cbv zeta. cbn [flat_map]. unfold resultsFor at 1.
    cbv zeta. destruct (JsText.isEmpty _).
    + intros H. now rewrite (IH _ _ _ _ H).
    + destruct (similarityOf _ _) as [similarity|e]; [|discriminate].
      intros H. rewrite (IH _ _ _ _ H). now rewrite <- app_assoc.
Qed.


(** The URL at which the loop was left by an exception, and the steps at
    that moment. *)
Lemma processUrls_raises (jsonData : list CorpusItem) (total : nat)
  (urls : list string) :
  forall i acc ui,
    fst (loop jsonData total urls i acc ui) = None ->
    (exists url e,
        In url urls
        /\ JsText.isEmpty
             (findMatchingGPTResponse (extractRoutePrompt url) jsonData) = false
        /\ similarityOf (page url)
             (findMatchingGPTResponse (extractRoutePrompt url) jsonData)
           = Thrown e)
    /\ Forall (fun step => In (step_id step) loopTouched ->
                           step_status step = Running)
         (ui_steps (snd (loop jsonData total urls i acc ui))).
Proof.
  induction urls as [|url rest IH]; intros i acc ui.
  - discriminate.
  - rewrite processUrls_cons. cbv zeta.
    destruct (JsText.isEmpty _) eqn:Hempty.
    + intros H. destruct (IH _ _ _ H) as ((u & e & Hin & Hu) & Hsteps).
      split; [|exact Hsteps]. exists u, e. split; [now right | exact Hu].
    + destruct (similarityOf _ _) as [similarity|e] eqn:Hsim.
      * intros H. destruct (IH _ _ _ H) as ((u & e & Hin & Hu) & Hsteps).
        split; [|exact Hsteps]. exists u, e. split; [now right | exact Hu].
      * intros _. split; [exists url, e; split; [now left | now split]|].
        cbn [snd]. unfold markComputing, markScraping, updateStep.
        cbn [ui_steps setSteps]. rewrite !map_map. apply Forall_map.
        apply Forall_forall. intros step _. cbv beta.
        destruct (String.eqb_spec (step_id step) "scrape") as [E1|E1];
          cbn [step_id].
        -- rewrite E1. cbn. reflexivity.
        -- destruct (String.eqb_spec (step_id step) "embed") as [E2|E2];
             cbn [step_id].
           ++ rewrite E2. cbn. reflexivity.
           ++ destruct (String.eqb_spec (step_id step) "calculate") as [E3|E3];
                cbn [step_status]; [reflexivity|].
              intros [H|[H|[H|[]]]]; congruence.
Qed.

Lemma processUrls_none_raises (jsonData : list CorpusItem) (total : nat)
  (urls : list string) :
  forall i acc ui rs,
    fst (loop jsonData total urls i acc ui) = Some rs ->
    NoneRaises proxy similarityOf jsonData urls.
Proof.
  induction urls as [|url rest IH]; intros i acc ui rs.
  - intros _ u [].
  - rewrite processUrls_cons. cbv zeta.
    destruct (JsText.isEmpty _) eqn:Hempty.
    + intros H u [<-|Hin]; [cbv zeta; congruence | exact (IH _ _ _ _ H u Hin)].
    + destruct (similarityOf _ _) as [similarity|e] eqn:Hsim; [|discriminate].
      intros H u [<-|Hin]; [|exact (IH _ _ _ _ H u Hin)].
      cbv zeta. intros _. now exists similarity.
Qed.

Lemma last_Forall {A : Type} (P : A -> Prop) (l : list A) (d : A) :
  P d -> Forall P l -> P (last l d).
Proof.
  intros Hd Hl. revert d Hd. induction Hl as [|x l Hx _ IH]; intros d Hd;
    [exact Hd|]. rewrite last_cons. now apply IH.
Qed.

Lemma take_nonempty (n : nat) (s : string) :
  s <> EmptyString -> Js.take (S n) s <> EmptyString.
Proof. destruct s; [contradiction | discriminate]. Qed.

Lemma isEmpty_false (s : string) : JsText.isEmpty s = false <-> s <> EmptyString.
Proof. destruct s; split; try discriminate; try reflexivity; congruence. Qed.

Lemma resultsFor_built (jsonData : list CorpusItem) (urls : list string) (u : string) :
  In u urls -> Forall (BuiltFrom urls) (collected jsonData u).
Proof.
  intros Hin. unfold resultsFor. cbv zeta.
  destruct (JsText.isEmpty _) eqn:Hempty; [constructor|].
  destruct (similarityOf _ _); [|constructor].
  constructor; [|constructor]. unfold BuiltFrom, newResult.
  cbn [url prompt urlPattern gptAnswer pageText].
  repeat split; try apply take_length; [exact Hin|].
  apply take_nonempty. now apply isEmpty_false.
Qed.

Lemma flat_map_built (jsonData : list CorpusItem) (urls : list string) :
  Forall (BuiltFrom urls) (flat_map (collected jsonData) urls)
  /\ List.length (flat_map (collected jsonData) urls) <= List.length urls.
Proof.
  split.
  - apply Forall_flat_map, Forall_forall. intros u Hin.
    now apply resultsFor_built.
  - induction urls as [|u urls IH]; [reflexivity|]. cbn [flat_map].
    rewrite length_app. cbn [List.length].
    assert (List.length (collected jsonData u) <= 1).
    { unfold resultsFor. cbv zeta. destruct (JsText.isEmpty _); [cbn; lia|].
      destruct (similarityOf _ _); cbn; lia. }
    lia.
Qed.

#[local] Abbreviation run := (startAnalysis proxy corpus similarityOf).

(** The run, by the way it ends. *)
Lemma startAnalysis_cases (csvText : string) (ui : Ui) :
  let urls := parseCSV csvText in
  match corpus with
  | None => run csvText ui = afterFailure (afterParseFailure (resetUi ui))
  | Some jsonData =>
      let looped :=
        loop jsonData (List.length urls) urls 0 []
          (beforeLoop (List.length urls) (resetUi ui)) in
      match fst looped with
      | Some rs => run csvText ui = setIsAnalyzing false (afterLoop rs (snd looped))
      | None => run csvText ui = afterFailure (snd looped)
      end
  end.
Proof.
  cbv zeta. unfold startAnalysis, analysisBody. cbv zeta.
  destruct corpus as [jsonData|]; [|reflexivity].
  fold (resetUi ui). fold (afterParseFailure (resetUi ui)).
  fold (beforeLoop (List.length (parseCSV csvText)) (resetUi ui)).
  destruct (processUrls _ _ _ _ _ _ _ _) as [[rs|] ui']; reflexivity.
Qed.

Lemma HasSteps_ids (ui : Ui) (step : AnalysisStep) :
  HasSteps ui -> In step (ui_steps ui) -> In (step_id step) stepIds.
Proof. intros <- Hin. now apply in_map. Qed.

Lemma HasSteps_inv (ui : Ui) :
  HasSteps ui ->
  exists t1 s1 d1 t2 s2 d2 t3 s3 d3 t4 s4 d4 t5 s5 d5,
    ui_steps ui
    = [mkStep "parse" t1 s1 d1; mkStep "extract" t2 s2 d2; mkStep "scrape" t3 s3 d3;
       mkStep "embed" t4 s4 d4; mkStep "calculate" t5 s5 d5].
Proof.
  unfold HasSteps, stepIds.
  destruct (ui_steps ui) as [|[i1 t1 s1 d1] [|[i2 t2 s2 d2] [|[i3 t3 s3 d3]
    [|[i4 t4 s4 d4] [|[i5 t5 s5 d5] [|]]]]]]; try discriminate.
  cbn [map step_id]. intros H. injection H as -> -> -> -> ->.
  now exists t1, s1, d1, t2, s2, d2, t3, s3, d3, t4, s4, d4, t5, s5, d5.
Qed.


(** The state in which the loop of a run over [csvText] ends. *)
#[local] Abbreviation looped jsonData csvText ui :=
  (loop jsonData (List.length (parseCSV csvText)) (parseCSV csvText) 0 []
     (beforeLoop (List.length (parseCSV csvText)) (resetUi ui))).

(** Some similarity computation of the run raises. *)
#[local] Abbreviation Raises jsonData csvText :=
  (exists url e,
      In url (parseCSV csvText)
      /\ JsText.isEmpty (findMatchingGPTResponse (extractRoutePrompt url) jsonData)
         = false
      /\ similarityOf (page url)
           (findMatchingGPTResponse (extractRoutePrompt url) jsonData)
         = Thrown e).


Lemma run_interrupted (jsonData : list CorpusItem) (csvText : string) (ui : Ui) :
  corpus = Some jsonData ->
  Raises jsonData csvText ->
  fst (looped jsonData csvText ui) = None
  /\ run csvText ui = afterFailure (snd (looped jsonData csvText ui)).
Proof.
  intros Hcorpus (url & e & Hin & Hfound & Hthrown).
  pose proof (startAnalysis_cases csvText ui) as Hrun.
  cbv zeta in Hrun. rewrite Hcorpus in Hrun.
  destruct (fst (looped jsonData csvText ui)) as [rs|] eqn:Hfst;
    [|now rewrite Hcorpus].
  apply processUrls_none_raises in Hfst.
  destruct (Hfst url Hin Hfound) as [similarity Hret]. congruence.
Qed.

Lemma updateStep_ids (stepId : string) (status : StepStatus)
  (description : option string) (steps : list AnalysisStep) :
  map step_id (updateStep stepId status description steps) = map step_id steps
  /\ map step_title (updateStep stepId status description steps)
     = map step_title steps.
Proof.
  apply (StepsChange_ids [stepId]), StepsChange_updateStep. now left.
Qed.

Lemma failRunning_ids (steps : list AnalysisStep) :
  map step_id (failRunning steps) = map step_id steps
  /\ map step_title (failRunning steps) = map step_title steps.
Proof.
  unfold failRunning. rewrite !map_map.
  split; apply map_ext; intros step; now destruct (step_status step).
Qed.

Lemma failRunning_none_running (steps : list AnalysisStep) :
  Forall (fun step => step_status step <> Running) (failRunning steps).
Proof.
  unfold failRunning. apply Forall_map, Forall_forall. intros step _.
  destruct (step_status step) eqn:E; cbn; congruence.
Qed.

Lemma beforeLoop_ids (n : nat) (ui : Ui) :
  map step_id (ui_steps (beforeLoop n (resetUi ui))) = map step_id (ui_steps ui)
  /\ map step_title (ui_steps (beforeLoop n (resetUi ui)))
     = map step_title (ui_steps ui).
Proof.
  cbn [ui_steps beforeLoop afterParseFailure resetUi setProgress setResults
       setSteps setIsAnalyzing].
  split.
  - now rewrite !(proj1 (updateStep_ids _ _ _ _)).
  - now rewrite !(proj2 (updateStep_ids _ _ _ _)).
Qed.

Lemma looped_ids (jsonData : list CorpusItem) (csvText : string) (ui : Ui) :
  map step_id (ui_steps (snd (looped jsonData csvText ui))) = map step_id (ui_steps ui)
  /\ map step_title (ui_steps (snd (looped jsonData csvText ui)))
     = map step_title (ui_steps ui).
Proof.
  destruct (processUrls_frame jsonData (List.length (parseCSV csvText))
              (parseCSV csvText) 0 []
              (beforeLoop (List.length (parseCSV csvText)) (resetUi ui)))
    as (_ & _ & Hchange).
  apply StepsChange_ids in Hchange. destruct Hchange as [Hid Htitle].
  destruct (beforeLoop_ids (List.length (parseCSV csvText)) ui) as [Hid0 Htitle0].
  split; congruence.
Qed.

(** X13: a run never changes the number, the order, the identifiers or
    the titles of the steps, however it ends; only statuses and
    descriptions change. *)
Theorem startAnalysis_keeps_steps (csvText : string) (ui : Ui) :
  map step_id (ui_steps (run csvText ui)) = map step_id (ui_steps ui)
  /\ map step_title (ui_steps (run csvText ui)) = map step_title (ui_steps ui)
  /\ List.length (ui_steps (run csvText ui)) = List.length (ui_steps ui).
Proof.
  assert (H : map step_id (ui_steps (run csvText ui)) = map step_id (ui_steps ui)
              /\ map step_title (ui_steps (run csvText ui))
                 = map step_title (ui_steps ui)).
  { pose proof (startAnalysis_cases csvText ui) as Hrun. cbv zeta in Hrun.
    destruct corpus as [jsonData|].
    - destruct (looped_ids jsonData csvText ui) as [Hid Htitle].
      destruct (fst (looped jsonData csvText ui)); rewrite Hrun;
        cbn [ui_steps afterFailure afterLoop setIsAnalyzing setSteps setProgress
             setResults consoleWrite].
      + split.
        * now rewrite !(proj1 (updateStep_ids _ _ _ _)).
        * now rewrite !(proj2 (updateStep_ids _ _ _ _)).
      + split.
        * now rewrite (proj1 (failRunning_ids _)).
        * now rewrite (proj2 (failRunning_ids _)).
    - rewrite Hrun.
      cbn [ui_steps afterFailure afterParseFailure resetUi setIsAnalyzing setSteps
           setProgress setResults consoleWrite].
      split.
      + now rewrite (proj1 (failRunning_ids _)), (proj1 (updateStep_ids _ _ _ _)).
      + now rewrite (proj2 (failRunning_ids _)), (proj2 (updateStep_ids _ _ _ _)). }
  destruct H as [Hid Htitle]. repeat split; try assumption.
  now rewrite <- (length_map step_id), Hid, length_map.
Qed.


Lemma failRunning_fixed (steps : list AnalysisStep) :
  Forall (fun step => step_status step <> Running) steps ->
  failRunning steps = steps.
Proof.
  intros H. unfold failRunning. rewrite <- (map_id steps) at 2.
  apply map_ext_in. intros step Hin. rewrite Forall_forall in H.
  specialize (H step Hin). now destruct (step_status step).
Qed.

(** X15: when the answer file does not parse, or a similarity computation
    raises for some URL that has a matching answer, the run ends with no
    results at all (also those of the URLs processed before the failure
    are dropped), the analysing flag down, the progress between 10 and
    90, no step left running, and the failure reported on the console
    last. *)
Theorem startAnalysis_fails (csvText : string) (ui : Ui) :
  corpus = None
  \/ (exists jsonData, corpus = Some jsonData /\ Raises jsonData csvText) ->
  ui_isAnalyzing (run csvText ui) = false
  /\ ui_results (run csvText ui) = []
  /\ (10 <= ui_progress (run csvText ui) <= 90)%R
  /\ Forall (fun step => step_status step <> Running) (ui_steps (run csvText ui))
  /\ last (ui_console (run csvText ui)) EmptyString = "Analysis failed:".
Proof.
  intros [Hcorpus | (jsonData & Hcorpus & Hraises)].
  - pose proof (startAnalysis_cases csvText ui) as Hrun. cbv zeta in Hrun.
    rewrite Hcorpus in Hrun |- *. rewrite Hrun.
    cbn [afterFailure afterParseFailure resetUi ui_isAnalyzing ui_results
         ui_progress ui_steps ui_console setIsAnalyzing setSteps setProgress
         setResults consoleWrite].
    split; [reflexivity|]. split; [reflexivity|]. split; [lra|].
    split; [apply failRunning_none_running | apply last_last].
  - destruct (run_interrupted _ csvText ui Hcorpus Hraises) as [_ ->].
    destruct (processUrls_frame jsonData (List.length (parseCSV csvText))
                (parseCSV csvText) 0 []
                (beforeLoop (List.length (parseCSV csvText)) (resetUi ui)))
      as (_ & Hresults & _).
    destruct (processUrls_progress jsonData (List.length (parseCSV csvText))
                (parseCSV csvText) 0 []
                (beforeLoop (List.length (parseCSV csvText)) (resetUi ui)) eq_refl)
      as (vals & _ & [_ Hrange] & Hlast).
    cbn [afterFailure ui_isAnalyzing ui_results ui_progress ui_steps ui_console
         setIsAnalyzing setSteps consoleWrite].
    split; [reflexivity|]. split; [exact Hresults|].
    split; [|split; [apply failRunning_none_running | apply last_last]].
    rewrite Hlast. apply last_Forall.
    + cbn. lra.
    + eapply Forall_impl; [|exact Hrange]. cbn beta.
      replace (INR 0 / INR (List.length (parseCSV csvText)) * 50)%R with 0%R
        by (cbn [INR]; lra).
      intros v Hv. lra.
Qed.

(** X16: which steps a failed run flags, when it starts with the five
    steps of the hook.  If the answer file does not parse, the parsing
    step is the error, and the other steps are not reset: unless one was
    running they keep the statuses of the previous run.  If a similarity
    computation raises, parsing and extracting are completed and the
    three stages of the loop are all errors, the scraping stage
    included. *)
Theorem startAnalysis_flags_failed_stage (csvText : string) (ui : Ui) :
  HasSteps ui ->
  (corpus = None ->
   (exists step, hd_error (ui_steps (run csvText ui)) = Some step
                 /\ step_status step = Failed)
   /\ (Forall (fun step => step_status step <> Running) (ui_steps ui) ->
       tl (ui_steps (run csvText ui)) = tl (ui_steps ui)))
  /\ (forall jsonData,
        corpus = Some jsonData ->
        Raises jsonData csvText ->
        map step_status (ui_steps (run csvText ui))
        = [Completed; Completed; Failed; Failed; Failed]).
Proof.
  intros Hsteps.
  destruct (HasSteps_inv ui Hsteps)
    as (t1 & s1 & d1 & t2 & s2 & d2 & t3 & s3 & d3 & t4 & s4 & d4 & t5 & s5 & d5
        & Hui).
  split.
  - intros Hcorpus. pose proof (startAnalysis_cases csvText ui) as Hrun.
    cbv zeta in Hrun. rewrite Hcorpus in Hrun |- *. rewrite Hrun.
    cbn [afterFailure afterParseFailure resetUi ui_steps setIsAnalyzing setSteps
         setProgress setResults consoleWrite].
    rewrite Hui. split.
    + eexists. split; reflexivity.
    + intros Hidle. cbn. inversion Hidle as [|? ? _ Hrest]; subst.
      apply failRunning_fixed in Hrest. unfold failRunning in Hrest.
      cbn in Hrest. exact Hrest.
  - intros jsonData Hcorpus Hraises.
    destruct (run_interrupted _ csvText ui Hcorpus Hraises) as [Hnone ->].
    destruct (processUrls_raises _ _ _ _ _ _ Hnone) as [_ Hrunning].
    destruct (processUrls_frame jsonData (List.length (parseCSV csvText))
                (parseCSV csvText) 0 []
                (beforeLoop (List.length (parseCSV csvText)) (resetUi ui)))
      as (_ & _ & (g & Hg & Hprops)).
    cbn [afterFailure ui_steps setIsAnalyzing setSteps consoleWrite].
    rewrite Hg in Hrunning |- *.
    cbn [ui_steps beforeLoop afterParseFailure resetUi setProgress setResults
         setSteps setIsAnalyzing] in Hrunning |- *.
    rewrite Hui in Hrunning |- *. cbn -[In] in Hrunning. cbn.
    repeat match goal with
           | H : Forall _ (_ :: _) |- _ => inversion H; subst; clear H
           end.
    repeat match goal with
           | |- context [g ?s] =>
               let Hid := fresh "Hid" in
               let Hsame := fresh "Hsame" in
               destruct (Hprops s) as (Hid & _ & Hsame); cbn in Hid, Hsame;
               first [ rewrite Hsame by (intuition discriminate)
                     | match goal with
                       | H : In (step_id (g s)) loopTouched -> _ |- _ =>
                           rewrite H by (rewrite Hid; cbn; auto 6)
                       end ];
               clear Hid Hsame; cbn
           end.
    reflexivity.
Qed.

Lemma beforeLoop_progressLog (n : nat) (ui : Ui) :
  ui_progressLog (beforeLoop n (resetUi ui))
  = (ui_progressLog ui ++ [0; 10; 20; 30; 40]%R)%list
  /\ ui_progress (beforeLoop n (resetUi ui)) = 40%R.
Proof.
  cbn [ui_progressLog ui_progress beforeLoop afterParseFailure resetUi setProgress
       setResults setSteps setIsAnalyzing].
  now rewrite <- !app_assoc.
Qed.

Lemma looped_progress (jsonData : list CorpusItem) (csvText : string) (ui : Ui) :
  exists vals,
    ui_progressLog (snd (looped jsonData csvText ui))
    = (ui_progressLog ui ++ 0%R :: 10%R :: 20%R :: 30%R :: 40%R :: vals)%list
    /\ Chain 40 90 vals
    /\ ui_progress (snd (looped jsonData csvText ui)) = last vals 40%R.
Proof.
  destruct (processUrls_progress jsonData (List.length (parseCSV csvText))
              (parseCSV csvText) 0 []
              (beforeLoop (List.length (parseCSV csvText)) (resetUi ui)) eq_refl)
    as (vals & Hlog & Hchain & Hlast).
  destruct (beforeLoop_progressLog (List.length (parseCSV csvText)) ui)
    as [Hlog0 Hprogress0].
  exists vals. rewrite Hlog, Hlog0, Hlast, Hprogress0, <- app_assoc.
  split; [reflexivity|]. split; [|reflexivity].
  eapply Chain_weaken; [| |exact Hchain]; cbn [INR]; lra.
Qed.

(** X17: the values that a run hands to [setProgress] are 0, then 10,
    then values that never decrease and stay between 10 and 100; the
    progress shown when the run ends is the last of them.  This holds
    however the run ends. *)
Theorem startAnalysis_progress_never_decreases (csvText : string) (ui : Ui) :
  exists vals,
    ui_progressLog (run csvText ui)
    = (ui_progressLog ui ++ 0%R :: 10%R :: vals)%list
    /\ Chain 10 100 vals
    /\ ui_progress (run csvText ui) = last vals 10%R.
Proof.
  pose proof (startAnalysis_cases csvText ui) as Hrun. cbv zeta in Hrun.
  destruct corpus as [jsonData|].
  - destruct (looped_progress jsonData csvText ui) as (vals & Hlog & Hchain & Hlast).
    destruct (fst (looped jsonData csvText ui)); rewrite Hrun.
    + exists (20%R :: 30%R :: 40%R :: vals ++ [100%R])%list.
      cbn [afterLoop ui_progressLog ui_progress setIsAnalyzing setProgress
           setResults setSteps].
      rewrite Hlog, <- app_assoc. split; [reflexivity|]. split.
      * repeat (apply Chain_cons; [lra|]).
        apply (Chain_snoc 40 90); [exact Hchain | lra | lra].
      * rewrite !last_cons. now rewrite last_last.
    + exists (20%R :: 30%R :: 40%R :: vals)%list.
      cbn [afterFailure ui_progressLog ui_progress setIsAnalyzing setSteps
           consoleWrite].
      split; [exact Hlog|]. split.
      * repeat (apply Chain_cons; [lra|]).
        eapply Chain_weaken; [| |exact Hchain]; lra.
      * now rewrite !last_cons.
  - exists []. rewrite Hrun.
    cbn [afterFailure afterParseFailure resetUi ui_progressLog ui_progress
         setIsAnalyzing setSteps setProgress setResults consoleWrite last].
    rewrite <- app_assoc. split; [reflexivity|]. split; [apply Chain_nil | reflexivity].
Qed.



Lemma run_results (csvText : string) (ui : Ui) :
  ui_results (run csvText ui) = []
  \/ exists jsonData,
       corpus = Some jsonData
       /\ ui_results (run csvText ui)
          = flat_map (collected jsonData) (parseCSV csvText).
Proof.
  pose proof (startAnalysis_cases csvText ui) as Hrun. cbv zeta in Hrun.
  destruct corpus as [jsonData|]; [|left; now rewrite Hrun].
  destruct (fst (looped jsonData csvText ui)) as [rs|] eqn:Hfst; rewrite Hrun.
  - right. exists jsonData. split; [reflexivity|].
    now rewrite (processUrls_results _ _ _ _ _ _ _ Hfst).
  - left. cbn [afterFailure ui_results setIsAnalyzing setSteps consoleWrite].
    now rewrite (proj1 (proj2 (processUrls_frame _ _ _ _ _ _))).
Qed.

Lemma run_results_built (csvText : string) (ui : Ui) :
  List.length (ui_results (run csvText ui)) <= 5
  /\ Forall (BuiltFrom (parseCSV csvText)) (ui_results (run csvText ui)).
Proof.
  destruct (run_results csvText ui) as [-> | (jsonData & _ & ->)].
  - split; [cbn; lia | constructor].
  - destruct (flat_map_built jsonData (parseCSV csvText)) as [Hbuilt Hlen].
    split; [|exact Hbuilt].
    pose proof (firstn_le_length 5
                  (filter (fun line => negb (JsText.isEmpty (JsText.trim line)))
                     (Js.split csvText (String newline EmptyString)))).
    assert (List.length (parseCSV csvText) <= 5)
      by (unfold parseCSV, slice_1_6; cbv zeta; rewrite length_map;
          apply firstn_le_length).
    lia.
Qed.


(** X19: whatever the files hold and however the run ends, its results
    are at most five, and each of them is built from one of the URLs of
    the file: its prompt is the prompt derived from its URL, its URL
    pattern is that prompt, its answer is not empty, and page text and
    answer are at most 300 characters long.  The URL of a result holds
    neither a double quote nor a comma. *)
Theorem startAnalysis_results_built (csvText : string) (ui : Ui) :
  List.length (ui_results (run csvText ui)) <= 5
  /\ Forall (BuiltFrom (parseCSV csvText)) (ui_results (run csvText ui))
  /\ Forall (fun r => NoQuote (url r) /\ ~ Js.Substring "," (url r))
       (ui_results (run csvText ui)).
Proof.
  destruct (run_results_built csvText ui) as [Hlength Hbuilt].
  split; [exact Hlength|]. split; [exact Hbuilt|].
  eapply Forall_impl; [|exact Hbuilt]. intros r (Hin & _).
  pose proof (parseCSV_fields csvText) as Hfields.
  rewrite Forall_forall in Hfields. destruct (Hfields _ Hin) as (Hquote & Hcomma & _).
  split; [now apply NoQuote_hasChar | now apply hasChar_Substring].
Qed.



(** X22: among the results of a run, the dashboard reports a match exactly
    for those whose URL gave a prompt, and for those its ideal prompt is
    that prompt: the fallback on the route data is not used. *)
Theorem startAnalysis_results_in_dashboard (csvText : string) (ui : Ui) :
  Forall (fun r =>
            matchFound (enhanceResult r)
            = Some (negb (JsText.isEmpty (extractRoutePrompt (url r))))
            /\ (extractRoutePrompt (url r) <> EmptyString ->
                idealPrompt (enhanceResult r) = Some (extractRoutePrompt (url r))))
    (ui_results (run csvText ui)).
Proof.
  destruct (run_results_built csvText ui) as [_ Hbuilt].
  eapply Forall_impl; [|exact Hbuilt].
  intros r (_ & Hprompt & Hpattern & Hanswer & _).
  cbn [matchFound idealPrompt enhanceResult setPriorityScore].
  rewrite Hpattern, Hprompt. apply isEmpty_false in Hanswer. rewrite Hanswer.
  split; [now rewrite andb_true_r|].
  intros Hne. now destruct (extractRoutePrompt (url r)).
Qed.

End OrchestratorFacts.

(** ** The facts about the orchestrator on a small run *)

Example sampleCsv_urls :
  parseCSV sampleCsv
  = ["https://a.example/train-times/leeds-to-york/"; "https://a.example/about"].
Proof. reflexivity. Qed.






(** ** The grouped statistics of the dashboard *)

Lemma get_set {V : Type} (key key' : string) (v : V) (obj : list (string * V)) :
  JsObject.get key (JsObject.set key' v obj)
  = if String.eqb key' key then Some v else JsObject.get key obj.
Proof.
  induction obj as [|[k old] obj IH]; cbn [JsObject.get JsObject.set].
  - reflexivity.
  - destruct (String.eqb_spec k key') as [->|Hk]; cbn [JsObject.get].
    + now destruct (String.eqb key' key).
    + destruct (String.eqb_spec k key) as [->|Hk'].
      * destruct (String.eqb_spec key' key) as [->|_]; [contradiction|reflexivity].
      * exact IH.
Qed.

Lemma get_group {A V : Type} (keyOf : A -> string) (empty : V)
  (update : V -> A -> V) (key : string) (l : list A) :
  forall acc,
    JsObject.get key (fold_left (group keyOf empty update) l acc)
    = match filter (fun a => String.eqb (keyOf a) key) l with
      | [] => JsObject.get key acc
      | members =>
          Some (fold_left update members
                  (match JsObject.get key acc with
                   | Some entry => entry
                   | None => empty
                   end))
      end.
Proof.
  induction l as [|a l IH]; intros acc; [reflexivity|].
  cbn [fold_left filter]. rewrite IH.
  replace (JsObject.get key (group keyOf empty update acc a))
    with (if String.eqb (keyOf a) key
          then Some (update (match JsObject.get (keyOf a) acc with
                             | Some entry => entry
                             | None => empty
                             end) a)
          else JsObject.get key acc)
    by (unfold group; now rewrite get_set).
  destruct (String.eqb_spec (keyOf a) key) as [Hkey|Hkey].
  - rewrite Hkey. cbn [fold_left]. now destruct (filter _ l).
  - now destruct (filter _ l).
Qed.

Lemma count_up {A : Type} (members : list A) (n : nat) :
  fold_left (fun seen _ => seen + 1) members n = n + List.length members.
Proof.
  revert n. induction members as [|a members IH]; intros n; cbn [fold_left length].
  - lia.
  - rewrite IH. lia.
Qed.

Lemma intentDistribution_get (rs : list AnalysisResult) (key : string) :
  JsObject.get key (intentDistribution rs)
  = match countIf (fun r => String.eqb (intentKey (intentType r)) key) rs with
    | 0 => None
    | S n => Some (S n)
    end.
Proof.
  unfold intentDistribution, countIf.
  change countIntent
    with (group (fun r => intentKey (intentType r)) 0
            (fun (seen : nat) (_ : AnalysisResult) => seen + 1)).
  rewrite get_group. cbn [JsObject.get].
  destruct (filter _ rs) as [|r members]; [reflexivity|].
  now rewrite count_up.
Qed.

Lemma countIf_partition {A : Type} (f g h k : A -> bool) (l : list A) :
  (forall a, In a l ->
             (if f a then 1 else 0) + (if g a then 1 else 0)
             + (if h a then 1 else 0) + (if k a then 1 else 0) = 1) ->
  countIf f l + countIf g l + countIf h l + countIf k l = List.length l.
Proof.
  unfold countIf. induction l as [|a l IH]; intros Hone; [reflexivity|].
  cbn [filter length]. pose proof (Hone a (or_introl eq_refl)) as Ha.
  specialize (IH (fun x Hx => Hone x (or_intror Hx))).
  destruct (f a), (g a), (h a), (k a); cbn [length] in *; lia.
Qed.

(** X23: the intent distribution holds, for each intent, the number of
    results classified with it, and no entry for an intent that does
    not occur.  On the enhanced results the four counts add up to the
    number of results. *)
Theorem intentDistribution_counts (results : list AnalysisResult) :
  let occurrences key rs :=
    countIf (fun r => String.eqb (intentKey (intentType r)) key) rs in
  let shown key rs :=
    match JsObject.get key (intentDistribution rs) with
    | Some n => n
    | None => 0
    end in
  (forall key,
      JsObject.get key (intentDistribution results)
      = match occurrences key results with
        | 0 => None
        | S n => Some (S n)
        end)
  /\ shown "Informational" (map enhanceResult results)
     + shown "Transactional" (map enhanceResult results)
     + shown "Navigational" (map enhanceResult results)
     + shown "Mixed" (map enhanceResult results)
     = List.length results.
Proof.
  cbv zeta. split; [intros key; apply intentDistribution_get|].
  rewrite !intentDistribution_get.
  assert (Hshown : forall n, match match n with 0 => None | S m => Some (S m) end
                             with Some k => k | None => 0 end = n)
    by (now intros [|m]).
  rewrite !Hshown, <- (length_map enhanceResult results).
  apply countIf_partition. intros r Hin.
  apply in_map_iff in Hin. destruct Hin as (x & <- & _).
  cbn [intentType enhanceResult setPriorityScore].
  now destruct (classifyIntent (prompt x) (pageText x)).
Qed.

Lemma addRoute_members (members : list AnalysisResult) (entry : RouteStats) :
  fold_left (fun e r => mkRouteStats (rs_routes e ++ [r])%list
                          (rs_totalScore e + similarity r)%js (rs_count e + 1))
    members entry
  = mkRouteStats (rs_routes entry ++ members)%list
      (addScores (rs_totalScore entry) members)
      (rs_count entry + List.length members).
Proof.
  revert entry. induction members as [|r members IH]; intros [routes total count].
  - cbn. now rewrite app_nil_r, Nat.add_0_r.
  - cbn [fold_left]. rewrite IH. cbn [rs_routes rs_totalScore rs_count length].
    unfold addScores. cbn [fold_left]. rewrite <- app_assoc. cbn [app].
    f_equal. lia.
Qed.

(** X24: the route analysis groups the results by [Origin to
    Destination]: the entry of a key holds exactly the results with that
    key, in the order of the list, their number as the count and the sum
    of their similarities as the total score; a key that no result has is
    absent.  So the count of an entry is never zero, and the average
    taken from it divides by the number of results summed. *)
Theorem routeAnalysis_groups (rs : list AnalysisResult) (key : string) :
  JsObject.get key (routeAnalysis rs)
  = match withRouteKey key rs with
    | [] => None
    | members =>
        Some (mkRouteStats members (addScores (Num 0) members)
                (List.length members))
    end.
Proof.
  unfold routeAnalysis, withRouteKey.
  change addRoute
    with (group routeKey (mkRouteStats [] (Num 0) 0)
            (fun e r => mkRouteStats (rs_routes e ++ [r])%list
                          (rs_totalScore e + similarity r)%js (rs_count e + 1))).
  rewrite get_group. cbn [JsObject.get].
  destruct (filter _ rs) as [|r members]; [reflexivity|].
  now rewrite addRoute_members.
Qed.

Lemma addRegion_members (members : list (string * AnalysisResult)) :
  forall count total urls,
    fold_left (fun e (p : string * AnalysisResult) =>
                 mkRegionStats (rg_count e + Num 0.5)%js
                   (rg_totalScore e + similarity (snd p) * Num 0.5)%js
                   (rg_urls e ++ [snd p])%list)
      members (mkRegionStats (Num count) total urls)
    = mkRegionStats (Num (count + INR (List.length members) / 2))
        (addHalfScores total (map snd members))
        (urls ++ map snd members)%list.
Proof.
  induction members as [|p members IH]; intros count total urls.
  - cbn. rewrite app_nil_r. do 2 f_equal. lra.
  - cbn [fold_left rg_count rg_totalScore rg_urls JsNum.add].
    rewrite IH. unfold addHalfScores. cbn [map fold_left].
    rewrite <- app_assoc. cbn [app]. f_equal. f_equal.
    change (List.length (p :: members)) with (S (List.length members)).
    rewrite S_INR. lra.
Qed.

(** The pairs of a region and a result that [regionAnalysis] goes
    through. *)
Lemma regionAnalysis_flat (rs : list AnalysisResult) :
  forall acc,
    fold_left addRegions rs acc
    = fold_left
        (group fst (mkRegionStats (Num 0) (Num 0) [])
           (fun e (p : string * AnalysisResult) =>
              mkRegionStats (rg_count e + Num 0.5)%js
                (rg_totalScore e + similarity (snd p) * Num 0.5)%js
                (rg_urls e ++ [snd p])%list))
        (flat_map (fun r => map (fun region => (region, r)) (regionsOf r)) rs)
        acc.
Proof.
  induction rs as [|r rs IH]; intros acc; [reflexivity|].
  cbn [fold_left flat_map]. rewrite fold_left_app, IH. reflexivity.
Qed.

Lemma endsIn_pairs (region : string) (rs : list AnalysisResult) :
  map snd
    (filter (fun p : string * AnalysisResult => String.eqb (fst p) region)
       (flat_map (fun r => map (fun found => (found, r)) (regionsOf r)) rs))
  = endsIn region rs.
Proof.
  unfold endsIn. induction rs as [|r rs IH]; [reflexivity|].
  cbn [flat_map]. rewrite filter_app, map_app, IH. f_equal.
  unfold regionsOf. cbv zeta. cbn [map filter fst].
  destruct (String.eqb _ region), (String.eqb _ region); reflexivity.
Qed.

Lemma getRegion_cases (location : string) :
  getRegion location = "London" \/ getRegion location = "Scotland"
  \/ getRegion location = "Northern England" \/ getRegion location = "Other".
Proof.
  unfold getRegion.
  destruct (Js.includes _ "london"); [tauto|].
  destruct (existsb _ scottishCities); [tauto|].
  destruct (existsb _ northernCities); tauto.
Qed.

(** X25: the region analysis gives each result half a count for the
    region of its origin and half a count for the region of its
    destination: the entry of a region holds half the number of route
    ends that lie in it, the result of each such end (twice when both
    ends lie in the region), and half the similarity of each; a region
    without a route end is absent.  Every route end lies in one of the
    four regions, so the counts add up to the number of results. *)
Theorem regionAnalysis_counts (rs : list AnalysisResult) :
  (forall region,
      JsObject.get region (regionAnalysis rs)
      = match endsIn region rs with
        | [] => None
        | ends =>
            Some (mkRegionStats (Num (INR (List.length ends) / 2))
                    (addHalfScores (Num 0) ends) ends)
        end)
  /\ List.length (endsIn "London" rs) + List.length (endsIn "Scotland" rs)
     + List.length (endsIn "Northern England" rs)
     + List.length (endsIn "Other" rs)
     = 2 * List.length rs.
Proof.
  split.
  - intros region. unfold regionAnalysis. rewrite regionAnalysis_flat, get_group.
    cbn [JsObject.get]. rewrite <- endsIn_pairs.
    destruct (filter _ _) as [|p members] eqn:Hmembers; [reflexivity|].
    rewrite addRegion_members. cbn [app map]. do 3 f_equal.
    change (snd p :: map snd members) with (map snd (p :: members)).
    rewrite length_map. lra.
  - unfold endsIn. induction rs as [|r rs IH]; [reflexivity|].
    cbn [flat_map length]. rewrite !length_app, !length_map.
    unfold regionsOf at 1 3 5 7. cbv zeta.
    destruct (getRegion_cases (rd_origin (extractRouteData (url r))))
      as [-> | [-> | [-> | ->]]];
      destruct (getRegion_cases (rd_destination (extractRouteData (url r))))
        as [-> | [-> | [-> | ->]]];
      cbn [filter String.eqb Ascii.eqb Bool.eqb length]; lia.
Qed.

End Facts.

(** * The program on ASCII text *)

Section OnAscii.

#[local] Existing Instance Js.asciiFolding.

(** ** The case mapping of ASCII text *)

Lemma lowerAscii_append (a b : string) :
  Js.lowerAscii (a ++ b) = Js.lowerAscii a ++ Js.lowerAscii b.
Proof. induction a as [|x a IH]; simpl; [reflexivity | now rewrite IH]. Qed.

Lemma lowerAscii_word (word : string) :
  allChars isLowerLetter word = true -> Js.lowerAscii word = word.
Proof.
  induction word as [|c word IH]; [reflexivity|].
  cbn [allChars Js.lowerAscii]. rewrite andb_true_iff. intros [Hc Hword].
  rewrite (IH Hword). f_equal.
  destruct c as [[] [] [] [] [] [] [] []]; try reflexivity; discriminate.
Qed.

Lemma asciiFolding_keeps_words : LowerKeepsWords.
Proof.
  intros text word Hword Hin. cbn [Js.toLowerCase Js.asciiFolding].
  apply includes_iff in Hin. destruct Hin as (pre & post & ->).
  apply includes_iff. exists (Js.lowerAscii pre), (Js.lowerAscii post).
  now rewrite !lowerAscii_append, (lowerAscii_word word Hword).
Qed.


(** ** The response matcher *)

Lemma findMatchingGPTResponse_empty_prompt_witness :
  Js.toLowerCase EmptyString = EmptyString
  /\ findMatchingGPTResponse EmptyString
       [mkItem (Some "cheapest london to paris train tickets online") (Some "X")]
     = "X".
Proof.
  split; [reflexivity|].
  exact (proj2 (findMatchingGPTResponse_empty_prompt EmptyString
                  (mkItem (Some "cheapest london to paris train tickets online")
                          (Some "X"))
                  [] eq_refl)).
Defined.

Example findMatchingGPTResponse_exact :
  findMatchingGPTResponse "cheapest london to paris train tickets online"
    [mkItem (Some "Cheapest London to Paris train tickets online") (Some "X")]
  = "X".
Proof. reflexivity. Qed.

Example findMatchingGPTResponse_unrelated :
  findMatchingGPTResponse "cheapest leeds to york train tickets online"
    [mkItem (Some "Cheapest London to Paris train tickets online") (Some "X")]
  = EmptyString.
Proof. reflexivity. Qed.

(** C2, as stated, fails on a tie: "buy website" has one transactional and
    one navigational keyword and no informational one, and is classified
    [Navigational], where precedence of [Transactional] on ties would give
    [Transactional]. *)
Lemma classifyIntent_tie_counterexample :
  keywordCount transactionalKeywords (intentText "buy" "website") = 1
  /\ keywordCount informationalKeywords (intentText "buy" "website") = 0
  /\ keywordCount navigationalKeywords (intentText "buy" "website") = 1
  /\ classifyIntent "buy" "website" = Navigational.
Proof. repeat split. Qed.

Example classifyIntent_tie_informational :
  keywordCount transactionalKeywords (intentText "how" "website") = 0
  /\ keywordCount informationalKeywords (intentText "how" "website") = 1
  /\ keywordCount navigationalKeywords (intentText "how" "website") = 1
  /\ classifyIntent "how" "website" = Navigational.
Proof. repeat split. Qed.

Example classifyIntent_mixed :
  classifyIntent "cheapest london to paris train tickets online"
                 "Train schedule and route map" = Mixed.
Proof. reflexivity. Qed.

Example extractRoutePrompt_london_paris :
  extractRoutePrompt "https://www.example.com/train-times/london-to-paris/"
  = "cheapest london to paris train tickets online".
Proof. reflexivity. Qed.

Example extractRoutePrompt_no_segment :
  extractRoutePrompt "https://www.example.com/about/" = EmptyString.
Proof. reflexivity. Qed.

Example extractRoutePrompt_no_separator :
  extractRoutePrompt "https://www.example.com/train-times/foo/" = EmptyString.
Proof. reflexivity. Qed.

Example extractRoutePrompt_upper_case :
  extractRoutePrompt "https://www.example.com/train-times/London-TO-Paris"
  = "cheapest london to paris train tickets online".
Proof. reflexivity. Qed.

Example extractRoutePrompt_three_tokens :
  extractRoutePrompt "/train-times/a-to-b-to-c/x"
  = "cheapest a to b train tickets online".
Proof. reflexivity. Qed.

Example extractRoutePrompt_empty_slug_skipped :
  extractRoutePrompt "/train-times//train-times/york-to-hull"
  = "cheapest york to hull train tickets online".
Proof. reflexivity. Qed.

(** C8, as stated, fails: the separator is looked for in the slug read in
    lower case, and the tokens are taken from that reading.  The slug
    [London-TO-Paris] does not contain [-to-], and the prompt is not
    empty; the tokens of the slug [London-to-Paris] are [London] and
    [Paris], and the prompt is built from [london] and [paris]. *)
Lemma extractRoutePrompt_case_counterexample :
  FirstSegment "https://www.example.com/train-times/London-TO-Paris"
    "London-TO-Paris"
  /\ Js.includes "London-TO-Paris" routeSeparator = false
  /\ extractRoutePrompt "https://www.example.com/train-times/London-TO-Paris"
     = "cheapest london to paris train tickets online"
  /\ FirstSegment "https://www.example.com/train-times/London-to-Paris/"
       "London-to-Paris"
  /\ Js.split "London-to-Paris" routeSeparator = ["London"; "Paris"]
  /\ extractRoutePrompt "https://www.example.com/train-times/London-to-Paris/"
     <> "cheapest London to Paris train tickets online".
Proof.
  split; [apply matchRoute_Some; reflexivity|].
  split; [reflexivity|]. split; [reflexivity|].
  split; [apply matchRoute_Some; reflexivity|].
  split; [reflexivity | discriminate].
Qed.

Lemma extractRoutePrompt_contract_witness :
  FirstSegment "https://www.example.com/train-times/London-to-Paris/" "London-to-Paris"
  /\ FirstSplit routeSeparator "london-to-paris" "london" "paris"
  /\ FirstToken routeSeparator "paris" "paris"
  /\ extractRoutePrompt "https://www.example.com/train-times/London-to-Paris/"
     = "cheapest london to paris train tickets online".
Proof.
  assert (Hsegment : FirstSegment
            "https://www.example.com/train-times/London-to-Paris/" "London-to-Paris")
    by (apply matchRoute_Some; reflexivity).
  assert (Hsplit : FirstSplit routeSeparator "london-to-paris" "london" "paris").
  { split; [reflexivity|]. intros p q H.
    do 6 (destruct p as [|? p]; [simpl in H; congruence|]). simpl. lia. }
  assert (Htoken : FirstToken routeSeparator "paris" "paris").
  { left. split; [|reflexivity]. apply not_Substring_iff. reflexivity. }
  split; [exact Hsegment | split; [exact Hsplit | split; [exact Htoken|]]].
  exact (proj2 (proj2 (proj2 (extractRoutePrompt_contract
           "https://www.example.com/train-times/London-to-Paris/")))
           "London-to-Paris" "london" "paris" "paris" Hsegment Hsplit Htoken).
Defined.

Lemma entityMismatch_needs_trainline_witness :
  Js.includes (Js.toLowerCase "Book with Omio") "trainline" = false
  /\ Js.includes (Js.toLowerCase "Eurostar runs this route") "trainline" = false
  /\ sg_entityMismatch
       (analyzeSemanticGaps "Book with Omio" "Eurostar runs this route") = false.
Proof.
  split; [reflexivity|]. split; [reflexivity|].
  exact (entityMismatch_needs_trainline "Book with Omio"
           "Eurostar runs this route" eq_refl eq_refl).
Defined.

Example analyzeSemanticGaps_sample :
  analyzeSemanticGaps "You can travel  from London to Paris by train"
    "Book a cheap ticket  on Trainline, price from 40"
  = mkGaps ["book"; "cheap"; "price"; "ticket"] false true.
Proof. reflexivity. Qed.

Lemma derived_prompt_is_never_informational_witness :
  LowerKeepsWords
  /\ extractRoutePrompt "/train-times/leeds-to-york" <> EmptyString
  /\ classifyIntent (extractRoutePrompt "/train-times/leeds-to-york")
       "How and when to travel" <> Informational.
Proof.
  assert (H : extractRoutePrompt "/train-times/leeds-to-york" <> EmptyString)
    by discriminate.
  split; [exact asciiFolding_keeps_words|]. split; [exact H|].
  exact (proj2 (derived_prompt_is_never_informational
                  "/train-times/leeds-to-york" "How and when to travel"
                  asciiFolding_keeps_words H)).
Defined.


Lemma startAnalysis_fails_witness :
  ui_results (startAnalysis sampleProxy (Some sampleCorpus) brokenSimilarity
                sampleCsv initialUi) = []
  /\ (10 <= ui_progress (startAnalysis sampleProxy (Some sampleCorpus)
                           brokenSimilarity sampleCsv initialUi) <= 90)%R.
Proof.
  assert (Hraises :
            Some sampleCorpus = None
            \/ exists jsonData,
                 Some sampleCorpus = Some jsonData
                 /\ exists url e,
                      In url (parseCSV sampleCsv)
                      /\ JsText.isEmpty
                           (findMatchingGPTResponse (extractRoutePrompt url) jsonData)
                         = false
                      /\ brokenSimilarity (scrapePageContent sampleProxy url)
                           (findMatchingGPTResponse (extractRoutePrompt url) jsonData)
                         = Thrown e).
  { right. exists sampleCorpus. split; [reflexivity|].
    exists "https://a.example/train-times/leeds-to-york/", TypeError.
    split; [left; reflexivity|]. split; reflexivity. }
  destruct (startAnalysis_fails sampleProxy (Some sampleCorpus) brokenSimilarity
              sampleCsv initialUi Hraises)
    as (_ & Hresults & Hprogress & _).
  split; [exact Hresults | exact Hprogress].
Defined.

Lemma startAnalysis_flags_failed_stage_witness :
  HasSteps initialUi
  /\ exists step,
       hd_error (ui_steps (startAnalysis sampleProxy None steadySimilarity
                             sampleCsv initialUi)) = Some step
       /\ step_status step = Failed.
Proof.
  assert (Hsteps : HasSteps initialUi) by reflexivity.
  split; [exact Hsteps|].
  exact (proj1 (proj1 (startAnalysis_flags_failed_stage sampleProxy None
                         steadySimilarity sampleCsv initialUi Hsteps)
                  eq_refl)).
Defined.



End OnAscii.
